(** * mosquitto_multi_tenant: a shallow embedding of the multi-tenant plugin

    The plugin (src/mosquitto_multi_tenant.c) extracts a "team" from the
    username of a client with a POSIX extended regular expression and
    rewrites client ids, topics and topic filters with it.

    Layout of the development:
    - [Libc]       : the C string functions the plugin calls, and raw
                     character buffers as handed out by malloc;
    - [Regex]      : regcomp/regexec for POSIX extended regular expressions;
    - [Mosquitto]  : the part of the broker API the plugin uses (memory
                     allocation, callback registration, status codes);
    - the plugin itself, function by function, with the source's names;
    - the lemmas and the theorems about it. *)

From Stdlib Require Import String Ascii List ZArith Lia Bool Arith.
Import ListNotations.

Local Open Scope string_scope.
Local Open Scope list_scope.
Local Open Scope nat_scope.

(* ================================================================== *)
(** * The C library *)
(* ================================================================== *)

Module Libc.

(** A value of type [string] stands for a NUL-terminated C string and holds
    the characters in front of the terminator.  A [block] is raw memory: a
    character array obtained from the allocator, in which the terminator
    is an explicit byte. *)

Definition NUL : ascii := Ascii.zero.

Definition uchar (c : ascii) : Z := Z.of_nat (nat_of_ascii c).

Definition strlen (s : string) : nat := String.length s.

(** [s + n] on a [char *]. *)
Fixpoint advance (s : string) (n : nat) {struct n} : string :=
  match n with
  | O => s
  | S n' => match s with
            | EmptyString => EmptyString
            | String _ r => advance r n'
            end
  end.

(** [s[i]]; the byte read at the end of the characters is the terminator. *)
Definition char_at (s : string) (i : nat) : ascii :=
  match String.get i s with
  | Some c => c
  | None => NUL
  end.

(** [strncmp(s1, s2, n)]: compares at most [n] characters as unsigned
    chars, the end of a string counting as the terminator. *)
Fixpoint strncmp (s1 s2 : string) (n : nat) {struct n} : Z :=
  match n with
  | O => 0%Z
  | S n' =>
      match s1, s2 with
      | EmptyString, EmptyString => 0%Z
      | EmptyString, String c2 _ => (uchar NUL - uchar c2)%Z
      | String c1 _, EmptyString => (uchar c1 - uchar NUL)%Z
      | String c1 r1, String c2 r2 =>
          if Ascii.eqb c1 c2 then strncmp r1 r2 n'
          else (uchar c1 - uchar c2)%Z
      end
  end.

(** [tolower] in the C locale. *)
Definition tolower (c : ascii) : ascii :=
  let n := nat_of_ascii c in
  if (65 <=? n) && (n <=? 90) then ascii_of_nat (n + 32) else c.

(** [strcasecmp(s1, s2)]. *)
Fixpoint strcasecmp (s1 s2 : string) : Z :=
  match s1, s2 with
  | EmptyString, EmptyString => 0%Z
  | EmptyString, String c2 _ => (uchar NUL - uchar (tolower c2))%Z
  | String c1 _, EmptyString => (uchar (tolower c1) - uchar NUL)%Z
  | String c1 r1, String c2 r2 =>
      if Ascii.eqb (tolower c1) (tolower c2) then strcasecmp r1 r2
      else (uchar (tolower c1) - uchar (tolower c2))%Z
  end.

(** [snprintf(buf, size, fmt, ...)] into a zeroed buffer of [size] bytes,
    [formatted] being the expansion of the format: at most [size - 1]
    characters are written, followed by the terminator. *)
Definition snprintf (size : nat) (formatted : string) : string :=
  String.substring 0 (size - 1) formatted.

Definition block := list ascii.

(** The [n] bytes [strncpy] writes: the characters of the source, then
    terminators if the source is shorter than [n].  No terminator is
    written when the source has [n] characters or more. *)
Fixpoint copy_bytes (src : string) (n : nat) : list ascii :=
  match n with
  | O => []
  | S n' =>
      match src with
      | EmptyString => NUL :: copy_bytes EmptyString n'
      | String c r => c :: copy_bytes r n'
      end
  end.

(** [strncpy(dst, src, n)]; [None] when the [n] bytes do not fit in the
    block. *)
Definition strncpy (dst : block) (src : string) (n : nat) : option block :=
  if n <=? length dst then Some (copy_bytes src n ++ skipn n dst) else None.

(** [b[i] = c]; [None] when [i] is outside the block. *)
Definition store (b : block) (i : nat) (c : ascii) : option block :=
  if i <? length b then Some (firstn i b ++ c :: skipn (S i) b) else None.

(** Reading a block as a C string, as [%s] and [strlen] do: the characters
    up to the first terminator; [None] when the block holds none, that is
    when the read runs off its end. *)
Fixpoint cstr (b : block) : option string :=
  match b with
  | [] => None
  | c :: r =>
      if Ascii.eqb c NUL then Some EmptyString
      else match cstr r with
           | Some s => Some (String c s)
           | None => None
           end
  end.

(** [sizeof('/')]: a character constant has type [int] in C, 4 bytes on
    the platforms the broker runs on.  It only makes the buffers larger
    than they need to be. *)
Definition sizeof_char_constant : nat := 4.

End Libc.

(* ================================================================== *)
(** * POSIX extended regular expressions *)
(* ================================================================== *)

Module Regex.

Import Libc.

Inductive cclass : Type :=
| alpha | digit | alnum | upper | lower | space
| blank | punct | print | graph | cntrl | xdigit.

Inductive bracket_item : Type :=
| BChar (c : ascii)
| BRange (lo hi : ascii)
| BClass (k : cclass).

(** The places the GNU operators [\b], [\B], [\<] and [\>] match at. *)
Inductive word_context : Type :=
| word_delim | not_word_delim | word_first | word_last.

(** Abstract syntax of a compiled expression.  [r+] is [Cat r (Star r)],
    [r?] is [Alt r Eps] and a bound [r{m,n}] is unfolded by [regcomp]. *)
Inductive regex : Type :=
| Eps
| Chr (c : ascii)
| Any
| Bracket (negated : bool) (items : list bracket_item)
| Bol
| Eol
| Cat (r1 r2 : regex)
| Alt (r1 r2 : regex)
| Star (r : regex)
| Group (n : nat) (r : regex)
| Word (k : word_context)
| Backref (n : nat).

Inductive reg_errcode_t : Type :=
| REG_NOERROR | REG_NOMATCH | REG_BADPAT | REG_ECOLLATE | REG_ECTYPE
| REG_EESCAPE | REG_ESUBREG | REG_EBRACK | REG_EPAREN | REG_EBRACE
| REG_BADBR | REG_ERANGE | REG_ESPACE | REG_BADRPT | REG_EEND
| REG_ESIZE | REG_ERPAREN.

Record regmatch_t : Type := { rm_so : Z; rm_eo : Z }.

(** ** Matching *)

Definition between (lo hi n : nat) : bool := (lo <=? n) && (n <=? hi).

Definition in_cclass (k : cclass) (c : ascii) : bool :=
  let n := nat_of_ascii c in
  let is_upper := between 65 90 n in
  let is_lower := between 97 122 n in
  let is_digit := between 48 57 n in
  let is_graph := between 33 126 n in
  match k with
  | alpha => is_upper || is_lower
  | digit => is_digit
  | alnum => is_upper || is_lower || is_digit
  | upper => is_upper
  | lower => is_lower
  | space => (n =? 32) || between 9 13 n
  | blank => (n =? 32) || (n =? 9)
  | punct => is_graph && negb (is_upper || is_lower || is_digit)
  | print => between 32 126 n
  | graph => is_graph
  | cntrl => (n <? 32) || (n =? 127)
  | xdigit => is_digit || between 65 70 n || between 97 102 n
  end.

Definition in_item (c : ascii) (it : bracket_item) : bool :=
  match it with
  | BChar a => Ascii.eqb a c
  | BRange lo hi => between (nat_of_ascii lo) (nat_of_ascii hi) (nat_of_ascii c)
  | BClass k => in_cclass k c
  end.

Definition in_bracket (negated : bool) (items : list bracket_item) (c : ascii) : bool :=
  xorb negated (existsb (in_item c) items).

(** The characters of a word, as [\w] has them: the letters, the digits
    and the underscore. *)
Definition word_items : list bracket_item := [BClass alnum; BChar "_"].

Definition is_word (c : option ascii) : bool :=
  match c with
  | Some a => in_bracket false word_items a
  | None => false
  end.

(** Whether offset [pos] of [u] is a place of the kind [k]: what is in
    front of the string and what is behind it is no character of a
    word. *)
Definition word_at (k : word_context) (u : string) (pos : nat) : bool :=
  let before := match pos with O => false | S p => is_word (String.get p u) end in
  let behind := is_word (String.get pos u) in
  match k with
  | word_delim => xorb before behind
  | not_word_delim => negb (xorb before behind)
  | word_first => negb before && behind
  | word_last => before && negb behind
  end.

(** Sub-expression offsets recorded so far, the most recent first. *)
Definition captures := list (nat * (nat * nat)).

(** The end of the whole match and the sub-expressions on the way to it. *)
Definition result := option (nat * captures).

(** Of two ways to match, the one whose whole match ends later; the first
    on a tie. *)
Definition best (a b : result) : result :=
  match a, b with
  | Some (e1, _), Some (e2, _) => if e2 <=? e1 then a else b
  | Some _, None => a
  | None, _ => b
  end.

(** The iterations of a starred expression, [step] matching the body
    once: one more iteration that moves forward, or none.  An iteration
    that matches the empty string is not repeated. *)
Fixpoint star_iter (step : nat -> captures -> (nat -> captures -> result) -> result)
         (k : nat -> captures -> result) (fuel : nat) (pos : nat) (caps : captures)
         {struct fuel} : result :=
  match fuel with
  | O => k pos caps
  | S fuel' =>
      best (step pos caps
              (fun pos' caps' =>
                 if pos' =? pos then None else star_iter step k fuel' pos' caps'))
           (k pos caps)
  end.

Fixpoint lookup (n : nat) (caps : captures) : option (nat * nat) :=
  match caps with
  | [] => None
  | (m, se) :: rest => if m =? n then Some se else lookup n rest
  end.

(** [rmatch r u pos caps k]: match [r] in [u] from offset [pos], then go on
    with [k] from the offset reached.  Every way to match is followed and
    the longest whole match is kept, as POSIX asks.  A back-reference
    matches the characters its group matched last, and nothing when the
    group took no part in the match so far. *)
Fixpoint rmatch (r : regex) (u : string) (pos : nat) (caps : captures)
         (k : nat -> captures -> result) {struct r} : result :=
  match r with
  | Eps => k pos caps
  | Chr c =>
      match String.get pos u with
      | Some a => if Ascii.eqb a c then k (S pos) caps else None
      | None => None
      end
  | Any =>
      match String.get pos u with
      | Some _ => k (S pos) caps
      | None => None
      end
  | Bracket negated items =>
      match String.get pos u with
      | Some a => if in_bracket negated items a then k (S pos) caps else None
      | None => None
      end
  | Bol => if pos =? 0 then k pos caps else None
  | Eol => if pos =? String.length u then k pos caps else None
  | Cat r1 r2 =>
      rmatch r1 u pos caps (fun pos' caps' => rmatch r2 u pos' caps' k)
  | Alt r1 r2 => best (rmatch r1 u pos caps k) (rmatch r2 u pos caps k)
  | Star r1 => star_iter (rmatch r1 u) k (S (String.length u)) pos caps
  | Group n r1 =>
      rmatch r1 u pos caps (fun pos' caps' => k pos' ((n, (pos, pos')) :: caps'))
  | Word c => if word_at c u pos then k pos caps else None
  | Backref n =>
      match lookup n caps with
      | Some (so, eo) =>
          let len := eo - so in
          if (pos + len <=? String.length u)
             && String.eqb (substring so len u) (substring pos len u)
          then k (pos + len) caps else None
      | None => None
      end
  end.

Definition accept : nat -> captures -> result :=
  fun pos caps => Some (pos, caps).

(** The leftmost start offset at which the expression matches. *)
Fixpoint search (r : regex) (u : string) (start : nat) (fuel : nat)
  : option (nat * nat * captures) :=
  match rmatch r u start [] accept with
  | Some (e, caps) => Some (start, e, caps)
  | None =>
      match fuel with
      | O => None
      | S fuel' => search r u (S start) fuel'
      end
  end.

(** [pmatch[i]]: the whole match for 0, sub-expression [i] otherwise, and
    (-1, -1) for a sub-expression that took no part in the match. *)
Definition subexpr (so eo : nat) (caps : captures) (i : nat) : regmatch_t :=
  match i with
  | O => {| rm_so := Z.of_nat so; rm_eo := Z.of_nat eo |}
  | _ => match lookup i caps with
         | Some (s, e) => {| rm_so := Z.of_nat s; rm_eo := Z.of_nat e |}
         | None => {| rm_so := (-1)%Z; rm_eo := (-1)%Z |}
         end
  end.

(** [regexec(preg, str, nmatch, pmatch, 0)]: the status and the array
    [pmatch]. *)
Definition regexec (preg : regex) (str : string) (nmatch : nat)
  : reg_errcode_t * list regmatch_t :=
  match search preg str 0 (String.length str) with
  | Some (so, eo, caps) => (REG_NOERROR, map (subexpr so eo caps) (seq 0 nmatch))
  | None => (REG_NOMATCH, [])
  end.

Definition pmatch_at (pmatch : list regmatch_t) (i : nat) : regmatch_t :=
  nth i pmatch {| rm_so := (-1)%Z; rm_eo := (-1)%Z |}.

(** ** Compilation

    [regcomp(preg, pattern, REG_EXTENDED)] as a recursive-descent parser of
    the POSIX extended syntax: alternation, concatenation, groups, the
    repetition operators [*], [+], [?] and [{m,n}], the anchors, [.],
    backslash escapes and bracket expressions with ranges, character
    classes, collating symbols and equivalence classes, in the C locale.
    Where POSIX leaves the outcome open the parser does what the GNU C
    library does: an unmatched [)] is an ordinary character, a repetition
    operator with nothing to repeat is an error as is one behind an
    anchor, [{,n}] stands for [{0,n}], a hyphen that neither begins nor
    ends a bracket expression nor a range is an error, and a backslash
    in front of [w], [W], [s], [S], [b], [B], [<], [>], a backquote, a
    quote or a digit from 1 to 9 makes the GNU operators and the
    back-references, which refer to a group that is closed.  The status
    of a pattern that does not compile is the one that library returns.
    Storage is not a limit here: no pattern fails for want of memory. *)

Inductive parsed (A : Type) : Type :=
| Ok (a : A)
| Err (e : reg_errcode_t).

Arguments Ok {A} a.
Arguments Err {A} e.

Definition is_char (c : ascii) (s : string) : bool :=
  match s with
  | String d EmptyString => Ascii.eqb c d
  | _ => false
  end.

Definition is_digit (c : ascii) : bool := between 48 57 (nat_of_ascii c).

Definition cat (a b : regex) : regex :=
  match a, b with
  | Eps, _ => b
  | _, Eps => a
  | _, _ => Cat a b
  end.

Fixpoint copies (r : regex) (n : nat) (tail : regex) : regex :=
  match n with
  | O => tail
  | S n' => cat r (copies r n' tail)
  end.

Fixpoint upto (r : regex) (k : nat) : regex :=
  match k with
  | O => Eps
  | S k' => Alt (cat r (upto r k')) Eps
  end.

(** [r{m}], [r{m,}] and [r{m,n}]. *)
Definition bound (r : regex) (m : nat) (n : option (option nat)) : regex :=
  match n with
  | None => copies r m Eps
  | Some None => copies r m (Star r)
  | Some (Some n') => copies r m (upto r (n' - m))
  end.

Definition RE_DUP_MAX : nat := Nat.pow 2 15 - 1.

(** What the parser reads inside the braces of a bound: the end of the
    pattern, the closing brace, an ordinary character, which a backslash
    in front of it leaves ordinary, or an operator. *)
Inductive token : Type :=
| END_OF_RE
| OP_CLOSE_DUP_NUM
| CHARACTER (c : ascii)
| OPERATOR.

(** The characters that make an operator of a backslash. *)
Definition gnu_operator (c : ascii) : bool :=
  between 49 57 (nat_of_ascii c)
  || is_char c "w" || is_char c "W" || is_char c "s" || is_char c "S"
  || is_char c "b" || is_char c "B" || is_char c "<" || is_char c ">"
  || is_char c "`" || is_char c "'".

Definition special (c : ascii) : bool :=
  is_char c "|" || is_char c "*" || is_char c "+" || is_char c "?"
  || is_char c "{" || is_char c "(" || is_char c ")" || is_char c "["
  || is_char c "." || is_char c "^" || is_char c "$".

Definition peek_token (s : list ascii) : token * list ascii :=
  match s with
  | [] => (END_OF_RE, [])
  | c :: r =>
      if is_char c "\" then
        match r with
        | [] => (OPERATOR, [])
        | d :: r' => (if gnu_operator d then OPERATOR else CHARACTER d, r')
        end
      else if is_char c "}" then (OP_CLOSE_DUP_NUM, r)
      else if special c then (OPERATOR, r)
      else (CHARACTER c, r)
  end.

(** A number of a bound: none, one that is not a number, or its value,
    which stops growing behind [RE_DUP_MAX]. *)
Inductive number : Type :=
| no_number
| bad_number
| value_of (n : nat).

(** The number up to the next closing brace or comma, with the token it
    ends at and what follows that token. *)
Fixpoint fetch_number (fuel : nat) (s : list ascii) (num : number)
  : number * token * list ascii :=
  match fuel with
  | O => (bad_number, END_OF_RE, [])
  | S f =>
      match peek_token s with
      | (END_OF_RE, r) => (bad_number, END_OF_RE, r)
      | (OP_CLOSE_DUP_NUM, r) => (num, OP_CLOSE_DUP_NUM, r)
      | (OPERATOR, r) => fetch_number f r bad_number
      | (CHARACTER c, r) =>
          if is_char c "," then (num, CHARACTER c, r)
          else
            fetch_number f r
              (if is_digit c then
                 match num with
                 | no_number => value_of (nat_of_ascii c - 48)
                 | value_of n =>
                     value_of (Nat.min (RE_DUP_MAX + 1) (10 * n + (nat_of_ascii c - 48)))
                 | bad_number => bad_number
                 end
               else bad_number)
      end
  end.

Definition is_comma (t : token) : bool :=
  match t with
  | CHARACTER c => is_char c ","
  | _ => false
  end.

Definition is_close (t : token) : bool :=
  match t with
  | OP_CLOSE_DUP_NUM => true
  | _ => false
  end.

Definition invalid_bound {A : Type} (t : token) : parsed A :=
  match t with
  | END_OF_RE => Err REG_EBRACE
  | _ => Err REG_BADBR
  end.

(** What follows the opening brace of a bound. *)
Definition parse_bound (s : list ascii) : parsed (nat * option (option nat) * list ascii) :=
  let fuel := S (length s) in
  match fetch_number fuel s no_number with
  | (bad_number, t, _) => invalid_bound t
  | (first, t, r) =>
      if negb (is_comma t) && match first with no_number => true | _ => false end
      then Err REG_BADBR
      else
        let m := match first with value_of m => m | _ => 0 end in
        if is_close t then
          if RE_DUP_MAX <? m then Err REG_ESIZE else Ok (m, None, r)
        else
          match fetch_number fuel r no_number with
          | (bad_number, t', _) => invalid_bound t'
          | (no_number, t', r') =>
              if negb (is_close t') then Err REG_BADBR
              else if RE_DUP_MAX <? m then Err REG_ESIZE
              else Ok (m, Some None, r')
          | (value_of n, t', r') =>
              if (n <? m) || negb (is_close t') then Err REG_BADBR
              else if RE_DUP_MAX <? n then Err REG_ESIZE
              else Ok (m, Some (Some n), r')
          end
  end.

Fixpoint parse_dups (fuel : nat) (r : regex) (s : list ascii) : parsed (regex * list ascii) :=
  match fuel with
  | O => Err REG_ESPACE
  | S f =>
      match s with
      | c :: rest =>
          if is_char c "*" then parse_dups f (Star r) rest
          else if is_char c "+" then parse_dups f (Cat r (Star r)) rest
          else if is_char c "?" then parse_dups f (Alt r Eps) rest
          else if is_char c "{" then
            match parse_bound rest with
            | Ok (m, n, rest') => parse_dups f (bound r m n) rest'
            | Err e => Err e
            end
          else Ok (r, s)
      | [] => Ok (r, s)
      end
  end.

Definition class_of_name (name : string) : option cclass :=
  if String.eqb name "alpha" then Some alpha
  else if String.eqb name "digit" then Some digit
  else if String.eqb name "alnum" then Some alnum
  else if String.eqb name "upper" then Some upper
  else if String.eqb name "lower" then Some lower
  else if String.eqb name "space" then Some space
  else if String.eqb name "blank" then Some blank
  else if String.eqb name "punct" then Some punct
  else if String.eqb name "print" then Some print
  else if String.eqb name "graph" then Some graph
  else if String.eqb name "cntrl" then Some cntrl
  else if String.eqb name "xdigit" then Some xdigit
  else None.

(** What the parser reads inside a bracket expression. *)
Inductive bracket_token : Type :=
| bracket_end
| bracket_close
| bracket_hyphen
| bracket_open (delim : ascii)
| bracket_char (c : ascii).

Definition peek_token_bracket (s : list ascii) : bracket_token :=
  match s with
  | [] => bracket_end
  | c :: r =>
      if is_char c "[" then
        match r with
        | d :: _ =>
            if is_char d "." || is_char d "=" || is_char d ":"
            then bracket_open d else bracket_char c
        | [] => bracket_char c
        end
      else if is_char c "]" then bracket_close
      else if is_char c "-" then bracket_hyphen
      else bracket_char c
  end.

(** An element of a bracket expression: a character, a collating symbol
    [[.x.]], an equivalence class [[=x=]] or a character class
    [[:name:]]. *)
Inductive bracket_elem : Type :=
| SB_CHAR (c : ascii)
| COLL_SYM (name : string)
| EQUIV_CLASS (name : string)
| CHAR_CLASS (name : string).

Definition BRACKET_NAME_BUF_SIZE : nat := 32.

(** The name up to the delimiter that a closing bracket follows, and what
    follows that bracket. *)
Fixpoint parse_bracket_symbol (room : nat) (delim : ascii) (s : list ascii)
         (acc : list ascii) : parsed (string * list ascii) :=
  match room with
  | O => Err REG_EBRACK
  | S room' =>
      match s with
      | ch :: (d :: r') as r =>
          if Ascii.eqb ch delim && is_char d "]"
          then Ok (string_of_list_ascii (rev acc), r')
          else parse_bracket_symbol room' delim r (ch :: acc)
      | _ => Err REG_EBRACK
      end
  end.

(** The next element.  [literal] holds where the next character is an
    ordinary one whatever it is, and [accept_hyphen] where a hyphen is. *)
Definition parse_bracket_element (literal accept_hyphen : bool) (s : list ascii)
  : parsed (bracket_elem * list ascii) :=
  match s with
  | [] => Err REG_EBRACK
  | c :: r =>
      if literal then Ok (SB_CHAR c, r)
      else
        match peek_token_bracket s with
        | bracket_open delim =>
            match parse_bracket_symbol BRACKET_NAME_BUF_SIZE delim (tl r) [] with
            | Ok (name, rest) =>
                Ok (if is_char delim "." then COLL_SYM name
                    else if is_char delim "=" then EQUIV_CLASS name
                    else CHAR_CLASS name, rest)
            | Err e => Err e
            end
        | bracket_hyphen =>
            if accept_hyphen then Ok (SB_CHAR c, r)
            else
              match peek_token_bracket r with
              | bracket_close => Ok (SB_CHAR c, r)
              | _ => Err REG_ERANGE
              end
        | _ => Ok (SB_CHAR c, r)
        end
  end.

Definition is_class (e : bracket_elem) : bool :=
  match e with
  | EQUIV_CLASS _ | CHAR_CLASS _ => true
  | _ => false
  end.

(** The character a single-character name stands for. *)
Definition collating (name : string) : option ascii :=
  match name with
  | String c EmptyString => Some c
  | _ => None
  end.

Definition build_element (e : bracket_elem) : parsed bracket_item :=
  match e with
  | SB_CHAR c => Ok (BChar c)
  | COLL_SYM name | EQUIV_CLASS name =>
      match collating name with
      | Some c => Ok (BChar c)
      | None => Err REG_ECOLLATE
      end
  | CHAR_CLASS name =>
      match class_of_name name with
      | Some k => Ok (BClass k)
      | None => Err REG_ECTYPE
      end
  end.

Definition build_range_exp (start_elem end_elem : bracket_elem) : parsed bracket_item :=
  if is_class start_elem || is_class end_elem then Err REG_ERANGE
  else
    let ch e :=
      match e with
      | SB_CHAR c => Some c
      | COLL_SYM name => collating name
      | _ => None
      end in
    match ch start_elem, ch end_elem with
    | Some lo, Some hi =>
        if nat_of_ascii lo <=? nat_of_ascii hi then Ok (BRange lo hi)
        else Err REG_ERANGE
    | _, _ => Err REG_ECOLLATE
    end.

(** The items of a bracket expression up to its closing bracket.  [first]
    holds for the first element and [literal] where the next character is
    an ordinary one: a closing bracket that comes first and a hyphen that
    comes last. *)
Fixpoint parse_items (fuel : nat) (first literal : bool) (s : list ascii)
         (acc : list bracket_item) : parsed (list bracket_item * list ascii) :=
  match fuel with
  | O => Err REG_ESPACE
  | S f =>
      let next (it : parsed bracket_item) (literal' : bool) (s' : list ascii) :=
        match it with
        | Err e => Err e
        | Ok i =>
            match s' with
            | [] => Err REG_EBRACK
            | c :: r =>
                if is_char c "]" && negb literal' then Ok (rev (i :: acc), r)
                else parse_items f false literal' s' (i :: acc)
            end
        end in
      match parse_bracket_element literal first s with
      | Err e => Err e
      | Ok (start_elem, s1) =>
          if is_class start_elem then next (build_element start_elem) false s1
          else
            match s1 with
            | [] => Err REG_EBRACK
            | c :: s2 =>
                if is_char c "-" then
                  match s2 with
                  | [] => Err REG_EBRACK
                  | d :: _ =>
                      if is_char d "]" then next (build_element start_elem) true s1
                      else
                        match parse_bracket_element false true s2 with
                        | Err e => Err e
                        | Ok (end_elem, s3) =>
                            next (build_range_exp start_elem end_elem) false s3
                        end
                  end
                else next (build_element start_elem) false s1
            end
      end
  end.

(** What follows the opening bracket of a bracket expression. *)
Definition parse_bracket (s : list ascii) : parsed (regex * list ascii) :=
  let (negated, s1) :=
    match s with
    | c :: r => if is_char c "^" then (true, r) else (false, s)
    | [] => (false, s)
    end in
  match s1 with
  | [] => Err REG_BADPAT
  | c :: _ =>
      match parse_items (S (length s1)) true (is_char c "]") s1 [] with
      | Ok (items, rest) => Ok (Bracket negated items, rest)
      | Err e => Err e
      end
  end.

(** The groups opened so far and those of the first nine that are closed
    where the parser stands. *)
Record groups : Type := { opened : nat; closed : list nat }.

Definition with_dups (r : regex) (g : groups) (s : list ascii)
  : parsed (regex * groups * list ascii) :=
  match parse_dups (S (length s)) r s with
  | Ok (r', s') => Ok (r', g, s')
  | Err e => Err e
  end.

(** What a backslash and the character [d] stand for, and whether a
    repetition operator may follow. *)
Definition escape (d : ascii) (g : groups) : parsed (regex * bool) :=
  if between 49 57 (nat_of_ascii d) then
    let n := nat_of_ascii d - 48 in
    if existsb (Nat.eqb n) (closed g) then Ok (Backref n, true) else Err REG_ESUBREG
  else if is_char d "w" then Ok (Bracket false word_items, true)
  else if is_char d "W" then Ok (Bracket true word_items, true)
  else if is_char d "s" then Ok (Bracket false [BClass space], true)
  else if is_char d "S" then Ok (Bracket true [BClass space], true)
  else if is_char d "b" then Ok (Word word_delim, false)
  else if is_char d "B" then Ok (Word not_word_delim, false)
  else if is_char d "<" then Ok (Word word_first, false)
  else if is_char d ">" then Ok (Word word_last, false)
  else if is_char d "`" then Ok (Bol, false)
  else if is_char d "'" then Ok (Eol, false)
  else Ok (Chr d, true).

(** [depth] counts the groups that are open: a group is numbered by its
    opening parenthesis.  Each branch of an alternation begins with the
    groups that were closed in front of the alternation. *)
Fixpoint parse_alt (fuel depth : nat) (g : groups) (s : list ascii) {struct fuel}
  : parsed (regex * groups * list ascii) :=
  match fuel with
  | O => Err REG_ESPACE
  | S f =>
      match parse_seq f depth g s with
      | Err e => Err e
      | Ok (r1, g1, s1) =>
          match s1 with
          | c :: s2 =>
              if is_char c "|" then
                match parse_alt f depth {| opened := opened g1; closed := closed g |} s2 with
                | Ok (r2, g2, s3) =>
                    Ok (Alt r1 r2,
                        {| opened := opened g2; closed := closed g2 ++ closed g1 |}, s3)
                | Err e => Err e
                end
              else Ok (r1, g1, s1)
          | [] => Ok (r1, g1, s1)
          end
      end
  end
with parse_seq (fuel depth : nat) (g : groups) (s : list ascii) {struct fuel}
  : parsed (regex * groups * list ascii) :=
  match fuel with
  | O => Err REG_ESPACE
  | S f =>
      match s with
      | [] => Ok (Eps, g, s)
      | c :: _ =>
          if is_char c "|" || (is_char c ")" && (0 <? depth)) then Ok (Eps, g, s)
          else
            match parse_atom f depth g s with
            | Err e => Err e
            | Ok (a, g1, s1) =>
                match parse_seq f depth g1 s1 with
                | Err e => Err e
                | Ok (r, g2, s2) => Ok (cat a r, g2, s2)
                end
            end
      end
  end
with parse_atom (fuel depth : nat) (g : groups) (s : list ascii) {struct fuel}
  : parsed (regex * groups * list ascii) :=
  match fuel with
  | O => Err REG_ESPACE
  | S f =>
      match s with
      | [] => Ok (Eps, g, s)
      | c :: s1 =>
          if is_char c "(" then
            let n := S (opened g) in
            match parse_alt f (S depth) {| opened := n; closed := closed g |} s1 with
            | Err e => Err e
            | Ok (r, g1, s2) =>
                match s2 with
                | d :: s3 =>
                    if is_char d ")" then
                      with_dups (Group n r)
                        {| opened := opened g1;
                           closed := if n <=? 9 then n :: closed g1 else closed g1 |} s3
                    else Err REG_EPAREN
                | [] => Err REG_EPAREN
                end
            end
          else if is_char c "[" then
            match parse_bracket s1 with
            | Ok (b, s2) => with_dups b g s2
            | Err e => Err e
            end
          else if is_char c "." then with_dups Any g s1
          else if is_char c "^" then Ok (Bol, g, s1)
          else if is_char c "$" then Ok (Eol, g, s1)
          else if is_char c "\" then
            match s1 with
            | d :: s2 =>
                match escape d g with
                | Ok (r, true) => with_dups r g s2
                | Ok (r, false) => Ok (r, g, s2)
                | Err e => Err e
                end
            | [] => Err REG_EESCAPE
            end
          else if is_char c "*" || is_char c "+" || is_char c "?" || is_char c "{" then Err REG_BADRPT
          else with_dups (Chr c) g s1
      end
  end.

(** [regcomp(preg, pattern, REG_EXTENDED)]: the status and, on success,
    the compiled expression. *)
Definition regcomp (pattern : string) : reg_errcode_t * option regex :=
  let s := list_ascii_of_string pattern in
  match parse_alt (4 * length s + 4) 0 {| opened := 0; closed := [] |} s with
  | Ok (r, _, []) => (REG_NOERROR, Some r)
  | Ok (_, _, _ :: _) => (REG_BADPAT, None)
  | Err e => (e, None)
  end.

End Regex.

(* ================================================================== *)
(** * The broker API *)
(* ================================================================== *)

Module Mosquitto.

Import Libc.

Inductive mosq_err_t : Type :=
| MOSQ_ERR_SUCCESS
| MOSQ_ERR_NOMEM
| MOSQ_ERR_ALREADY_EXISTS.

Inductive mosquitto_plugin_event : Type :=
| MOSQ_EVT_CONNECT
| MOSQ_EVT_MESSAGE_IN
| MOSQ_EVT_MESSAGE_OUT
| MOSQ_EVT_SUBSCRIBE
| MOSQ_EVT_UNSUBSCRIBE.

(** The functions of the plugin, as values that can be registered. *)
Inductive cb_func : Type :=
| cb_connect_callback
| cb_callback_message_in
| cb_callback_message_out
| cb_callback_subscribe
| cb_callback_unsubscribe.

(** [struct mosquitto]: what the plugin reads of a client, with the
    accessors' names.  The username is absent ([NULL]) for a client that
    gave none. *)
Record mosquitto : Type := {
  mosquitto_client_username : option string;
  mosquitto_client_id : string
}.

Record mosquitto_opt : Type := { key : string; value : string }.

(** The broker as the plugin sees it: what the allocator will answer to
    the next requests ([None]: the request is refused; [Some bytes]: it is
    granted and the block holds [bytes], with any bytes past the size asked
    for being spare room of the block; a request past the end of the list
    is refused), and the callbacks registered so far. *)
Record world : Type := {
  grants : list (option block);
  callbacks : list (mosquitto_plugin_event * cb_func)
}.

(** A computation either ends normally with a value and a world, or runs
    into behaviour the C standard leaves undefined. *)
Inductive outcome (A : Type) : Type :=
| Normal (a : A) (w : world)
| Undefined.

Arguments Normal {A} a w.
Arguments Undefined {A}.

Definition M (A : Type) : Type := world -> outcome A.

Definition ret {A : Type} (a : A) : M A := fun w => Normal a w.

Definition bind {A B : Type} (c : M A) (k : A -> M B) : M B :=
  fun w => match c w with
           | Normal a w' => k a w'
           | Undefined => Undefined
           end.

Definition undefined {A : Type} : M A := fun _ => Undefined.

(** An access that is valid ([Some]) or not ([None]): through a null
    pointer, outside a block, with an expression that was not compiled. *)
Definition defined {A : Type} (x : option A) : M A :=
  match x with
  | Some a => ret a
  | None => undefined
  end.

Notation "x <- c ;; k" := (bind c (fun x => k))
  (at level 61, c at next level, right associativity).
Notation "' p <- c ;; k" := (bind c (fun x => let 'p := x in k))
  (at level 61, p pattern, c at next level, right associativity).
Notation "c ;;; k" := (bind c (fun _ => k))
  (at level 61, right associativity).

(** The allocator's answer to the next request. *)
Definition allocate : M (option block) :=
  fun w => match grants w with
           | [] => Normal None w
           | g :: rest => Normal g {| grants := rest; callbacks := callbacks w |}
           end.

(** [mosquitto_malloc(size)]: a block of at least [size] bytes with
    indeterminate contents, or [NULL]. *)
Definition mosquitto_malloc (size : nat) : M (option block) :=
  g <- allocate ;;
  ret (option_map (fun bytes => bytes ++ repeat NUL (size - length bytes)) g).

(** [mosquitto_calloc(nmemb, size)]: a zeroed block, or [NULL]. *)
Definition mosquitto_calloc (nmemb size : nat) : M (option block) :=
  g <- allocate ;;
  ret (option_map (fun _ => repeat NUL (nmemb * size)) g).

(** [mosquitto_strdup(s)]: a copy of the string, or [NULL]. *)
Definition mosquitto_strdup (s : string) : M (option string) :=
  g <- allocate ;;
  ret (option_map (fun _ => s) g).

Definition mosquitto_free : M unit := ret tt.

(** [mosquitto_set_clientid(client, clientid)]; the plugin drops its
    status. *)
Definition mosquitto_set_clientid (client : mosquitto) (clientid : string) : mosquitto :=
  {| mosquitto_client_username := mosquitto_client_username client;
     mosquitto_client_id := clientid |}.

Definition event_eqb (a b : mosquitto_plugin_event) : bool :=
  match a, b with
  | MOSQ_EVT_CONNECT, MOSQ_EVT_CONNECT
  | MOSQ_EVT_MESSAGE_IN, MOSQ_EVT_MESSAGE_IN
  | MOSQ_EVT_MESSAGE_OUT, MOSQ_EVT_MESSAGE_OUT
  | MOSQ_EVT_SUBSCRIBE, MOSQ_EVT_SUBSCRIBE
  | MOSQ_EVT_UNSUBSCRIBE, MOSQ_EVT_UNSUBSCRIBE => true
  | _, _ => false
  end.

Definition cb_eqb (a b : cb_func) : bool :=
  match a, b with
  | cb_connect_callback, cb_connect_callback
  | cb_callback_message_in, cb_callback_message_in
  | cb_callback_message_out, cb_callback_message_out
  | cb_callback_subscribe, cb_callback_subscribe
  | cb_callback_unsubscribe, cb_callback_unsubscribe => true
  | _, _ => false
  end.

(** [mosquitto_callback_register(identifier, event, cb_func, NULL, NULL)]:
    refused when the function is already registered for the event or when
    the broker cannot allocate the entry. *)
Definition mosquitto_callback_register (event : mosquitto_plugin_event) (f : cb_func)
  : M mosq_err_t :=
  fun w =>
    if existsb (fun e => event_eqb (fst e) event && cb_eqb (snd e) f) (callbacks w)
    then Normal MOSQ_ERR_ALREADY_EXISTS w
    else match allocate w with
         | Normal (Some _) w' =>
             Normal MOSQ_ERR_SUCCESS
                    {| grants := grants w'; callbacks := callbacks w' ++ [(event, f)] |}
         | Normal None w' => Normal MOSQ_ERR_NOMEM w'
         | Undefined => Undefined
         end.

End Mosquitto.

(* ================================================================== *)
(** * The plugin *)
(* ================================================================== *)

Import Libc Regex Mosquitto.

(** [regex_t]: [None] for an object that no successful [regcomp] filled. *)
Definition regex_t : Type := option regex.

(** The file-scope variables [username_match] and [shared_sub_match]. *)
Record plugin : Type := {
  username_match : regex_t;
  shared_sub_match : regex_t
}.

(** [struct mosquitto_evt_message], [struct mosquitto_evt_subscribe] and
    [struct mosquitto_evt_unsubscribe], with the fields the plugin uses. *)
Record mosquitto_evt_message : Type := {
  msg_client : mosquitto;
  topic : string
}.

Record mosquitto_evt_subscribe : Type := {
  sub_client : mosquitto;
  sub_topic_filter : string
}.

Record mosquitto_evt_unsubscribe : Type := {
  unsub_client : mosquitto;
  unsub_topic_filter : string
}.

(** [regexec(&preg, str, nmatch, pmatch, 0)] on a file-scope [regex_t]. *)
Definition regexec_on (preg : regex_t) (str : string) (nmatch : nat)
  : M (reg_errcode_t * list regmatch_t) :=
  r <- defined preg ;;
  ret (regexec r str nmatch).

Definition matched (result : reg_errcode_t) : bool :=
  match result with
  | REG_NOERROR => true
  | _ => false
  end.

(** [(size_t)(pmatch[i].rm_eo - pmatch[i].rm_so)]. *)
Definition extent (pmatch : list regmatch_t) (i : nat) : nat :=
  Z.to_nat (rm_eo (pmatch_at pmatch i) - rm_so (pmatch_at pmatch i)).

(** [str + pmatch[i].rm_so]. *)
Definition from (str : string) (pmatch : list regmatch_t) (i : nat) : string :=
  advance str (Z.to_nat (rm_so (pmatch_at pmatch i))).

Definition get_team (g : plugin) (str : string) : M (option string) :=
  '(result, pmatch) <- regexec_on (username_match g) str 2 ;;
  if matched result then
    let size := extent pmatch 1 in
    team <- mosquitto_malloc (size + 1) ;;
    team <- defined team ;;
    team <- defined (strncpy team (from str pmatch 1) size) ;;
    team <- defined (store team size NUL) ;;
    team <- defined (cstr team) ;;
    ret (Some team)
  else
    ret None.

(** The source reads the client of the connect event through the layout of
    the message event; only the client is used. *)
Definition connect_callback (g : plugin) (client : mosquitto)
  : M (mosq_err_t * mosquitto) :=
  match mosquitto_client_username client with
  | None => ret (MOSQ_ERR_SUCCESS, client)
  | Some username =>
      let id := mosquitto_client_id client in
      let idlen := strlen id in
      team <- get_team g username ;;
      match team with
      | None => ret (MOSQ_ERR_SUCCESS, client)
      | Some team =>
          let new_id_len := strlen team + sizeof_char_constant + idlen + 1 in
          new_id <- mosquitto_calloc 1 new_id_len ;;
          match new_id with
          | None => ret (MOSQ_ERR_NOMEM, client)
          | Some _ =>
              let new_id := snprintf new_id_len (id ++ "@" ++ team)%string in
              mosquitto_free ;;;
              ret (MOSQ_ERR_SUCCESS, mosquitto_set_clientid client new_id)
          end
      end
  end.

Definition callback_message_in (g : plugin) (ed : mosquitto_evt_message)
  : M (mosq_err_t * mosquitto_evt_message) :=
  match mosquitto_client_username (msg_client ed) with
  | None => ret (MOSQ_ERR_SUCCESS, ed)
  | Some username =>
      team <- get_team g username ;;
      match team with
      | None => ret (MOSQ_ERR_SUCCESS, ed)
      | Some team =>
          let new_topic_len :=
            strlen team + sizeof_char_constant + strlen (topic ed) + 1 in
          new_topic <- mosquitto_calloc 1 new_topic_len ;;
          match new_topic with
          | None => ret (MOSQ_ERR_NOMEM, ed)
          | Some _ =>
              let new_topic := snprintf new_topic_len (team ++ "/" ++ topic ed)%string in
              mosquitto_free ;;;
              ret (MOSQ_ERR_SUCCESS,
                   {| msg_client := msg_client ed; topic := new_topic |})
          end
      end
  end.

Definition callback_message_out (g : plugin) (ed : mosquitto_evt_message)
  : M (mosq_err_t * mosquitto_evt_message) :=
  match mosquitto_client_username (msg_client ed) with
  | None => ret (MOSQ_ERR_SUCCESS, ed)
  | Some username =>
      team <- get_team g username ;;
      match team with
      | None => ret (MOSQ_ERR_SUCCESS, ed)
      | Some team =>
          let team_len := strlen team in
          if strlen (topic ed) <=? team_len + 1 then
            ret (MOSQ_ERR_SUCCESS, ed)
          else if (strncmp team (topic ed) team_len =? 0)%Z
                  && Ascii.eqb (char_at (topic ed) team_len) "/" then
            new_topic <- mosquitto_strdup (advance (topic ed) (team_len + 1)) ;;
            match new_topic with
            | None => ret (MOSQ_ERR_NOMEM, ed)
            | Some new_topic =>
                mosquitto_free ;;;
                ret (MOSQ_ERR_SUCCESS,
                     {| msg_client := msg_client ed; topic := new_topic |})
            end
          else
            mosquitto_free ;;;
            ret (MOSQ_ERR_SUCCESS, ed)
      end
  end.

(** The rewriting of a filter, the text of which is the same in
    [callback_subscribe] and [callback_unsubscribe] up to the type of the
    event; each of the two functions below is nevertheless written out
    from its own source text. *)
Definition callback_subscribe (g : plugin) (ed : mosquitto_evt_subscribe)
  : M (mosq_err_t * mosquitto_evt_subscribe) :=
  match mosquitto_client_username (sub_client ed) with
  | None => ret (MOSQ_ERR_SUCCESS, ed)
  | Some username =>
      team <- get_team g username ;;
      match team with
      | None => ret (MOSQ_ERR_SUCCESS, ed)
      | Some team =>
          if (strncmp (sub_topic_filter ed) "$share/" 7 =? 0)%Z then
            let new_sub_len :=
              strlen team + sizeof_char_constant * 2
              + strlen (sub_topic_filter ed) + 1 in
            new_sub <- mosquitto_calloc 1 new_sub_len ;;
            match new_sub with
            | None => ret (MOSQ_ERR_NOMEM, ed)
            | Some _ =>
                '(rc, pmatch) <- regexec_on (shared_sub_match g) (sub_topic_filter ed) 3 ;;
                if matched rc then
                  let group_size := extent pmatch 1 in
                  let topic_size := extent pmatch 2 in
                  share_group <- mosquitto_malloc (group_size + 1) ;;
                  topic <- mosquitto_malloc (topic_size + 1) ;;
                  share_group <- defined share_group ;;
                  share_group <- defined (strncpy share_group (from (sub_topic_filter ed) pmatch 1) group_size) ;;
                  share_group <- defined (store share_group group_size NUL) ;;
                  topic <- defined topic ;;
                  topic <- defined (strncpy topic (from (sub_topic_filter ed) pmatch 2) topic_size) ;;
                  topic <- defined (store topic (topic_size + 1) NUL) ;;
                  share_group <- defined (cstr share_group) ;;
                  topic <- defined (cstr topic) ;;
                  let new_sub := snprintf new_sub_len (share_group ++ "/" ++ team ++ "/" ++ topic)%string in
                  mosquitto_free ;;;
                  mosquitto_free ;;;
                  mosquitto_free ;;;
                  ret (MOSQ_ERR_SUCCESS,
                       {| sub_client := sub_client ed; sub_topic_filter := new_sub |})
                else
                  ret (MOSQ_ERR_NOMEM, ed)
            end
          else
            let new_sub_len :=
              strlen team + sizeof_char_constant + strlen (sub_topic_filter ed) + 1 in
            new_sub <- mosquitto_calloc 1 new_sub_len ;;
            match new_sub with
            | None => ret (MOSQ_ERR_NOMEM, ed)
            | Some _ =>
                let new_sub := snprintf new_sub_len (team ++ "/" ++ sub_topic_filter ed)%string in
                mosquitto_free ;;;
                ret (MOSQ_ERR_SUCCESS,
                     {| sub_client := sub_client ed; sub_topic_filter := new_sub |})
            end
      end
  end.

Definition callback_unsubscribe (g : plugin) (ed : mosquitto_evt_unsubscribe)
  : M (mosq_err_t * mosquitto_evt_unsubscribe) :=
  match mosquitto_client_username (unsub_client ed) with
  | None => ret (MOSQ_ERR_SUCCESS, ed)
  | Some username =>
      team <- get_team g username ;;
      match team with
      | None => ret (MOSQ_ERR_SUCCESS, ed)
      | Some team =>
          if (strncmp (unsub_topic_filter ed) "$share/" 7 =? 0)%Z then
            let new_sub_len :=
              strlen team + sizeof_char_constant * 2
              + strlen (unsub_topic_filter ed) + 1 in
            new_sub <- mosquitto_calloc 1 new_sub_len ;;
            match new_sub with
            | None => ret (MOSQ_ERR_NOMEM, ed)
            | Some _ =>
                '(rc, pmatch) <- regexec_on (shared_sub_match g) (unsub_topic_filter ed) 3 ;;
                if matched rc then
                  let group_size := extent pmatch 1 in
                  let topic_size := extent pmatch 2 in
                  share_group <- mosquitto_malloc (group_size + 1) ;;
                  topic <- mosquitto_malloc (topic_size + 1) ;;
                  share_group <- defined share_group ;;
                  share_group <- defined (strncpy share_group (from (unsub_topic_filter ed) pmatch 1) group_size) ;;
                  share_group <- defined (store share_group group_size NUL) ;;
                  topic <- defined topic ;;
                  topic <- defined (strncpy topic (from (unsub_topic_filter ed) pmatch 2) topic_size) ;;
                  topic <- defined (store topic (topic_size + 1) NUL) ;;
                  share_group <- defined (cstr share_group) ;;
                  topic <- defined (cstr topic) ;;
                  let new_sub := snprintf new_sub_len (share_group ++ "/" ++ team ++ "/" ++ topic)%string in
                  mosquitto_free ;;;
                  mosquitto_free ;;;
                  mosquitto_free ;;;
                  ret (MOSQ_ERR_SUCCESS,
                       {| unsub_client := unsub_client ed; unsub_topic_filter := new_sub |})
                else
                  ret (MOSQ_ERR_NOMEM, ed)
            end
          else
            let new_sub_len :=
              strlen team + sizeof_char_constant + strlen (unsub_topic_filter ed) + 1 in
            new_sub <- mosquitto_calloc 1 new_sub_len ;;
            match new_sub with
            | None => ret (MOSQ_ERR_NOMEM, ed)
            | Some _ =>
                let new_sub := snprintf new_sub_len (team ++ "/" ++ unsub_topic_filter ed)%string in
                mosquitto_free ;;;
                ret (MOSQ_ERR_SUCCESS,
                     {| unsub_client := unsub_client ed; unsub_topic_filter := new_sub |})
            end
      end
  end.

(** The loop of [mosquitto_plugin_init] over the options: each option
    whose key is [regex], whatever the case of its letters, is compiled
    into [username_match]; the status of [regcomp] is dropped. *)
Fixpoint find_regex (opts : list mosquitto_opt) (um : regex_t) (found : bool)
  : regex_t * bool :=
  match opts with
  | [] => (um, found)
  | o :: rest =>
      if (strcasecmp (key o) "regex" =? 0)%Z
      then find_regex rest (snd (regcomp (value o))) true
      else find_regex rest um found
  end.

Definition succeeded (rc : mosq_err_t) : bool :=
  match rc with
  | MOSQ_ERR_SUCCESS => true
  | _ => false
  end.

(** [mosquitto_plugin_init]: the status and the file-scope variables as it
    leaves them.  Both start out as objects no [regcomp] has filled. *)
Definition mosquitto_plugin_init (opts : list mosquitto_opt) : M (mosq_err_t * plugin) :=
  let (um, found) := find_regex opts None false in
  let um := if negb found then snd (regcomp "^[a-z0-9]+@([a-z0-9]+)$") else um in
  let g := {| username_match := um;
              shared_sub_match := snd (regcomp "^(\$share/[^/]+)/(.+)$") |} in
  rc <- mosquitto_callback_register MOSQ_EVT_CONNECT cb_connect_callback ;;
  if negb (succeeded rc) then ret (rc, g) else
  rc <- mosquitto_callback_register MOSQ_EVT_MESSAGE_IN cb_callback_message_in ;;
  if negb (succeeded rc) then ret (rc, g) else
  rc <- mosquitto_callback_register MOSQ_EVT_MESSAGE_OUT cb_callback_message_out ;;
  if negb (succeeded rc) then ret (rc, g) else
  rc <- mosquitto_callback_register MOSQ_EVT_SUBSCRIBE cb_callback_subscribe ;;
  if negb (succeeded rc) then ret (rc, g) else
  rc <- mosquitto_callback_register MOSQ_EVT_UNSUBSCRIBE cb_callback_unsubscribe ;;
  ret (rc, g).


(* ================================================================== *)
(** * Vocabulary of the statements *)
(* ================================================================== *)

(** No character of the string is the terminator. *)
Fixpoint nonul (s : string) : Prop :=
  match s with
  | EmptyString => True
  | String c r => c <> NUL /\ nonul r
  end.

(** What reads back as a C string from the first [n] bytes [strncpy] took
    from [src], once a terminator follows them. *)
Fixpoint upto_nul (src : string) (n : nat) {struct n} : string :=
  match n with
  | O => EmptyString
  | S n' =>
      match src with
      | EmptyString => EmptyString
      | String c r => if Ascii.eqb c NUL then EmptyString else String c (upto_nul r n')
      end
  end.

(** The number of leading characters of [s] that satisfy [p]. *)
Fixpoint span (p : ascii -> bool) (s : string) : nat :=
  match s with
  | EmptyString => O
  | String a r => if p a then S (span p r) else O
  end.

(** The next [n] requests to the allocator are granted. *)
Fixpoint granted (n : nat) (h : list (option block)) : Prop :=
  match n with
  | O => True
  | S n' =>
      match h with
      | Some _ :: rest => granted n' rest
      | _ => False
      end
  end.

(** The world once the next [n] requests have been answered. *)
Definition after (n : nat) (w : world) : world :=
  {| grants := skipn n (grants w); callbacks := callbacks w |}.

(** The expressions [mosquitto_plugin_init] compiles when no option names
    another one. *)
Definition default_pattern : string := "^[a-z0-9]+@([a-z0-9]+)$".

Definition shared_pattern : string := "^(\$share/[^/]+)/(.+)$".

(** The file-scope variables as [mosquitto_plugin_init] leaves them. *)
Definition configured (opts : list mosquitto_opt) : plugin :=
  let (um, found) := find_regex opts None false in
  {| username_match := if negb found then snd (regcomp default_pattern) else um;
     shared_sub_match := snd (regcomp shared_pattern) |}.

Definition all_callbacks : list (mosquitto_plugin_event * cb_func) :=
  [ (MOSQ_EVT_CONNECT, cb_connect_callback);
    (MOSQ_EVT_MESSAGE_IN, cb_callback_message_in);
    (MOSQ_EVT_MESSAGE_OUT, cb_callback_message_out);
    (MOSQ_EVT_SUBSCRIBE, cb_callback_subscribe);
    (MOSQ_EVT_UNSUBSCRIBE, cb_callback_unsubscribe) ].

(** ** The two expressions, read by hand *)

(** A literal in front of an expression. *)
Fixpoint lit (l : string) (r : regex) : regex :=
  match l with
  | EmptyString => r
  | String c l' => Cat (Chr c) (lit l' r)
  end.

(** [s] begins with [l]. *)
Fixpoint begins (l s : string) : bool :=
  match l with
  | EmptyString => true
  | String c l' =>
      match s with
      | EmptyString => false
      | String d s' => Ascii.eqb d c && begins l' s'
      end
  end.

(** The characters of [[a-z0-9]] and of [[^/]]. *)
Definition tenant_char (c : ascii) : bool :=
  in_bracket false [BRange "a" "z"; BRange "0" "9"] c.

Definition group_char (c : ascii) : bool :=
  in_bracket true [BChar "/"] c.

Definition any_char (c : ascii) : bool := true.

(** The two expressions as [regcomp] compiles them. *)
Definition tenant_class : regex := Bracket false [BRange "a" "z"; BRange "0" "9"].

Definition default_regex : regex :=
  Cat Bol
    (Cat (Cat tenant_class (Star tenant_class))
       (Cat (Chr "@")
          (Cat (Group 1 (Cat tenant_class (Star tenant_class))) Eol))).

Definition group_class : regex := Bracket true [BChar "/"].

Definition shared_regex : regex :=
  Cat Bol
    (Cat (Group 1 (lit "$share/" (Cat group_class (Star group_class))))
       (Cat (Chr "/")
          (Cat (Group 2 (Cat Any (Star Any))) Eol))).

(** An expression that matches exactly one character, those of [p]. *)
Definition one (p : ascii -> bool) (r : regex) : Prop :=
  forall u pos caps k,
    rmatch r u pos caps k =
    match String.get pos u with
    | Some a => if p a then k (S pos) caps else None
    | None => None
    end.

(** Sub-expressions that lie inside the string. *)
Definition within (u : string) (caps : captures) : Prop :=
  Forall (fun c => fst (snd c) <= snd (snd c) <= String.length u) caps.

(** What a match hands to its continuation: an offset inside the string,
    not in front of the one it started from, and sub-expressions that lie
    inside the string. *)
Definition sound_step (u : string)
           (step : nat -> captures -> (nat -> captures -> result) -> result) : Prop :=
  forall pos caps k res,
    pos <= String.length u -> within u caps ->
    step pos caps k = Some res ->
    exists pos' caps',
      pos <= pos' <= String.length u /\ within u caps' /\ k pos' caps' = Some res.

(** A username the default expression matches: one or more characters of
    the class, an at sign, one or more characters of the class, and the
    end.  The result is the offset at which sub-expression 1 begins. *)
Definition default_form (u : string) : option nat :=
  let a := span tenant_char u in
  if (0 <? a) && Ascii.eqb (char_at u a) "@" then
    let b := span tenant_char (advance u (a + 1)) in
    if (0 <? b) && (a + 1 + b =? String.length u) then Some (a + 1) else None
  else None.

(** A filter the expression for shared subscriptions matches: the marker,
    one or more characters other than a slash, a slash, and one or more
    characters.  The result is the offset at which sub-expression 1
    ends. *)
Definition shared_form (F : string) : option nat :=
  if begins "$share/" F then
    let n := span group_char (advance F 7) in
    if (0 <? n) && Ascii.eqb (char_at F (7 + n)) "/" && (7 + n + 1 <? String.length F)
    then Some (7 + n) else None
  else None.

(** ** Concrete clients and worlds *)

Definition default_plugin : plugin :=
  {| username_match := Some default_regex; shared_sub_match := Some shared_regex |}.

(** A client of team [bar], one of team [acme], a client whose username
    names no team, and a client without a username. *)
Definition team_client : mosquitto :=
  {| mosquitto_client_username := Some "foo@bar"; mosquitto_client_id := "client1" |}.

Definition plain_client : mosquitto :=
  {| mosquitto_client_username := Some "no-at-sign"; mosquitto_client_id := "client2" |}.

Definition acme_client : mosquitto :=
  {| mosquitto_client_username := Some "alice@acme"; mosquitto_client_id := "client1" |}.

Definition anonymous_client : mosquitto :=
  {| mosquitto_client_username := None; mosquitto_client_id := "client3" |}.

(** A broker that grants the next [n] requests with zeroed blocks of the
    size asked for: before the plugin is loaded, and once it is. *)
Definition fresh (n : nat) : world :=
  {| grants := repeat (Some []) n; callbacks := [] |}.

Definition running (n : nat) : world :=
  {| grants := repeat (Some []) n; callbacks := all_callbacks |}.

(** The byte left in front of a misplaced terminator, as it shows in a
    string: nothing if it is 0. *)
Definition stray (c : ascii) : string :=
  if Ascii.eqb c NUL then EmptyString else String c EmptyString.

(** What a caller sees of the outcome of the two subscription callbacks:
    the status, the client and the filter. *)
Definition observe_subscribe (o : outcome (mosq_err_t * mosquitto_evt_subscribe))
  : outcome (mosq_err_t * mosquitto * string) :=
  match o with
  | Normal (rc, ed) w => Normal (rc, sub_client ed, sub_topic_filter ed) w
  | Undefined => Undefined
  end.

Definition observe_unsubscribe (o : outcome (mosq_err_t * mosquitto_evt_unsubscribe))
  : outcome (mosq_err_t * mosquitto * string) :=
  match o with
  | Normal (rc, ed) w => Normal (rc, unsub_client ed, unsub_topic_filter ed) w
  | Undefined => Undefined
  end.

(** ** Strings over a class of characters *)

(** Every character of [s] satisfies [p]. *)
Definition made_of (p : ascii -> bool) (s : string) : Prop :=
  span p s = String.length s.

(** A broker that grants four requests, the last one with a block that
    holds [bytes]. *)
Definition roomy_world (bytes : block) : world :=
  {| grants := [Some []; Some []; Some []; Some bytes]; callbacks := all_callbacks |}.

(** A broker that grants eight requests, those of two calls of a
    subscription callback for a shared filter one after the other: the
    block of the inner filter holds [bytes1] in the first call and
    [bytes2] in the second. *)
Definition two_calls_world (bytes1 bytes2 : block) : world :=
  {| grants := [Some []; Some []; Some []; Some bytes1;
                Some []; Some []; Some []; Some bytes2];
     callbacks := all_callbacks |}.

(** ** Registrations in a row *)

(** The callbacks of [l] are registered one after the other, each with
    success, which takes the world [w] to the world [wj]. *)
Fixpoint registers (l : list (mosquitto_plugin_event * cb_func)) (w wj : world) : Prop :=
  match l with
  | [] => wj = w
  | (event, f) :: rest =>
      exists w1,
        mosquitto_callback_register event f w = Normal MOSQ_ERR_SUCCESS w1 /\
        registers rest w1 wj
  end.

(* ================================================================== *)
(** * Facts about the C library *)
(* ================================================================== *)

Section LibcFacts.

Lemma length_copy_bytes (src : string) (n : nat) :
  length (copy_bytes src n) = n.
Proof.
  revert src; induction n as [|n IH]; intros src; simpl; [reflexivity|].
  destruct src; simpl; now rewrite IH.
Qed.

Lemma cstr_copy_bytes (src : string) (n : nat) (rest : block) :
  cstr (copy_bytes src n ++ NUL :: rest) = Some (upto_nul src n).
Proof.
  revert src; induction n as [|n IH]; intros src; simpl; [reflexivity|].
  destruct src as [|c r]; simpl; [reflexivity|].
  destruct (Ascii.eqb c NUL); [reflexivity|].
  now rewrite IH.
Qed.

Lemma nonul_upto_nul (src : string) (n : nat) : nonul (upto_nul src n).
Proof.
  revert src; induction n as [|n IH]; intros src; simpl; [exact I|].
  destruct src as [|c r]; simpl; [exact I|].
  destruct (Ascii.eqb c NUL) eqn:E; simpl; [exact I|].
  split; [|apply IH].
  intros ->. now rewrite Ascii.eqb_refl in E.
Qed.

(** Copying [n] characters into a block with room for them and a
    terminator, and writing the terminator behind them, leaves a C string
    that does not depend on what the block held. *)
Lemma terminated_copy (b : block) (src : string) (n : nat) :
  n < length b ->
  exists b1 b2,
    strncpy b src n = Some b1 /\ store b1 n NUL = Some b2 /\
    cstr b2 = Some (upto_nul src n).
Proof.
  intros Hn.
  exists (copy_bytes src n ++ skipn n b).
  exists (copy_bytes src n ++ NUL :: skipn (S n) (copy_bytes src n ++ skipn n b)).
  assert (Hle : (n <=? length b) = true) by (apply Nat.leb_le; lia).
  split; [unfold strncpy; now rewrite Hle|].
  split; [|apply cstr_copy_bytes].
  unfold store.
  assert (Hlen : length (copy_bytes src n ++ skipn n b) = length b).
  { rewrite length_app, length_copy_bytes, length_skipn. lia. }
  rewrite Hlen.
  assert (Hlt : (n <? length b) = true) by (apply Nat.ltb_lt; lia).
  rewrite Hlt. f_equal. f_equal.
  rewrite firstn_app, length_copy_bytes, Nat.sub_diag. simpl.
  rewrite app_nil_r. apply firstn_all2. rewrite length_copy_bytes. lia.
Qed.

Lemma malloc_block_length (bytes : block) (size : nat) :
  size <= length (bytes ++ repeat NUL (size - length bytes)).
Proof. rewrite length_app, repeat_length. lia. Qed.

End LibcFacts.

Section StringFacts.

Lemma length_append (s t : string) :
  String.length (s ++ t)%string = String.length s + String.length t.
Proof. induction s as [|c s IH]; simpl; [reflexivity | now rewrite IH]. Qed.

Lemma substring_all (s : string) (n : nat) :
  String.length s <= n -> String.substring 0 n s = s.
Proof.
  revert n; induction s as [|c s IH]; intros n Hn; simpl.
  - now destruct n.
  - destruct n as [|n]; simpl in Hn; [lia|].
    simpl. rewrite IH by lia. reflexivity.
Qed.

Lemma advance_append (s t : string) : advance (s ++ t)%string (String.length s) = t.
Proof. induction s as [|c s IH]; simpl; [reflexivity | exact IH]. Qed.

Lemma length_advance (s : string) (n : nat) :
  String.length (advance s n) = String.length s - n.
Proof.
  revert s; induction n as [|n IH]; intros s; simpl; [lia|].
  destruct s as [|c s]; simpl; [reflexivity | apply IH].
Qed.

Lemma advance_S (s : string) (n : nat) :
  advance s (S n) = advance (advance s n) 1.
Proof.
  revert s; induction n as [|n IH]; intros s; [reflexivity|].
  destruct s as [|c s]; [reflexivity|].
  change (advance (String c s) (S (S n))) with (advance s (S n)).
  change (advance (String c s) (S n)) with (advance s n).
  apply IH.
Qed.

(** The character at an offset and the rest of the string behind it. *)
Lemma get_advance (s : string) (n : nat) :
  String.get n s =
  match advance s n with
  | String a _ => Some a
  | EmptyString => None
  end.
Proof.
  revert s; induction n as [|n IH]; intros s; destruct s as [|c s]; simpl;
    try reflexivity.
  apply IH.
Qed.

Lemma get_some_advance (s : string) (n : nat) (a : ascii) :
  String.get n s = Some a -> advance s n = String a (advance s (S n)).
Proof.
  rewrite get_advance, advance_S.
  destruct (advance s n) as [|b r]; [discriminate|].
  intros [= ->]. reflexivity.
Qed.

Lemma get_length (s : string) (n : nat) :
  String.get n s = None <-> String.length s <= n.
Proof.
  revert n; induction s as [|c s IH]; intros n; simpl.
  - split; [lia | now destruct n].
  - destruct n as [|n]; [split; [discriminate | lia]|].
    rewrite IH. lia.
Qed.

Lemma char_at_append (s t : string) :
  char_at (s ++ t)%string (String.length s) = char_at t 0.
Proof.
  unfold char_at. rewrite !get_advance, advance_append. reflexivity.
Qed.

Lemma strncmp_append (s t : string) :
  strncmp s (s ++ t)%string (String.length s) = 0%Z.
Proof.
  induction s as [|c s IH]; simpl; [reflexivity|].
  now rewrite Ascii.eqb_refl.
Qed.

Lemma uchar_zero (c : ascii) : uchar c = 0%Z -> c = NUL.
Proof.
  unfold uchar. intros H.
  assert (Hn : nat_of_ascii c = 0) by lia.
  rewrite <- (ascii_nat_embedding c), Hn. reflexivity.
Qed.

Lemma uchar_inj (c d : ascii) : (uchar c - uchar d)%Z = 0%Z -> c = d.
Proof.
  unfold uchar. intros H.
  assert (Hn : nat_of_ascii c = nat_of_ascii d) by lia.
  rewrite <- (ascii_nat_embedding c), Hn. apply ascii_nat_embedding.
Qed.

(** [strncmp] over the length of a string that holds no terminator is 0
    exactly on the strings that begin with it. *)
Lemma strncmp_zero_prefix (s p : string) :
  nonul s -> strncmp s p (String.length s) = 0%Z ->
  p = (s ++ advance p (String.length s))%string.
Proof.
  revert p; induction s as [|c s IH]; intros p Hs H; simpl in *; [reflexivity|].
  destruct Hs as [Hc Hs].
  destruct p as [|d p].
  - exfalso. apply Hc. apply uchar_zero. change (uchar NUL) with 0%Z in H. lia.
  - destruct (Ascii.eqb c d) eqn:E.
    + apply Ascii.eqb_eq in E. subst d. f_equal. now apply IH.
    + exfalso. apply uchar_inj in H. subst d. now rewrite Ascii.eqb_refl in E.
Qed.

End StringFacts.

(* ================================================================== *)
(** * Facts about [get_team] *)
(* ================================================================== *)

Section TeamFacts.

(** What [get_team] does, in one equation: undefined on an expression that
    was not compiled; no team and no allocation when the username does
    not match; on a match, undefined if the allocator refuses the block
    (the result of [mosquitto_malloc] is not checked), and otherwise the
    characters of sub-expression 1. *)
Lemma get_team_eq (g : plugin) (str : string) (w : world) :
  get_team g str w =
  match username_match g with
  | None => Undefined
  | Some r =>
      let (result, pmatch) := regexec r str 2 in
      if matched result then
        match grants w with
        | Some _ :: rest =>
            Normal (Some (upto_nul (from str pmatch 1) (extent pmatch 1)))
                   {| grants := rest; callbacks := callbacks w |}
        | _ => Undefined
        end
      else Normal None w
  end.
Proof.
  unfold get_team, regexec_on, bind, defined, undefined, ret.
  destruct (username_match g) as [r|]; [|reflexivity].
  destruct (regexec r str 2) as [result pmatch].
  destruct (matched result); [|reflexivity].
  unfold mosquitto_malloc, allocate, bind, ret.
  destruct (grants w) as [|[bytes|] rest]; simpl; try reflexivity.
  set (b := bytes ++ repeat NUL (extent pmatch 1 + 1 - length bytes)).
  destruct (terminated_copy b (from str pmatch 1) (extent pmatch 1))
    as (b1 & b2 & H1 & H2 & H3).
  { pose proof (malloc_block_length bytes (extent pmatch 1 + 1)). fold b in H. lia. }
  rewrite H1, H2, H3. reflexivity.
Qed.

(** A team that was resolved once is resolved again, to the same string,
    whenever the allocator grants the block. *)
Lemma get_team_some (g : plugin) (str : string) (w w1 : world) (T : string) :
  get_team g str w = Normal (Some T) w1 ->
  nonul T /\
  w1 = after 1 w /\ granted 1 (grants w) /\
  forall w', granted 1 (grants w') -> get_team g str w' = Normal (Some T) (after 1 w').
Proof.
  rewrite get_team_eq. intros H.
  destruct (username_match g) as [r|] eqn:Hg; [|discriminate].
  destruct (regexec r str 2) as [result pmatch] eqn:Hr.
  destruct (matched result) eqn:Hm; [|discriminate].
  destruct (grants w) as [|[bytes|] rest] eqn:Hw; try discriminate.
  injection H as HT Hw1.
  split; [subst T; apply nonul_upto_nul|].
  split; [unfold after; rewrite Hw; now subst w1|].
  split; [exact I|].
  intros w' Hw'. rewrite get_team_eq, Hg, Hr, Hm.
  unfold after. destruct (grants w') as [|[b|] rest']; simpl in Hw'; try contradiction.
  subst T. reflexivity.
Qed.

(** No team is found exactly when the username does not match, and then
    nothing was allocated. *)
Lemma get_team_none (g : plugin) (str : string) (w w1 : world) :
  get_team g str w = Normal None w1 ->
  w1 = w /\ forall w', get_team g str w' = Normal None w'.
Proof.
  rewrite get_team_eq. intros H.
  destruct (username_match g) as [r|] eqn:Hg; [|discriminate].
  destruct (regexec r str 2) as [result pmatch] eqn:Hr.
  destruct (matched result) eqn:Hm.
  - destruct (grants w) as [|[bytes|] rest]; discriminate.
  - injection H as ->. split; [reflexivity|].
    intros w'. now rewrite get_team_eq, Hg, Hr, Hm.
Qed.

End TeamFacts.

(* ================================================================== *)
(** * Facts about the allocator *)
(* ================================================================== *)

Section AllocatorFacts.

Lemma allocate_granted (w : world) :
  granted 1 (grants w) -> exists b, allocate w = Normal (Some b) (after 1 w).
Proof.
  unfold allocate, after. destruct (grants w) as [|[b|] rest]; simpl; try contradiction.
  intros _. now exists b.
Qed.

Lemma allocate_refused (w : world) :
  ~ granted 1 (grants w) -> allocate w = Normal None (after 1 w).
Proof.
  unfold allocate, after. destruct w as [h cbs]; simpl.
  destruct h as [|[b|] rest]; simpl; intros H; try reflexivity.
  now elim H.
Qed.

Lemma calloc_granted (n size : nat) (w : world) :
  granted 1 (grants w) ->
  exists b, mosquitto_calloc n size w = Normal (Some b) (after 1 w).
Proof.
  intros H. destruct (allocate_granted w H) as [b Hb].
  unfold mosquitto_calloc, bind, ret. rewrite Hb. simpl. eauto.
Qed.

Lemma calloc_refused (n size : nat) (w : world) :
  ~ granted 1 (grants w) -> mosquitto_calloc n size w = Normal None (after 1 w).
Proof.
  intros H. unfold mosquitto_calloc, bind, ret. now rewrite (allocate_refused w H).
Qed.

Lemma strdup_granted (s : string) (w : world) :
  granted 1 (grants w) -> mosquitto_strdup s w = Normal (Some s) (after 1 w).
Proof.
  intros H. destruct (allocate_granted w H) as [b Hb].
  unfold mosquitto_strdup, bind, ret. now rewrite Hb.
Qed.

Lemma strdup_refused (s : string) (w : world) :
  ~ granted 1 (grants w) -> mosquitto_strdup s w = Normal None (after 1 w).
Proof.
  intros H. unfold mosquitto_strdup, bind, ret. now rewrite (allocate_refused w H).
Qed.

End AllocatorFacts.

(* ================================================================== *)
(** * The message callbacks *)
(* ================================================================== *)

Section Messages.

Variable g : plugin.

(** The buffer [callback_message_in] allocates is large enough: the
    formatted topic is never cut short. *)
Lemma message_in_resolved (ed : mosquitto_evt_message) (username T : string)
      (w w1 : world) :
  mosquitto_client_username (msg_client ed) = Some username ->
  get_team g username w = Normal (Some T) w1 ->
  granted 1 (grants w1) ->
  callback_message_in g ed w =
  Normal (MOSQ_ERR_SUCCESS,
          {| msg_client := msg_client ed; topic := (T ++ "/" ++ topic ed)%string |})
         (after 1 w1).
Proof.
  intros Hu Hg Hw1. unfold callback_message_in. rewrite Hu.
  unfold bind at 1. rewrite Hg.
  unfold bind at 1.
  destruct (calloc_granted 1 (strlen T + sizeof_char_constant + strlen (topic ed) + 1) w1 Hw1)
    as [b ->].
  unfold bind, mosquitto_free, ret, snprintf.
  rewrite substring_all; [reflexivity|].
  unfold strlen, sizeof_char_constant. rewrite length_append. simpl. lia.
Qed.

(** The three ways [callback_message_out] ends for a client with a team. *)
Lemma message_out_short (ed : mosquitto_evt_message) (username T : string)
      (w w1 : world) :
  mosquitto_client_username (msg_client ed) = Some username ->
  get_team g username w = Normal (Some T) w1 ->
  strlen (topic ed) <= strlen T + 1 ->
  callback_message_out g ed w = Normal (MOSQ_ERR_SUCCESS, ed) w1.
Proof.
  intros Hu Hg Hlen. unfold callback_message_out. rewrite Hu.
  unfold bind at 1. rewrite Hg.
  apply Nat.leb_le in Hlen. now rewrite Hlen.
Qed.

Lemma message_out_prefixed (ed : mosquitto_evt_message) (username T rest : string)
      (w w1 : world) :
  mosquitto_client_username (msg_client ed) = Some username ->
  get_team g username w = Normal (Some T) w1 ->
  rest <> EmptyString ->
  topic ed = (T ++ "/" ++ rest)%string ->
  callback_message_out g ed w =
  if match grants w1 with Some _ :: _ => true | _ => false end
  then Normal (MOSQ_ERR_SUCCESS, {| msg_client := msg_client ed; topic := rest |})
              (after 1 w1)
  else Normal (MOSQ_ERR_NOMEM, ed) (after 1 w1).
Proof.
  intros Hu Hg Hrest Htopic. unfold callback_message_out. rewrite Hu.
  unfold bind at 1. rewrite Hg.
  assert (Hlen : (strlen (topic ed) <=? strlen T + 1) = false).
  { apply Nat.leb_gt. rewrite Htopic. unfold strlen.
    rewrite length_append. simpl. destruct rest; [contradiction|simpl; lia]. }
  rewrite Hlen.
  assert (Hcmp : (strncmp T (topic ed) (strlen T) =? 0)%Z = true).
  { rewrite Htopic. unfold strlen. now rewrite strncmp_append. }
  assert (Hsep : Ascii.eqb (char_at (topic ed) (strlen T)) "/" = true).
  { rewrite Htopic. unfold strlen. now rewrite char_at_append. }
  rewrite Hcmp, Hsep. cbn [andb].
  assert (Hadv : advance (topic ed) (strlen T + 1) = rest).
  { rewrite Htopic. unfold strlen.
    replace (String.length T + 1) with (S (String.length T)) by lia.
    rewrite advance_S, advance_append. reflexivity. }
  rewrite Hadv. unfold bind at 1. cbv beta.
  destruct (grants w1) as [|[b|] h] eqn:Hw1.
  - rewrite strdup_refused by (rewrite Hw1; simpl; tauto). reflexivity.
  - rewrite strdup_granted by (rewrite Hw1; exact I). reflexivity.
  - rewrite strdup_refused by (rewrite Hw1; simpl; tauto). reflexivity.
Qed.

Lemma message_out_other (ed : mosquitto_evt_message) (username T : string)
      (w w1 : world) :
  mosquitto_client_username (msg_client ed) = Some username ->
  get_team g username w = Normal (Some T) w1 ->
  (forall rest, rest <> EmptyString -> topic ed <> (T ++ "/" ++ rest)%string) ->
  callback_message_out g ed w = Normal (MOSQ_ERR_SUCCESS, ed) w1.
Proof.
  intros Hu Hg Hno.
  destruct (Nat.leb_spec (strlen (topic ed)) (strlen T + 1)) as [Hlen|Hlen];
    [now apply (message_out_short ed username T)|].
  unfold callback_message_out. rewrite Hu.
  unfold bind at 1. rewrite Hg.
  apply Nat.leb_gt in Hlen. rewrite Hlen. apply Nat.leb_gt in Hlen.
  destruct ((strncmp T (topic ed) (strlen T) =? 0)%Z
            && Ascii.eqb (char_at (topic ed) (strlen T)) "/") eqn:Hc;
    [|reflexivity].
  exfalso. apply andb_prop in Hc. destruct Hc as [Hcmp Hsep].
  apply Z.eqb_eq in Hcmp. apply Ascii.eqb_eq in Hsep.
  destruct (get_team_some g username w w1 T Hg) as [HT _].
  apply strncmp_zero_prefix in Hcmp; [|exact HT].
  unfold char_at in Hsep.
  destruct (String.get (strlen T) (topic ed)) as [a|] eqn:Ha; [|discriminate].
  subst a. apply get_some_advance in Ha.
  apply (Hno (advance (topic ed) (S (strlen T)))).
  - intros He. pose proof (length_advance (topic ed) (S (strlen T))) as Hl.
    rewrite He in Hl. simpl in Hl. unfold strlen in *. lia.
  - unfold strlen in *. rewrite Hcmp at 1. now rewrite Ha.
Qed.

End Messages.

(* ================================================================== *)
(** * The subscription callbacks *)
(* ================================================================== *)

Section Subscriptions.

Variable g : plugin.

Lemma subscribe_plain (ed : mosquitto_evt_subscribe) (username T : string)
      (w w1 : world) :
  mosquitto_client_username (sub_client ed) = Some username ->
  get_team g username w = Normal (Some T) w1 ->
  strncmp (sub_topic_filter ed) "$share/" 7 <> 0%Z ->
  granted 1 (grants w1) ->
  callback_subscribe g ed w =
  Normal (MOSQ_ERR_SUCCESS,
          {| sub_client := sub_client ed;
             sub_topic_filter := (T ++ "/" ++ sub_topic_filter ed)%string |})
         (after 1 w1).
Proof.
  intros Hu Hg Hs Hw1. unfold callback_subscribe. rewrite Hu.
  unfold bind at 1. rewrite Hg.
  apply Z.eqb_neq in Hs. rewrite Hs.
  unfold bind at 1.
  destruct (calloc_granted 1
              (strlen T + sizeof_char_constant + strlen (sub_topic_filter ed) + 1) w1 Hw1)
    as [b ->].
  unfold bind, mosquitto_free, ret, snprintf.
  rewrite substring_all; [reflexivity|].
  unfold strlen, sizeof_char_constant. rewrite length_append. simpl. lia.
Qed.

Lemma unsubscribe_plain (ed : mosquitto_evt_unsubscribe) (username T : string)
      (w w1 : world) :
  mosquitto_client_username (unsub_client ed) = Some username ->
  get_team g username w = Normal (Some T) w1 ->
  strncmp (unsub_topic_filter ed) "$share/" 7 <> 0%Z ->
  granted 1 (grants w1) ->
  callback_unsubscribe g ed w =
  Normal (MOSQ_ERR_SUCCESS,
          {| unsub_client := unsub_client ed;
             unsub_topic_filter := (T ++ "/" ++ unsub_topic_filter ed)%string |})
         (after 1 w1).
Proof.
  intros Hu Hg Hs Hw1. unfold callback_unsubscribe. rewrite Hu.
  unfold bind at 1. rewrite Hg.
  apply Z.eqb_neq in Hs. rewrite Hs.
  unfold bind at 1.
  destruct (calloc_granted 1
              (strlen T + sizeof_char_constant + strlen (unsub_topic_filter ed) + 1) w1 Hw1)
    as [b ->].
  unfold bind, mosquitto_free, ret, snprintf.
  rewrite substring_all; [reflexivity|].
  unfold strlen, sizeof_char_constant. rewrite length_append. simpl. lia.
Qed.

(** A filter that carries the marker and that the expression for shared
    subscriptions does not match: the call fails, whether or not the
    buffer that was asked for first could be allocated. *)
Lemma subscribe_malformed (ed : mosquitto_evt_subscribe) (username T : string)
      (r : regex) (w w1 : world) :
  mosquitto_client_username (sub_client ed) = Some username ->
  get_team g username w = Normal (Some T) w1 ->
  shared_sub_match g = Some r ->
  strncmp (sub_topic_filter ed) "$share/" 7 = 0%Z ->
  matched (fst (regexec r (sub_topic_filter ed) 3)) = false ->
  callback_subscribe g ed w = Normal (MOSQ_ERR_NOMEM, ed) (after 1 w1).
Proof.
  intros Hu Hg Hr Hs Hm. unfold callback_subscribe. rewrite Hu.
  unfold bind at 1. rewrite Hg.
  apply Z.eqb_eq in Hs. rewrite Hs.
  unfold bind at 1.
  destruct (grants w1) as [|[b|] h] eqn:Hw1.
  - rewrite calloc_refused by (rewrite Hw1; simpl; tauto). reflexivity.
  - destruct (calloc_granted 1
                (strlen T + sizeof_char_constant * 2 + strlen (sub_topic_filter ed) + 1) w1)
      as [b' ->]; [rewrite Hw1; exact I|].
    unfold regexec_on, bind, defined, ret. rewrite Hr.
    destruct (regexec r (sub_topic_filter ed) 3) as [rc pmatch]. simpl in Hm.
    now rewrite Hm.
  - rewrite calloc_refused by (rewrite Hw1; simpl; tauto). reflexivity.
Qed.

Lemma unsubscribe_malformed (ed : mosquitto_evt_unsubscribe) (username T : string)
      (r : regex) (w w1 : world) :
  mosquitto_client_username (unsub_client ed) = Some username ->
  get_team g username w = Normal (Some T) w1 ->
  shared_sub_match g = Some r ->
  strncmp (unsub_topic_filter ed) "$share/" 7 = 0%Z ->
  matched (fst (regexec r (unsub_topic_filter ed) 3)) = false ->
  callback_unsubscribe g ed w = Normal (MOSQ_ERR_NOMEM, ed) (after 1 w1).
Proof.
  intros Hu Hg Hr Hs Hm. unfold callback_unsubscribe. rewrite Hu.
  unfold bind at 1. rewrite Hg.
  apply Z.eqb_eq in Hs. rewrite Hs.
  unfold bind at 1.
  destruct (grants w1) as [|[b|] h] eqn:Hw1.
  - rewrite calloc_refused by (rewrite Hw1; simpl; tauto). reflexivity.
  - destruct (calloc_granted 1
                (strlen T + sizeof_char_constant * 2 + strlen (unsub_topic_filter ed) + 1) w1)
      as [b' ->]; [rewrite Hw1; exact I|].
    unfold regexec_on, bind, defined, ret. rewrite Hr.
    destruct (regexec r (unsub_topic_filter ed) 3) as [rc pmatch]. simpl in Hm.
    now rewrite Hm.
  - rewrite calloc_refused by (rewrite Hw1; simpl; tauto). reflexivity.
Qed.

End Subscriptions.

(* ================================================================== *)
(** * Initialisation *)
(* ================================================================== *)

Section Initialisation.

Lemma find_regex_absent (opts : list mosquitto_opt) (um : regex_t) (found : bool) :
  Forall (fun o => strcasecmp (key o) "regex" <> 0%Z) opts ->
  find_regex opts um found = (um, found).
Proof.
  induction 1 as [|o rest Ho _ IH]; simpl; [reflexivity|].
  apply Z.eqb_neq in Ho. now rewrite Ho.
Qed.

(** The file-scope variables do not depend on how the registrations go. *)
Lemma init_plugin (opts : list mosquitto_opt) (w w' : world) (rc : mosq_err_t)
      (g : plugin) :
  mosquitto_plugin_init opts w = Normal (rc, g) w' -> g = configured opts.
Proof.
  unfold mosquitto_plugin_init, configured.
  destruct (find_regex opts None false) as [um found].
  unfold bind, ret.
  repeat match goal with
         | |- context [mosquitto_callback_register ?e ?f ?x] =>
             destruct (mosquitto_callback_register e f x) as [[] ?|]; simpl
         end;
    intros H; try discriminate; now injection H.
Qed.

(** With no callback registered yet and room for the five entries, the
    five registrations succeed, whatever the options are. *)
Lemma init_registers (opts : list mosquitto_opt) (w : world) :
  callbacks w = [] -> granted 5 (grants w) ->
  mosquitto_plugin_init opts w =
  Normal (MOSQ_ERR_SUCCESS, configured opts)
         {| grants := skipn 5 (grants w); callbacks := all_callbacks |}.
Proof.
  destruct w as [h cbs]. simpl. intros -> Hg.
  destruct h as [|[b1|] [|[b2|] [|[b3|] [|[b4|] [|[b5|] rest]]]]]; simpl in Hg;
    try contradiction.
  unfold mosquitto_plugin_init, configured.
  destruct (find_regex opts None false) as [um found].
  reflexivity.
Qed.

End Initialisation.

(* ================================================================== *)
(** * Facts about matching *)
(* ================================================================== *)

Section MatchingFacts.

Lemma best_none_r (a : result) : best a None = a.
Proof. destruct a as [[e c]|]; reflexivity. Qed.

Lemma one_Bracket (negated : bool) (items : list bracket_item) :
  one (in_bracket negated items) (Bracket negated items).
Proof. intros u pos caps k. reflexivity. Qed.

Lemma one_Any : one any_char Any.
Proof. intros u pos caps k. simpl. now destruct (String.get pos u). Qed.

Lemma span_zero (p : ascii -> bool) (u : string) (pos : nat) :
  span p (advance u pos) = 0 ->
  match String.get pos u with
  | Some a => if p a then @None (nat * captures) else None
  | None => None
  end = None
  /\ match String.get pos u with Some a => p a = false | None => True end.
Proof.
  rewrite get_advance. destruct (advance u pos) as [|a r]; simpl; [now split|].
  destruct (p a); [discriminate | now split].
Qed.

Lemma span_succ (p : ascii -> bool) (u : string) (pos n : nat) :
  span p (advance u pos) = S n ->
  exists a, String.get pos u = Some a /\ p a = true /\
            span p (advance u (S pos)) = n.
Proof.
  rewrite get_advance, (advance_S u pos).
  destruct (advance u pos) as [|a r]; simpl; [discriminate|].
  destruct (p a) eqn:E; [|discriminate].
  intros [= H]. exists a. repeat split; assumption.
Qed.

(** Inside a run of characters of [p] every character satisfies [p]. *)
Lemma span_get (p : ascii -> bool) (u : string) (n pos j : nat) :
  span p (advance u pos) = n -> pos <= j < pos + n ->
  exists a, String.get j u = Some a /\ p a = true.
Proof.
  revert pos; induction n as [|n IH]; intros pos Hs Hj; [lia|].
  destruct (span_succ p u pos n Hs) as (a & Ha & Hp & Hs').
  destruct (Nat.eq_dec j pos) as [->|Hne]; [now exists a|].
  apply (IH (S pos)); [assumption | lia].
Qed.

Lemma span_length (p : ascii -> bool) (s : string) : span p s <= String.length s.
Proof.
  induction s as [|a r IH]; simpl; [lia|]. destruct (p a); lia.
Qed.

(** The iterations over a run of characters, when what follows cannot
    begin inside the run: the whole run is taken. *)
Lemma star_run (p : ascii -> bool) (r : regex) (u : string)
      (k : nat -> captures -> result) (caps : captures) :
  one p r ->
  forall n fuel pos,
    span p (advance u pos) = n ->
    String.length u < fuel + pos ->
    (forall j, pos <= j < pos + n -> k j caps = None) ->
    star_iter (rmatch r u) k fuel pos caps = k (pos + n) caps.
Proof.
  intros Hone. induction n as [|n IH]; intros fuel pos Hs Hf Hk.
  - rewrite Nat.add_0_r. destruct fuel as [|f]; [reflexivity|].
    simpl. rewrite Hone.
    destruct (span_zero p u pos Hs) as [_ H0].
    destruct (String.get pos u) as [a|]; [rewrite H0|]; reflexivity.
  - destruct (span_succ p u pos n Hs) as (a & Ha & Hp & Hs').
    destruct fuel as [|f].
    + exfalso. assert (String.get pos u = None) by (apply get_length; lia).
      congruence.
    + simpl. rewrite Hone, Ha, Hp.
      assert (Hne : (S pos =? pos) = false) by (apply Nat.eqb_neq; lia).
      rewrite Hne, (Hk pos) by lia. rewrite best_none_r.
      rewrite (IH f (S pos)); [f_equal; lia | assumption | lia |].
      intros j Hj. apply Hk. lia.
Qed.

(** One or more characters of [p], under the same condition. *)
Lemma plus_run (p : ascii -> bool) (r : regex) (u : string)
      (k : nat -> captures -> result) (caps : captures) (pos : nat) :
  one p r ->
  (forall j, pos < j < pos + span p (advance u pos) -> k j caps = None) ->
  rmatch (Cat r (Star r)) u pos caps k =
  if 0 <? span p (advance u pos) then k (pos + span p (advance u pos)) caps
  else None.
Proof.
  intros Hone Hk. cbn [rmatch]. rewrite Hone.
  destruct (span p (advance u pos)) as [|n] eqn:Hs.
  - destruct (span_zero p u pos Hs) as [_ H0].
    destruct (String.get pos u) as [a|]; [rewrite H0|]; reflexivity.
  - destruct (span_succ p u pos n Hs) as (a & Ha & Hp & Hs').
    rewrite Ha, Hp. change (0 <? S n) with true. cbv iota.
    rewrite (star_run p r u k caps Hone n (S (String.length u)) (S pos));
      [f_equal; lia | assumption | lia |].
    intros j Hj. apply Hk. lia.
Qed.

Lemma begins_spec (l s : string) :
  begins l s = true <-> s = (l ++ advance s (String.length l))%string.
Proof.
  revert s; induction l as [|c l IH]; intros s; simpl; [now split|].
  destruct s as [|d s]; [split; discriminate|].
  split.
  - intros H. apply andb_prop in H. destruct H as [Hc Hl].
    apply Ascii.eqb_eq in Hc. subst d. f_equal. now apply IH.
  - intros [= -> H]. rewrite Ascii.eqb_refl. simpl. now apply IH.
Qed.

Lemma rmatch_lit (l : string) (r : regex) (u : string) (pos : nat)
      (caps : captures) (k : nat -> captures -> result) :
  rmatch (lit l r) u pos caps k =
  if begins l (advance u pos) then rmatch r u (pos + String.length l) caps k
  else None.
Proof.
  revert pos; induction l as [|c l IH]; intros pos; simpl.
  - now rewrite Nat.add_0_r.
  - rewrite get_advance.
    destruct (advance u pos) as [|d s] eqn:E; [reflexivity|].
    destruct (Ascii.eqb d c); simpl; [|reflexivity].
    rewrite IH, (advance_S u pos), E. simpl.
    now rewrite Nat.add_succ_r.
Qed.

(** An expression anchored at the beginning matches at offset 0 or not at
    all. *)
Lemma search_anchored (r : regex) (u : string) (fuel start : nat) :
  search (Cat Bol r) u (S start) fuel = None.
Proof.
  revert start; induction fuel as [|f IH]; intros start; simpl; [reflexivity|].
  apply IH.
Qed.

Lemma regexec_anchored (r : regex) (u : string) (nmatch : nat) :
  regexec (Cat Bol r) u nmatch =
  match rmatch r u 0 [] accept with
  | Some (e, caps) => (REG_NOERROR, map (subexpr 0 e caps) (seq 0 nmatch))
  | None => (REG_NOMATCH, [])
  end.
Proof.
  unfold regexec.
  destruct (String.length u) as [|f]; simpl;
    destruct (rmatch r u 0 [] accept) as [[e caps]|]; try reflexivity.
  now rewrite search_anchored.
Qed.

Lemma regcomp_default : regcomp default_pattern = (REG_NOERROR, Some default_regex).
Proof. reflexivity. Qed.

Lemma rmatch_Cat r1 r2 u pos caps k :
  rmatch (Cat r1 r2) u pos caps k = rmatch r1 u pos caps (fun p c => rmatch r2 u p c k).
Proof. reflexivity. Qed.

Lemma rmatch_Group n r u pos caps k :
  rmatch (Group n r) u pos caps k = rmatch r u pos caps (fun p c => k p ((n, (pos, p)) :: c)).
Proof. reflexivity. Qed.

Lemma rmatch_Chr c u pos caps k :
  rmatch (Chr c) u pos caps k =
  match String.get pos u with
  | Some a => if Ascii.eqb a c then k (S pos) caps else None
  | None => None
  end.
Proof. reflexivity. Qed.

Lemma rmatch_Eol u pos caps k :
  rmatch Eol u pos caps k = if pos =? String.length u then k pos caps else None.
Proof. reflexivity. Qed.

Lemma regexec_default (u : string) :
  regexec default_regex u 2 =
  match default_form u with
  | Some so =>
      (REG_NOERROR,
       [ {| rm_so := 0; rm_eo := Z.of_nat (String.length u) |};
         {| rm_so := Z.of_nat so; rm_eo := Z.of_nat (String.length u) |} ])
  | None => (REG_NOMATCH, [])
  end.
Proof.
  unfold default_regex. rewrite regexec_anchored.
  rewrite rmatch_Cat.
  rewrite (plus_run tenant_char tenant_class u _ [] 0 (one_Bracket _ _)).
  2:{ intros j Hj. cbn [rmatch].
      destruct (span_get tenant_char u _ 0 j eq_refl) as (a & Ha & Hp); [lia|].
      rewrite Ha. destruct (Ascii.eqb a "@") eqn:E; [|reflexivity].
      apply Ascii.eqb_eq in E. subst a. discriminate. }
  change (advance u 0) with u. rewrite Nat.add_0_l.
  unfold default_form.
  set (a := span tenant_char u).
  destruct (0 <? a) eqn:Ha; cbn [andb]; [|reflexivity].
  rewrite rmatch_Cat, rmatch_Chr. unfold char_at.
  destruct (String.get a u) as [c|]; [|reflexivity].
  destruct (Ascii.eqb c "@"); [|reflexivity].
  rewrite rmatch_Cat, rmatch_Group, Nat.add_1_r.
  rewrite (plus_run tenant_char tenant_class u _ [] (S a) (one_Bracket _ _)).
  2:{ intros j Hj. rewrite rmatch_Eol.
      pose proof (span_length tenant_char (advance u (S a))) as Hl.
      rewrite length_advance in Hl.
      assert (Hne : (j =? String.length u) = false) by (apply Nat.eqb_neq; lia).
      now rewrite Hne. }
  set (b := span tenant_char (advance u (S a))).
  destruct (0 <? b); cbn [andb]; [|reflexivity].
  rewrite rmatch_Eol.
  destruct (S a + b =? String.length u) eqn:He; [|reflexivity].
  apply Nat.eqb_eq in He. unfold accept. cbn [map seq subexpr lookup Nat.eqb]. rewrite He. reflexivity.
Qed.

Lemma regcomp_shared : regcomp shared_pattern = (REG_NOERROR, Some shared_regex).
Proof. reflexivity. Qed.

Lemma span_any (s : string) : span any_char s = String.length s.
Proof. induction s as [|c s IH]; simpl; [reflexivity | now rewrite IH]. Qed.

Lemma regexec_shared (F : string) :
  regexec shared_regex F 3 =
  match shared_form F with
  | Some e1 =>
      (REG_NOERROR,
       [ {| rm_so := 0; rm_eo := Z.of_nat (String.length F) |};
         {| rm_so := 0; rm_eo := Z.of_nat e1 |};
         {| rm_so := Z.of_nat (e1 + 1); rm_eo := Z.of_nat (String.length F) |} ])
  | None => (REG_NOMATCH, [])
  end.
Proof.
  unfold shared_regex. rewrite regexec_anchored.
  rewrite rmatch_Cat, rmatch_Group, rmatch_lit.
  change (advance F 0) with F. unfold shared_form.
  destruct (begins "$share/" F); [|reflexivity].
  change (0 + String.length "$share/") with 7.
  rewrite (plus_run group_char group_class F _ [] 7 (one_Bracket _ _)).
  2:{ intros j Hj. rewrite rmatch_Cat, rmatch_Chr.
      destruct (span_get group_char F _ 7 j eq_refl) as (a & Ha & Hp); [lia|].
      rewrite Ha. destruct (Ascii.eqb a "/") eqn:E; [|reflexivity].
      apply Ascii.eqb_eq in E. subst a. discriminate. }
  set (n := span group_char (advance F 7)).
  destruct (0 <? n); cbn [andb]; [|reflexivity].
  rewrite rmatch_Cat, rmatch_Chr. unfold char_at.
  destruct (String.get (7 + n) F) as [c|] eqn:Hc; [|reflexivity].
  destruct (Ascii.eqb c "/"); cbn [andb]; [|reflexivity].
  rewrite rmatch_Cat, rmatch_Group.
  rewrite (plus_run any_char Any F _ _ (S (7 + n)) one_Any).
  2:{ intros j Hj. rewrite rmatch_Eol.
      rewrite span_any, length_advance in Hj.
      assert (Hne : (j =? String.length F) = false) by (apply Nat.eqb_neq; lia).
      now rewrite Hne. }
  rewrite span_any, length_advance, rmatch_Eol.
  assert (Hlt : String.length F > 7 + n).
  { destruct (Nat.lt_ge_cases (7 + n) (String.length F)) as [H|H]; [exact H|].
    apply get_length in H. congruence. }
  destruct (Nat.ltb_spec (7 + n + 1) (String.length F)) as [H|H].
  - assert (H1 : (0 <? String.length F - S (7 + n)) = true) by (apply Nat.ltb_lt; lia).
    assert (H2 : S (7 + n) + (String.length F - S (7 + n)) = String.length F) by lia.
    rewrite H1, H2, Nat.eqb_refl. unfold accept.
    cbn [map seq subexpr lookup Nat.eqb]. rewrite Nat.add_1_r. reflexivity.
  - assert (H1 : (0 <? String.length F - S (7 + n)) = false) by (apply Nat.ltb_ge; lia).
    now rewrite H1.
Qed.

End MatchingFacts.

(* ================================================================== *)
(** * The default expression and the team *)
(* ================================================================== *)

Section DefaultTeam.

Lemma tenant_char_not_NUL (c : ascii) : tenant_char c = true -> c <> NUL.
Proof. intros H ->. discriminate. Qed.

(** A run of characters none of which is the terminator reads back
    whole. *)
Lemma upto_nul_span (p : ascii -> bool) (s : string) :
  (forall c, p c = true -> c <> NUL) ->
  span p s = String.length s -> upto_nul s (String.length s) = s.
Proof.
  intros Hp. induction s as [|c s IH]; simpl; [reflexivity|].
  destruct (p c) eqn:E; [|discriminate].
  intros [= H]. destruct (Ascii.eqb c NUL) eqn:En.
  - apply Ascii.eqb_eq in En. now elim (Hp c E).
  - now rewrite IH.
Qed.

Lemma default_form_some (u : string) (so : nat) :
  default_form u = Some so ->
  so <= String.length u /\
  0 < String.length (advance u so) /\
  span tenant_char (advance u so) = String.length (advance u so).
Proof.
  unfold default_form.
  destruct ((0 <? span tenant_char u) && Ascii.eqb (char_at u (span tenant_char u)) "@");
    [|discriminate].
  destruct (0 <? span tenant_char (advance u (span tenant_char u + 1))) eqn:Hb;
    [|discriminate].
  destruct (span tenant_char u + 1 + span tenant_char (advance u (span tenant_char u + 1))
            =? String.length u) eqn:He; [|discriminate].
  simpl. intros [= <-].
  apply Nat.ltb_lt in Hb. apply Nat.eqb_eq in He.
  rewrite length_advance. lia.
Qed.

(** With the default expression, [get_team] returns what follows the at
    sign of a username of the expected form, and nothing otherwise. *)
Lemma get_team_default (g : plugin) (u : string) (w : world) :
  username_match g = Some default_regex ->
  get_team g u w =
  match default_form u with
  | Some so =>
      match grants w with
      | Some _ :: _ => Normal (Some (advance u so)) (after 1 w)
      | _ => Undefined
      end
  | None => Normal None w
  end.
Proof.
  intros Hg. rewrite get_team_eq, Hg, regexec_default.
  destruct (default_form u) as [so|] eqn:Hf; [|reflexivity].
  cbn [matched]. destruct (grants w) as [|[b|] rest] eqn:Hw; try reflexivity.
  destruct (default_form_some u so Hf) as (Hso & Hlen & Hspan).
  unfold after. rewrite Hw. cbn [skipn]. f_equal. f_equal.
  unfold from, extent, pmatch_at. cbn [nth rm_so rm_eo].
  rewrite Nat2Z.id.
  replace (Z.to_nat (Z.of_nat (String.length u) - Z.of_nat so))
    with (String.length (advance u so)) by (rewrite length_advance; lia).
  apply (upto_nul_span tenant_char); [apply tenant_char_not_NUL | exact Hspan].
Qed.

Lemma configured_default (opts : list mosquitto_opt) :
  Forall (fun o => strcasecmp (key o) "regex" <> 0%Z) opts ->
  configured opts =
  {| username_match := Some default_regex; shared_sub_match := Some shared_regex |}.
Proof.
  intros H. unfold configured. now rewrite (find_regex_absent opts None false H).
Qed.

Lemma regcomp_failure (pattern : string) :
  fst (regcomp pattern) <> REG_NOERROR -> snd (regcomp pattern) = None.
Proof.
  unfold regcomp.
  destruct (parse_alt _ 0 _ (list_ascii_of_string pattern)) as [[[r n] [|c rest]]|e];
    simpl; congruence.
Qed.

End DefaultTeam.

Section MoreStringFacts.

Lemma strncmp_append_l (l t : string) :
  strncmp (l ++ t)%string l (String.length l) = 0%Z.
Proof.
  induction l as [|c l IH]; simpl; [reflexivity|].
  now rewrite Ascii.eqb_refl.
Qed.

Lemma begins_strncmp (l s : string) :
  begins l s = true -> strncmp s l (String.length l) = 0%Z.
Proof.
  intros H. apply begins_spec in H. rewrite H at 1. apply strncmp_append_l.
Qed.

End MoreStringFacts.

Section SharedOverflow.

Lemma shared_form_begins (F : string) (e1 : nat) :
  shared_form F = Some e1 -> begins "$share/" F = true.
Proof.
  unfold shared_form. destruct (begins "$share/" F); [reflexivity | discriminate].
Qed.

(** For a filter of the form of a shared subscription the terminator of the
    inner filter is stored one byte behind the size asked for.  When the
    allocator hands out a block of just that size the store is outside
    the block, for [callback_subscribe] as for [callback_unsubscribe]. *)
Lemma subscribe_shared_no_spare_room (g : plugin) (client : mosquitto)
      (username T F : string) (e1 : nat) (w : world)
      (b0 b1 b2 : block) (rest : list (option block))
      (cbs : list (mosquitto_plugin_event * cb_func)) :
  mosquitto_client_username client = Some username ->
  get_team g username w =
    Normal (Some T) {| grants := Some b0 :: Some b1 :: Some b2 :: rest;
                       callbacks := cbs |} ->
  shared_sub_match g = Some shared_regex ->
  shared_form F = Some e1 ->
  length b2 <= String.length F - (e1 + 1) + 1 ->
  callback_subscribe g {| sub_client := client; sub_topic_filter := F |} w = Undefined.
Proof.
  intros Hu Hg Hs Hf Hb2.
  unfold callback_subscribe. cbn [sub_client sub_topic_filter]. rewrite Hu.
  unfold bind at 1. rewrite Hg.
  pose proof (begins_strncmp _ _ (shared_form_begins F e1 Hf)) as Hc.
  change (String.length "$share/") with 7 in Hc. rewrite Hc. cbn [Z.eqb].
  unfold bind at 1, mosquitto_calloc at 1, allocate, bind, ret. cbn [grants callbacks option_map].
  unfold regexec_on, bind, defined, ret. rewrite Hs, regexec_shared, Hf. cbn [matched].
  unfold mosquitto_malloc, allocate, bind, ret. cbn [grants callbacks option_map].
  set (pm := [ {| rm_so := 0; rm_eo := Z.of_nat (String.length F) |};
               {| rm_so := 0; rm_eo := Z.of_nat e1 |};
               {| rm_so := Z.of_nat (e1 + 1); rm_eo := Z.of_nat (String.length F) |} ]).
  destruct (terminated_copy (b1 ++ repeat NUL (extent pm 1 + 1 - length b1))
              (from F pm 1) (extent pm 1)) as (x1 & x2 & H1 & H2 & _).
  { pose proof (malloc_block_length b1 (extent pm 1 + 1)). lia. }
  rewrite H1, H2.
  assert (Hts : extent pm 2 = String.length F - (e1 + 1)).
  { unfold extent, pmatch_at, pm. cbn [nth rm_so rm_eo]. lia. }
  set (blk := b2 ++ repeat NUL (extent pm 2 + 1 - length b2)).
  assert (Hlen : length blk = extent pm 2 + 1).
  { unfold blk. rewrite length_app, repeat_length, Hts. lia. }
  unfold strncpy.
  assert (Hle : (extent pm 2 <=? length blk) = true) by (apply Nat.leb_le; lia).
  rewrite Hle. unfold store.
  rewrite length_app, length_copy_bytes, length_skipn, Hlen.
  assert (Hlt : (extent pm 2 + 1 <? extent pm 2 + (extent pm 2 + 1 - extent pm 2)) = false)
    by (apply Nat.ltb_ge; lia).
  now rewrite Hlt.
Qed.

End SharedOverflow.

Section SharedSpare.

Lemma upto_nul_nonul (s : string) (n : nat) :
  nonul s -> upto_nul s n = String.substring 0 n s.
Proof.
  revert s; induction n as [|n IH]; intros s Hs; destruct s as [|c s]; simpl;
    try reflexivity.
  destruct Hs as [Hc Hs].
  destruct (Ascii.eqb c NUL) eqn:E; [apply Ascii.eqb_eq in E; contradiction|].
  now rewrite IH.
Qed.

Lemma nonul_advance (s : string) (n : nat) : nonul s -> nonul (advance s n).
Proof.
  revert s; induction n as [|n IH]; intros s Hs; simpl; [exact Hs|].
  destruct s as [|c s]; [exact I|]. apply IH. apply Hs.
Qed.

(** A buffer that holds the characters of a string, then one more byte,
    then the terminator. *)
Lemma cstr_copy_stray (src : string) (c : ascii) (rest : block) :
  nonul src ->
  cstr (copy_bytes src (String.length src) ++ c :: NUL :: rest) =
  Some (src ++ stray c)%string.
Proof.
  intros Hs. induction src as [|a s IH]; simpl.
  - unfold stray. destruct (Ascii.eqb c NUL); [reflexivity|].
    simpl. reflexivity.
  - destruct Hs as [Ha Hs].
    destruct (Ascii.eqb a NUL) eqn:E; [apply Ascii.eqb_eq in E; contradiction|].
    now rewrite (IH Hs).
Qed.

Lemma shared_form_some (F : string) (e1 : nat) :
  shared_form F = Some e1 ->
  begins "$share/" F = true /\ e1 + 1 < String.length F.
Proof.
  unfold shared_form. destruct (begins "$share/" F); [|discriminate].
  destruct (0 <? span group_char (advance F 7)); [|discriminate].
  destruct (Ascii.eqb (char_at F (7 + span group_char (advance F 7))) "/");
    [|discriminate].
  destruct (Nat.ltb_spec (7 + span group_char (advance F 7) + 1) (String.length F));
    [|discriminate].
  cbn [andb]. intros H0.
  assert (He : 7 + span group_char (advance F 7) = e1) by congruence.
  split; [reflexivity | lia].
Qed.

(** For a filter of the form of a shared subscription, when the block of
    the inner filter has room for the misplaced terminator: the team is
    put between the share group and the inner filter, and the byte the
    allocator left behind the inner filter is appended unless it is 0. *)
Lemma subscribe_shared_spare_room (g : plugin) (client : mosquitto)
      (username T F : string) (e1 : nat) (w : world)
      (b0 b1 b2 : block) (rest : list (option block))
      (cbs : list (mosquitto_plugin_event * cb_func)) :
  mosquitto_client_username client = Some username ->
  get_team g username w =
    Normal (Some T) {| grants := Some b0 :: Some b1 :: Some b2 :: rest;
                       callbacks := cbs |} ->
  shared_sub_match g = Some shared_regex ->
  shared_form F = Some e1 ->
  nonul F ->
  String.length F - (e1 + 1) + 2 <= length b2 ->
  callback_subscribe g {| sub_client := client; sub_topic_filter := F |} w =
  Normal (MOSQ_ERR_SUCCESS,
          {| sub_client := client;
             sub_topic_filter :=
               (String.substring 0 e1 F ++ "/" ++ T ++ "/" ++ advance F (e1 + 1)
                ++ stray (nth (String.length F - (e1 + 1)) b2 NUL))%string |})
         {| grants := rest; callbacks := cbs |}.
Proof.
  intros Hu Hg Hs Hf HF Hb2.
  destruct (shared_form_some F e1 Hf) as [Hbeg He1].
  unfold callback_subscribe. cbn [sub_client sub_topic_filter]. rewrite Hu.
  unfold bind at 1. rewrite Hg.
  pose proof (begins_strncmp _ _ Hbeg) as Hc.
  change (String.length "$share/") with 7 in Hc. rewrite Hc. cbn [Z.eqb].
  unfold bind at 1, mosquitto_calloc at 1, allocate, bind, ret.
  cbn [grants callbacks option_map].
  unfold regexec_on, bind, defined, ret. rewrite Hs, regexec_shared, Hf. cbn [matched].
  unfold mosquitto_malloc, allocate, bind, ret. cbn [grants callbacks option_map].
  set (pm := [ {| rm_so := 0; rm_eo := Z.of_nat (String.length F) |};
               {| rm_so := 0; rm_eo := Z.of_nat e1 |};
               {| rm_so := Z.of_nat (e1 + 1); rm_eo := Z.of_nat (String.length F) |} ]).
  assert (Hgs : extent pm 1 = e1).
  { unfold extent, pmatch_at, pm. cbn [nth rm_so rm_eo]. lia. }
  assert (Hts : extent pm 2 = String.length F - (e1 + 1)).
  { unfold extent, pmatch_at, pm. cbn [nth rm_so rm_eo]. lia. }
  assert (Hfrom1 : from F pm 1 = F) by reflexivity.
  assert (Hfrom2 : from F pm 2 = advance F (e1 + 1)).
  { unfold from, pmatch_at, pm. cbn [nth rm_so]. now rewrite Nat2Z.id. }
  destruct (terminated_copy (b1 ++ repeat NUL (extent pm 1 + 1 - length b1))
              (from F pm 1) (extent pm 1)) as (x1 & x2 & H1 & H2 & H3).
  { pose proof (malloc_block_length b1 (extent pm 1 + 1)). lia. }
  rewrite H1, H2. rewrite Hfrom1, Hgs, (upto_nul_nonul F e1 HF) in H3.
  set (ts := extent pm 2) in *.
  assert (Hblk : b2 ++ repeat NUL (ts + 1 - length b2) = b2).
  { replace (ts + 1 - length b2) with 0 by lia. apply app_nil_r. }
  rewrite Hblk. unfold strncpy.
  assert (Hle : (ts <=? length b2) = true) by (apply Nat.leb_le; lia).
  rewrite Hle. unfold store.
  rewrite length_app, length_copy_bytes, length_skipn.
  assert (Hlt : (ts + 1 <? ts + (length b2 - ts)) = true) by (apply Nat.ltb_lt; lia).
  rewrite Hlt, H3.
  assert (Hsrc : String.length (from F pm 2) = ts).
  { rewrite Hfrom2, length_advance. lia. }
  assert (Hcs : cstr (firstn (ts + 1) (copy_bytes (from F pm 2) ts ++ skipn ts b2)
                      ++ NUL :: skipn (S (ts + 1))
                                  (copy_bytes (from F pm 2) ts ++ skipn ts b2))
                = Some (from F pm 2 ++ stray (nth ts b2 NUL))%string).
  { rewrite firstn_app, length_copy_bytes.
    rewrite (firstn_all2 (n := ts + 1)) by (rewrite length_copy_bytes; lia).
    replace (ts + 1 - ts) with 1 by lia.
    destruct (skipn ts b2) as [|c tl] eqn:Hsk.
    - exfalso. pose proof (length_skipn ts b2) as Hl. rewrite Hsk in Hl.
      simpl in Hl. lia.
    - assert (Hc' : nth ts b2 NUL = c).
      { rewrite <- (firstn_skipn ts b2) at 1. rewrite Hsk.
        rewrite app_nth2 by (rewrite length_firstn; lia).
        rewrite length_firstn.
        replace (ts - Nat.min ts (length b2)) with 0 by lia. reflexivity. }
      rewrite Hc'. cbn [firstn]. rewrite <- app_assoc. cbn [app].
      rewrite <- Hsrc at 1.
      apply cstr_copy_stray. rewrite Hfrom2. now apply nonul_advance. }
  rewrite Hcs. unfold mosquitto_free, bind, ret, snprintf.
  rewrite Hfrom2, Hts.
  rewrite substring_all; [reflexivity|].
  unfold strlen, sizeof_char_constant.
  rewrite !length_append.
  assert (Hsub : String.length (String.substring 0 e1 F) <= e1).
  { clear. revert F; induction e1 as [|n IH]; intros F; destruct F; simpl;
      try lia. specialize (IH F). lia. }
  assert (Hstray : String.length (stray (nth (String.length F - (e1 + 1)) b2 NUL)) <= 1).
  { unfold stray. destruct (Ascii.eqb _ NUL); simpl; lia. }
  rewrite length_advance. simpl String.length. lia.
Qed.

End SharedSpare.

Section SharedForm.

(** A filter that stops after its share group, as [$share/onlygroup] does,
    is not of the form of a shared subscription, and neither is one whose
    share group is empty. *)
Lemma shared_form_group_only (grp : string) :
  span group_char grp = String.length grp ->
  shared_form ("$share/" ++ grp) = None.
Proof.
  intros Hg. unfold shared_form.
  change (begins "$share/" ("$share/" ++ grp)) with true. cbv iota.
  change (advance ("$share/" ++ grp)%string 7) with grp. rewrite Hg.
  assert (Hc : char_at ("$share/" ++ grp)%string (7 + String.length grp) = NUL).
  { unfold char_at.
    assert (H : String.get (7 + String.length grp) ("$share/" ++ grp)%string = None)
      by (apply get_length; rewrite length_append; simpl; lia).
    now rewrite H. }
  rewrite Hc. change (Ascii.eqb NUL "/") with false.
  now rewrite andb_false_r.
Qed.

Lemma shared_form_empty_group (inner : string) :
  shared_form ("$share//" ++ inner) = None.
Proof. reflexivity. Qed.

Lemma regexec_shared_nomatch (F : string) :
  shared_form F = None -> fst (regexec shared_regex F 3) = REG_NOMATCH.
Proof. intros H. now rewrite regexec_shared, H. Qed.

End SharedForm.

Section MatchingBounds.

Lemma best_some (a b : result) (res : nat * captures) :
  best a b = Some res -> a = Some res \/ b = Some res.
Proof.
  destruct a as [[e1 c1]|], b as [[e2 c2]|]; simpl; try tauto.
  destruct (e2 <=? e1); tauto.
Qed.

Lemma get_some_lt (u : string) (pos : nat) (a : ascii) :
  String.get pos u = Some a -> pos < String.length u.
Proof.
  intros H. destruct (Nat.lt_ge_cases pos (String.length u)) as [Hlt|Hge];
    [exact Hlt|].
  apply get_length in Hge. congruence.
Qed.

Lemma star_iter_sound (u : string)
      (step : nat -> captures -> (nat -> captures -> result) -> result) :
  sound_step u step -> forall fuel, sound_step u (fun pos caps k => star_iter step k fuel pos caps).
Proof.
  intros Hstep fuel. induction fuel as [|f IH]; intros pos caps k' res Hpos Hc H.
  - simpl in H. exists pos, caps. repeat split; auto.
  - simpl in H. apply best_some in H. destruct H as [H|H].
    + apply Hstep in H; [|assumption|assumption].
      destruct H as (p1 & c1 & Hp1 & Hc1 & H).
      destruct (p1 =? pos); [discriminate|].
      apply IH in H; [|lia|assumption].
      destruct H as (p2 & c2 & Hp2 & Hc2 & H).
      exists p2, c2. repeat split; auto; lia.
    + exists pos, caps. repeat split; auto.
Qed.

Lemma rmatch_sound (r : regex) (u : string) : sound_step u (rmatch r u).
Proof.
  induction r as [| c | | negated items | | | r1 IH1 r2 IH2 | r1 IH1 r2 IH2
                 | r1 IH1 | n r1 IH1 | c | n];
    intros pos caps k res Hpos Hc H; simpl in H.
  - exists pos, caps. repeat split; auto.
  - destruct (String.get pos u) as [a|] eqn:Ha; [|discriminate].
    destruct (Ascii.eqb a c); [|discriminate].
    apply get_some_lt in Ha. exists (S pos), caps. repeat split; auto; lia.
  - destruct (String.get pos u) as [a|] eqn:Ha; [|discriminate].
    apply get_some_lt in Ha. exists (S pos), caps. repeat split; auto; lia.
  - destruct (String.get pos u) as [a|] eqn:Ha; [|discriminate].
    destruct (in_bracket negated items a); [|discriminate].
    apply get_some_lt in Ha. exists (S pos), caps. repeat split; auto; lia.
  - destruct (pos =? 0); [|discriminate]. exists pos, caps. repeat split; auto.
  - destruct (pos =? String.length u); [|discriminate].
    exists pos, caps. repeat split; auto.
  - apply IH1 in H; [|assumption|assumption].
    destruct H as (p1 & c1 & Hp1 & Hc1 & H).
    apply IH2 in H; [|lia|assumption].
    destruct H as (p2 & c2 & Hp2 & Hc2 & H).
    exists p2, c2. repeat split; auto; lia.
  - apply best_some in H.
    destruct H as [H|H]; [exact (IH1 _ _ _ _ Hpos Hc H) | exact (IH2 _ _ _ _ Hpos Hc H)].
  - exact (star_iter_sound u (rmatch r1 u) IH1 (S (String.length u))
             _ _ _ _ Hpos Hc H).
  - apply IH1 in H; [|assumption|assumption].
    destruct H as (p1 & c1 & Hp1 & Hc1 & H).
    exists p1, ((n, (pos, p1)) :: c1). repeat split; auto; try lia.
    constructor; [simpl; lia | assumption].
  - destruct (word_at c u pos); [|discriminate].
    exists pos, caps. repeat split; auto.
  - destruct (lookup n caps) as [[so eo]|]; [|discriminate].
    destruct (pos + (eo - so) <=? String.length u) eqn:Hle; [|discriminate].
    destruct (String.eqb _ _); [|discriminate].
    apply Nat.leb_le in Hle.
    exists (pos + (eo - so)), caps. repeat split; auto; lia.
Qed.

Lemma lookup_within (u : string) (caps : captures) (n s e : nat) :
  within u caps -> lookup n caps = Some (s, e) -> s <= e <= String.length u.
Proof.
  induction 1 as [|[m [s' e']] rest Hh _ IH]; simpl; [discriminate|].
  destruct (m =? n); [|exact IH].
  intros [= -> ->]. exact Hh.
Qed.

Lemma search_sound (r : regex) (u : string) (fuel start so eo : nat)
      (caps : captures) :
  start <= String.length u ->
  start + fuel <= String.length u ->
  search r u start fuel = Some (so, eo, caps) ->
  so <= eo <= String.length u /\ within u caps.
Proof.
  revert start; induction fuel as [|f IH]; intros start Hs Hf H; simpl in H.
  - destruct (rmatch r u start [] accept) as [[e c]|] eqn:Hm; [|discriminate].
    injection H as <- <- <-.
    apply rmatch_sound in Hm; [|assumption|constructor].
    destruct Hm as (p & c' & Hp & Hc & Ha). injection Ha as <- <-. split; [lia|auto].
  - destruct (rmatch r u start [] accept) as [[e c]|] eqn:Hm.
    + injection H as <- <- <-.
      apply rmatch_sound in Hm; [|assumption|constructor].
      destruct Hm as (p & c' & Hp & Hc & Ha). injection Ha as <- <-. split; [lia|auto].
    + apply IH in H; [exact H | lia | lia].
Qed.

(** The offsets [regexec] reports for a sub-expression lie inside the
    string, unless the sub-expression took no part in the match. *)
Lemma regexec_offsets (r : regex) (u : string) (nmatch i : nat)
      (pmatch : list regmatch_t) :
  regexec r u nmatch = (REG_NOERROR, pmatch) ->
  (0 <= rm_so (pmatch_at pmatch i) <= rm_eo (pmatch_at pmatch i)
   /\ rm_eo (pmatch_at pmatch i) <= Z.of_nat (String.length u))%Z
  \/ (rm_so (pmatch_at pmatch i) = (-1)%Z /\ rm_eo (pmatch_at pmatch i) = (-1)%Z).
Proof.
  unfold regexec.
  destruct (search r u 0 (String.length u)) as [[[so eo] caps]|] eqn:Hs;
    [|discriminate].
  intros [= <-].
  apply search_sound in Hs; [|lia|lia]. destruct Hs as [Hso Hc].
  unfold pmatch_at.
  destruct (Nat.lt_ge_cases i nmatch) as [Hi|Hi].
  - rewrite (nth_indep _ _ (subexpr so eo caps 0))
      by (rewrite length_map, length_seq; exact Hi).
    rewrite (map_nth (subexpr so eo caps)), seq_nth by exact Hi. simpl.
    destruct i as [|i]; simpl; [left; lia|].
    destruct (lookup (S i) caps) as [[s e]|] eqn:Hl; simpl; [|right; split; reflexivity].
    left. pose proof (lookup_within u caps (S i) s e Hc Hl). lia.
  - right. rewrite nth_overflow by (rewrite length_map, length_seq; exact Hi).
    split; reflexivity.
Qed.

End MatchingBounds.

Section CapturedTeam.

Lemma substring_advance (u : string) (k n : nat) :
  String.substring 0 n (advance u k) = String.substring k n u.
Proof.
  revert u; induction k as [|k IH]; intros u; simpl; [reflexivity|].
  destruct u as [|c u]; simpl; [now destruct n | apply IH].
Qed.

Lemma length_substring (u : string) (k n : nat) :
  k + n <= String.length u -> String.length (String.substring k n u) = n.
Proof.
  revert k n; induction u as [|c u IH]; intros k n H; simpl in H.
  - assert (k = 0) by lia. assert (n = 0) by lia. subst. reflexivity.
  - destruct k as [|k]; simpl.
    + destruct n as [|n]; simpl; [reflexivity|]. rewrite IH by lia. reflexivity.
    + apply IH. lia.
Qed.

(** The team [get_team] returns is the part of the username that
    sub-expression 1 matched: nothing if it matched the empty string or
    took no part in the match. *)
Lemma get_team_captured (g : plugin) (r : regex) (u T : string) (w w1 : world) :
  username_match g = Some r ->
  nonul u ->
  get_team g u w = Normal (Some T) w1 ->
  exists pmatch,
    regexec r u 2 = (REG_NOERROR, pmatch) /\
    T = String.substring (Z.to_nat (rm_so (pmatch_at pmatch 1))) (extent pmatch 1) u /\
    String.length T = extent pmatch 1.
Proof.
  intros Hg Hu H. rewrite get_team_eq, Hg in H.
  destruct (regexec r u 2) as [result pmatch] eqn:Hr.
  destruct result; try discriminate. cbn [matched] in H.
  destruct (grants w) as [|[b|] rest]; try discriminate.
  injection H as HT _. exists pmatch. split; [reflexivity|].
  unfold from in HT.
  rewrite upto_nul_nonul, substring_advance in HT by (now apply nonul_advance).
  split; [now symmetry|]. subst T.
  destruct (regexec_offsets r u 2 1 pmatch Hr) as [[H1 H2]|[H1 H2]].
  - apply length_substring. unfold extent. lia.
  - unfold extent. rewrite H1, H2. simpl. now destruct u.
Qed.

End CapturedTeam.

(* ================================================================== *)
(** * The plugin at work *)
(* ================================================================== *)

Section Scenarios.

(** On connect the team is appended to the client id. *)
Example connect_appends_team :
  connect_callback default_plugin team_client (running 2) =
  Normal (MOSQ_ERR_SUCCESS,
          {| mosquitto_client_username := Some "foo@bar";
             mosquitto_client_id := "client1@bar" |})
         (running 0).
Proof. vm_compute. reflexivity. Qed.

(** A client without a username is left alone. *)
Example anonymous_client_untouched :
  connect_callback default_plugin anonymous_client (running 2) =
    Normal (MOSQ_ERR_SUCCESS, anonymous_client) (running 2) /\
  callback_message_in default_plugin
    {| msg_client := anonymous_client; topic := "sensors/temp" |} (running 2) =
    Normal (MOSQ_ERR_SUCCESS,
            {| msg_client := anonymous_client; topic := "sensors/temp" |})
           (running 2).
Proof. split; reflexivity. Qed.

(** A publication of team [acme], a subscription of the same team and the
    delivery to the subscriber. *)
Example acme_publish_subscribe_deliver :
  callback_message_in default_plugin
    {| msg_client := acme_client; topic := "sensors/temp" |} (running 2) =
    Normal (MOSQ_ERR_SUCCESS,
            {| msg_client := acme_client; topic := "acme/sensors/temp" |})
           (running 0) /\
  callback_subscribe default_plugin
    {| sub_client := acme_client; sub_topic_filter := "sensors/#" |} (running 2) =
    Normal (MOSQ_ERR_SUCCESS,
            {| sub_client := acme_client; sub_topic_filter := "acme/sensors/#" |})
           (running 0) /\
  callback_message_out default_plugin
    {| msg_client := acme_client; topic := "acme/sensors/temp" |} (running 2) =
    Normal (MOSQ_ERR_SUCCESS,
            {| msg_client := acme_client; topic := "sensors/temp" |})
           (running 0).
Proof. repeat split; vm_compute; reflexivity. Qed.

(** A topic of another team is delivered as it is. *)
Example other_team_topic_unchanged :
  callback_message_out default_plugin
    {| msg_client := acme_client; topic := "bar/sensors/temp" |} (running 2) =
  Normal (MOSQ_ERR_SUCCESS,
          {| msg_client := acme_client; topic := "bar/sensors/temp" |})
         (running 1).
Proof. vm_compute. reflexivity. Qed.

(** An allocation the broker refuses is reported. *)
Example message_in_out_of_memory :
  callback_message_in default_plugin
    {| msg_client := acme_client; topic := "sensors/temp" |}
    {| grants := [Some []; None]; callbacks := all_callbacks |} =
  Normal (MOSQ_ERR_NOMEM, {| msg_client := acme_client; topic := "sensors/temp" |})
         (running 0).
Proof. vm_compute. reflexivity. Qed.

(** The block of the team is not checked. *)
Example get_team_out_of_memory :
  get_team default_plugin "alice@acme" (running 0) = Undefined.
Proof. vm_compute. reflexivity. Qed.

End Scenarios.

(* ================================================================== *)
(** * The claims *)
(* ================================================================== *)

Section MessageClaims.

(** C1, as amended.  For every resolved team [T] and every topic [P] that
    is not empty, whether or not it holds the marker of shared
    subscriptions: the message-in callback turns [P] into [T/P] and the
    message-out callback turns [T/P] back into [P], both reporting
    success, provided the four allocations of the two calls are
    granted. *)
Theorem roundtrip_nonempty_topic (g : plugin) (client : mosquitto)
        (username T P : string) (w w1 : world) :
  mosquitto_client_username client = Some username ->
  get_team g username w = Normal (Some T) w1 ->
  P <> EmptyString ->
  granted 4 (grants w) ->
  callback_message_in g {| msg_client := client; topic := P |} w =
    Normal (MOSQ_ERR_SUCCESS,
            {| msg_client := client; topic := (T ++ "/" ++ P)%string |}) (after 2 w)
  /\
  callback_message_out g {| msg_client := client; topic := (T ++ "/" ++ P)%string |}
                       (after 2 w) =
    Normal (MOSQ_ERR_SUCCESS, {| msg_client := client; topic := P |}) (after 4 w).
Proof.
  intros Hu Hg HP Hgr.
  destruct (get_team_some g username w w1 T Hg) as (_ & Hw1 & _ & Hagain).
  destruct w as [h cbs]. simpl in Hgr.
  destruct h as [|[b1|] [|[b2|] [|[b3|] [|[b4|] rest]]]]; simpl in Hgr;
    try contradiction.
  split.
  - rewrite (message_in_resolved g {| msg_client := client; topic := P |}
               username T _ w1 Hu Hg); subst w1; [reflexivity | exact I].
  - set (W := {| grants := Some b1 :: Some b2 :: Some b3 :: Some b4 :: rest;
                  callbacks := cbs |}).
    assert (Hg2 : get_team g username (after 2 W) = Normal (Some T) (after 3 W))
      by exact (Hagain (after 2 W) I).
    rewrite (message_out_prefixed g
               {| msg_client := client; topic := (T ++ "/" ++ P)%string |}
               username T P _ _ Hu Hg2 HP eq_refl).
    reflexivity.
Qed.

Lemma roundtrip_nonempty_topic_witness :
  callback_message_in default_plugin
    {| msg_client := team_client; topic := "sensors/temp" |} (running 4) =
    Normal (MOSQ_ERR_SUCCESS,
            {| msg_client := team_client; topic := "bar/sensors/temp" |})
           (after 2 (running 4))
  /\
  callback_message_out default_plugin
    {| msg_client := team_client; topic := "bar/sensors/temp" |}
    (after 2 (running 4)) =
    Normal (MOSQ_ERR_SUCCESS,
            {| msg_client := team_client; topic := "sensors/temp" |})
           (after 4 (running 4)).
Proof.
  apply (roundtrip_nonempty_topic default_plugin team_client "foo@bar" "bar"
           "sensors/temp" (running 4) (after 1 (running 4))).
  - reflexivity.
  - vm_compute. reflexivity.
  - discriminate.
  - simpl. exact I.
Defined.

(** C1 fails on the empty topic: for team [bar] the message-in callback
    turns the empty topic into [bar/], which the message-out callback
    leaves as it is. *)
Lemma roundtrip_empty_topic_counterexample :
  mosquitto_client_username team_client = Some "foo@bar" /\
  get_team default_plugin "foo@bar" (running 4) =
    Normal (Some "bar") (after 1 (running 4)) /\
  callback_message_in default_plugin
    {| msg_client := team_client; topic := "" |} (running 4) =
    Normal (MOSQ_ERR_SUCCESS, {| msg_client := team_client; topic := "bar/" |})
           (after 2 (running 4)) /\
  callback_message_out default_plugin
    {| msg_client := team_client; topic := "bar/" |} (after 2 (running 4)) =
    Normal (MOSQ_ERR_SUCCESS, {| msg_client := team_client; topic := "bar/" |})
           (after 3 (running 4)) /\
  "bar/" <> "".
Proof.
  repeat split; try (vm_compute; reflexivity). discriminate.
Qed.

(** C2, as amended.  For every resolved team [T] and every outgoing topic:
    if the topic is [T/] followed by at least one more character, the
    message-out callback returns what follows [T/] and reports success,
    provided the copy can be allocated (it reports [MOSQ_ERR_NOMEM] and
    leaves the topic as it is otherwise); on every other topic, the topic
    [T/] itself included, it returns the topic unchanged and reports
    success. *)
Theorem message_out_strip_rule (g : plugin) (ed : mosquitto_evt_message)
        (username T : string) (w w1 : world) :
  mosquitto_client_username (msg_client ed) = Some username ->
  get_team g username w = Normal (Some T) w1 ->
  (forall rest,
      rest <> EmptyString -> topic ed = (T ++ "/" ++ rest)%string ->
      (granted 1 (grants w1) ->
       callback_message_out g ed w =
       Normal (MOSQ_ERR_SUCCESS, {| msg_client := msg_client ed; topic := rest |})
              (after 1 w1)) /\
      (~ granted 1 (grants w1) ->
       callback_message_out g ed w = Normal (MOSQ_ERR_NOMEM, ed) (after 1 w1)))
  /\
  ((forall rest, rest <> EmptyString -> topic ed <> (T ++ "/" ++ rest)%string) ->
   callback_message_out g ed w = Normal (MOSQ_ERR_SUCCESS, ed) w1).
Proof.
  intros Hu Hg. split.
  - intros rest Hrest Htopic.
    rewrite (message_out_prefixed g ed username T rest w w1 Hu Hg Hrest Htopic).
    destruct (grants w1) as [|[b|] h]; simpl; split; intros H;
      try reflexivity; try contradiction; now elim H.
  - apply (message_out_other g ed username T w w1 Hu Hg).
Qed.

Lemma message_out_strip_rule_witness :
  (forall rest,
      rest <> EmptyString -> "bar/sensors/temp" = ("bar" ++ "/" ++ rest)%string ->
      (granted 1 (grants (after 1 (running 2))) ->
       callback_message_out default_plugin
         {| msg_client := team_client; topic := "bar/sensors/temp" |} (running 2) =
       Normal (MOSQ_ERR_SUCCESS, {| msg_client := team_client; topic := rest |})
              (after 1 (after 1 (running 2)))) /\
      (~ granted 1 (grants (after 1 (running 2))) ->
       callback_message_out default_plugin
         {| msg_client := team_client; topic := "bar/sensors/temp" |} (running 2) =
       Normal (MOSQ_ERR_NOMEM,
               {| msg_client := team_client; topic := "bar/sensors/temp" |})
              (after 1 (after 1 (running 2)))))
  /\
  ((forall rest, rest <> EmptyString ->
                 "bar/sensors/temp" <> ("bar" ++ "/" ++ rest)%string) ->
   callback_message_out default_plugin
     {| msg_client := team_client; topic := "bar/sensors/temp" |} (running 2) =
   Normal (MOSQ_ERR_SUCCESS,
           {| msg_client := team_client; topic := "bar/sensors/temp" |})
          (after 1 (running 2))).
Proof.
  apply (message_out_strip_rule default_plugin
           {| msg_client := team_client; topic := "bar/sensors/temp" |}
           "foo@bar" "bar" (running 2) (after 1 (running 2))).
  - reflexivity.
  - vm_compute. reflexivity.
Defined.

(** C2 fails on the topic that is exactly the prefix: for team [bar] the
    topic [bar/] begins with [bar/], and the message-out callback returns
    it unchanged instead of the empty rest. *)
Lemma message_out_bare_prefix_counterexample :
  get_team default_plugin "foo@bar" (running 2) =
    Normal (Some "bar") (after 1 (running 2)) /\
  "bar/" = ("bar" ++ "/" ++ "")%string /\
  callback_message_out default_plugin
    {| msg_client := team_client; topic := "bar/" |} (running 2) =
    Normal (MOSQ_ERR_SUCCESS, {| msg_client := team_client; topic := "bar/" |})
           (after 1 (running 2)) /\
  "bar/" <> "".
Proof.
  repeat split; try (vm_compute; reflexivity). discriminate.
Qed.

(** C10.  For every resolved team [T], the message-out callback leaves a
    topic of at most [strlen T + 1] characters unchanged and reports
    success; in particular the topic [T/] is passed through, not turned
    into the empty string.  The callback always ends, and the topic it
    returns is empty only if the topic it was given was. *)
Theorem message_out_short_topic_unchanged (g : plugin) (ed : mosquitto_evt_message)
        (username T : string) (w w1 : world) :
  mosquitto_client_username (msg_client ed) = Some username ->
  get_team g username w = Normal (Some T) w1 ->
  (strlen (topic ed) <= strlen T + 1 ->
   callback_message_out g ed w = Normal (MOSQ_ERR_SUCCESS, ed) w1) /\
  (topic ed = (T ++ "/")%string ->
   callback_message_out g ed w = Normal (MOSQ_ERR_SUCCESS, ed) w1) /\
  (exists rc ed' w',
      callback_message_out g ed w = Normal (rc, ed') w' /\
      (topic ed' = EmptyString -> topic ed = EmptyString)).
Proof.
  intros Hu Hg.
  assert (Hshort : strlen (topic ed) <= strlen T + 1 ->
                   callback_message_out g ed w = Normal (MOSQ_ERR_SUCCESS, ed) w1)
    by apply (message_out_short g ed username T w w1 Hu Hg).
  split; [exact Hshort|]. split.
  - intros Ht. apply Hshort. rewrite Ht. unfold strlen.
    rewrite length_append. simpl. lia.
  - destruct (Nat.le_gt_cases (strlen (topic ed)) (strlen T + 1)) as [Hle|Hgt].
    + exists MOSQ_ERR_SUCCESS, ed, w1. split; [now apply Hshort | tauto].
    + unfold callback_message_out. rewrite Hu. unfold bind at 1. rewrite Hg.
      apply Nat.leb_gt in Hgt. rewrite Hgt. apply Nat.leb_gt in Hgt.
      destruct ((strncmp T (topic ed) (strlen T) =? 0)%Z
                && Ascii.eqb (char_at (topic ed) (strlen T)) "/").
      * unfold bind at 1.
        destruct (grants w1) as [|[b|] h] eqn:Hw1.
        -- rewrite strdup_refused by (rewrite Hw1; simpl; tauto).
           exists MOSQ_ERR_NOMEM, ed, (after 1 w1). split; [reflexivity | tauto].
        -- rewrite strdup_granted by (rewrite Hw1; exact I).
           eexists _, _, _. split; [reflexivity|].
           cbn [topic]. intros He.
           pose proof (length_advance (topic ed) (strlen T + 1)) as Hl.
           rewrite He in Hl. simpl in Hl. unfold strlen in *. lia.
        -- rewrite strdup_refused by (rewrite Hw1; simpl; tauto).
           exists MOSQ_ERR_NOMEM, ed, (after 1 w1). split; [reflexivity | tauto].
      * exists MOSQ_ERR_SUCCESS, ed, w1. split; [reflexivity | tauto].
Qed.

Lemma message_out_short_topic_unchanged_witness :
  (strlen "bar/" <= strlen "bar" + 1 ->
   callback_message_out default_plugin
     {| msg_client := team_client; topic := "bar/" |} (running 2) =
   Normal (MOSQ_ERR_SUCCESS, {| msg_client := team_client; topic := "bar/" |})
          (after 1 (running 2))) /\
  ("bar/" = ("bar" ++ "/")%string ->
   callback_message_out default_plugin
     {| msg_client := team_client; topic := "bar/" |} (running 2) =
   Normal (MOSQ_ERR_SUCCESS, {| msg_client := team_client; topic := "bar/" |})
          (after 1 (running 2))) /\
  (exists rc ed' w',
      callback_message_out default_plugin
        {| msg_client := team_client; topic := "bar/" |} (running 2) =
      Normal (rc, ed') w' /\
      (topic ed' = EmptyString -> "bar/" = EmptyString)).
Proof.
  apply (message_out_short_topic_unchanged default_plugin
           {| msg_client := team_client; topic := "bar/" |}
           "foo@bar" "bar" (running 2) (after 1 (running 2))).
  - reflexivity.
  - vm_compute. reflexivity.
Defined.

End MessageClaims.

Section SubscriptionClaims.

(** C6.  For a client without a username, and for a client whose username
    [get_team] finds no team in, each of the five callbacks returns what
    it was given unchanged and reports success; nothing is allocated. *)
Theorem passthrough_without_team (g : plugin) (client : mosquitto) (s : string)
        (w : world) :
  (mosquitto_client_username client = None \/
   exists username w1,
     mosquitto_client_username client = Some username /\
     get_team g username w = Normal None w1) ->
  connect_callback g client w = Normal (MOSQ_ERR_SUCCESS, client) w /\
  callback_message_in g {| msg_client := client; topic := s |} w =
    Normal (MOSQ_ERR_SUCCESS, {| msg_client := client; topic := s |}) w /\
  callback_message_out g {| msg_client := client; topic := s |} w =
    Normal (MOSQ_ERR_SUCCESS, {| msg_client := client; topic := s |}) w /\
  callback_subscribe g {| sub_client := client; sub_topic_filter := s |} w =
    Normal (MOSQ_ERR_SUCCESS, {| sub_client := client; sub_topic_filter := s |}) w /\
  callback_unsubscribe g {| unsub_client := client; unsub_topic_filter := s |} w =
    Normal (MOSQ_ERR_SUCCESS, {| unsub_client := client; unsub_topic_filter := s |}) w.
Proof.
  unfold connect_callback, callback_message_in, callback_message_out,
    callback_subscribe, callback_unsubscribe.
  cbn [msg_client sub_client unsub_client].
  intros [Hu | (username & w1 & Hu & Hg)]; rewrite Hu.
  - repeat split; reflexivity.
  - destruct (get_team_none g username w w1 Hg) as [-> _].
    unfold bind. rewrite Hg. repeat split; reflexivity.
Qed.

Lemma passthrough_without_team_witness :
  connect_callback default_plugin plain_client (running 0) =
    Normal (MOSQ_ERR_SUCCESS, plain_client) (running 0) /\
  callback_message_in default_plugin
    {| msg_client := plain_client; topic := "sensors/temp" |} (running 0) =
    Normal (MOSQ_ERR_SUCCESS,
            {| msg_client := plain_client; topic := "sensors/temp" |}) (running 0) /\
  callback_message_out default_plugin
    {| msg_client := plain_client; topic := "sensors/temp" |} (running 0) =
    Normal (MOSQ_ERR_SUCCESS,
            {| msg_client := plain_client; topic := "sensors/temp" |}) (running 0) /\
  callback_subscribe default_plugin
    {| sub_client := plain_client; sub_topic_filter := "sensors/temp" |} (running 0) =
    Normal (MOSQ_ERR_SUCCESS,
            {| sub_client := plain_client; sub_topic_filter := "sensors/temp" |})
           (running 0) /\
  callback_unsubscribe default_plugin
    {| unsub_client := plain_client; unsub_topic_filter := "sensors/temp" |}
    (running 0) =
    Normal (MOSQ_ERR_SUCCESS,
            {| unsub_client := plain_client; unsub_topic_filter := "sensors/temp" |})
           (running 0).
Proof.
  apply (passthrough_without_team default_plugin plain_client "sensors/temp"
           (running 0)).
  right. exists "no-at-sign", (running 0). split.
  - reflexivity.
  - vm_compute. reflexivity.
Defined.

(** C4.  For every resolved team and every filter that begins with the
    marker of shared subscriptions and that the expression for shared
    subscriptions does not match, [callback_subscribe] and
    [callback_unsubscribe] report [MOSQ_ERR_NOMEM] and leave the filter as
    it was. *)
Theorem malformed_shared_filter_fails (g : plugin) (client : mosquitto)
        (username T F : string) (w w1 : world) :
  mosquitto_client_username client = Some username ->
  get_team g username w = Normal (Some T) w1 ->
  shared_sub_match g = snd (regcomp shared_pattern) ->
  begins "$share/" F = true ->
  fst (regexec shared_regex F 3) = REG_NOMATCH ->
  callback_subscribe g {| sub_client := client; sub_topic_filter := F |} w =
    Normal (MOSQ_ERR_NOMEM, {| sub_client := client; sub_topic_filter := F |})
           (after 1 w1) /\
  callback_unsubscribe g {| unsub_client := client; unsub_topic_filter := F |} w =
    Normal (MOSQ_ERR_NOMEM, {| unsub_client := client; unsub_topic_filter := F |})
           (after 1 w1).
Proof.
  intros Hu Hg Hs Hb Hm.
  rewrite regcomp_shared in Hs. cbn [snd] in Hs.
  apply begins_strncmp in Hb. change (String.length "$share/") with 7 in Hb.
  assert (Hm' : matched (fst (regexec shared_regex F 3)) = false) by now rewrite Hm.
  split.
  - exact (subscribe_malformed g {| sub_client := client; sub_topic_filter := F |}
             username T shared_regex w w1 Hu Hg Hs Hb Hm').
  - exact (unsubscribe_malformed g
             {| unsub_client := client; unsub_topic_filter := F |}
             username T shared_regex w w1 Hu Hg Hs Hb Hm').
Qed.

Lemma malformed_shared_filter_fails_witness :
  callback_subscribe default_plugin
    {| sub_client := team_client; sub_topic_filter := "$share/onlygroup" |}
    (running 2) =
    Normal (MOSQ_ERR_NOMEM,
            {| sub_client := team_client; sub_topic_filter := "$share/onlygroup" |})
           (after 1 (after 1 (running 2))) /\
  callback_unsubscribe default_plugin
    {| unsub_client := team_client; unsub_topic_filter := "$share/onlygroup" |}
    (running 2) =
    Normal (MOSQ_ERR_NOMEM,
            {| unsub_client := team_client; unsub_topic_filter := "$share/onlygroup" |})
           (after 1 (after 1 (running 2))).
Proof.
  apply (malformed_shared_filter_fails default_plugin team_client "foo@bar" "bar"
           "$share/onlygroup" (running 2) (after 1 (running 2))).
  - reflexivity.
  - vm_compute. reflexivity.
  - reflexivity.
  - reflexivity.
  - vm_compute. reflexivity.
Defined.

(** C8.  The failing input: team [bar] subscribing to [$share/g1/a/b/c]
    and then unsubscribing from the same filter.  Both callbacks copy the
    inner filter [a/b/c] into a block of their own and store its
    terminator one byte too far, so the byte at offset 5 of each block is
    what the allocator left there.  With a zeroed block for the first call
    and a block that holds the character 5 at that offset for the second,
    [callback_subscribe] returns [$share/g1/bar/a/b/c] and
    [callback_unsubscribe], for the same team and the same filter, returns
    [$share/g1/bar/a/b/c5], both with success.  With a block of just the
    size asked for in the second call, [callback_unsubscribe] stores
    outside the block where [callback_subscribe] returned with success. *)
Theorem unsubscribe_after_subscribe_differs :
  callback_subscribe default_plugin
    {| sub_client := team_client; sub_topic_filter := "$share/g1/a/b/c" |}
    (two_calls_world (repeat NUL 7) (list_ascii_of_string "0123456")) =
    Normal (MOSQ_ERR_SUCCESS,
            {| sub_client := team_client;
               sub_topic_filter := "$share/g1/bar/a/b/c" |})
           (roomy_world (list_ascii_of_string "0123456")) /\
  callback_unsubscribe default_plugin
    {| unsub_client := team_client; unsub_topic_filter := "$share/g1/a/b/c" |}
    (roomy_world (list_ascii_of_string "0123456")) =
    Normal (MOSQ_ERR_SUCCESS,
            {| unsub_client := team_client;
               unsub_topic_filter := "$share/g1/bar/a/b/c5" |})
           (running 0) /\
  callback_subscribe default_plugin
    {| sub_client := team_client; sub_topic_filter := "$share/g1/a/b/c" |}
    (two_calls_world (repeat NUL 7) []) =
    Normal (MOSQ_ERR_SUCCESS,
            {| sub_client := team_client;
               sub_topic_filter := "$share/g1/bar/a/b/c" |})
           (running 4) /\
  callback_unsubscribe default_plugin
    {| unsub_client := team_client; unsub_topic_filter := "$share/g1/a/b/c" |}
    (running 4) = Undefined.
Proof.
  repeat split; vm_compute; reflexivity.
Qed.

End SubscriptionClaims.

Section InitialisationClaims.

(** C3.  The failing input: team [bar] subscribing to [$share/g1/a/b/c].
    The terminator of the inner filter [a/b/c] is stored at offset 6 of a
    block of 6 bytes and offset 5 is never written.  With a block of just
    the size asked for the store is outside the block.  With a block that
    has spare room the rewritten filter is the expected one followed by
    the byte the allocator left at offset 5, and the expected one only if
    that byte happens to be 0. *)
Theorem subscribe_shared_off_by_one :
  get_team default_plugin "foo@bar" (running 4) =
    Normal (Some "bar") (after 1 (running 4)) /\
  callback_subscribe default_plugin
    {| sub_client := team_client; sub_topic_filter := "$share/g1/a/b/c" |}
    (running 4) = Undefined /\
  callback_subscribe default_plugin
    {| sub_client := team_client; sub_topic_filter := "$share/g1/a/b/c" |}
    {| grants := [Some []; Some []; Some [];
                  Some (list_ascii_of_string "XXXXXXX")];
       callbacks := all_callbacks |} =
    Normal (MOSQ_ERR_SUCCESS,
            {| sub_client := team_client;
               sub_topic_filter := "$share/g1/bar/a/b/cX" |})
           (running 0) /\
  callback_subscribe default_plugin
    {| sub_client := team_client; sub_topic_filter := "$share/g1/a/b/c" |}
    {| grants := [Some []; Some []; Some []; Some (repeat NUL 7)];
       callbacks := all_callbacks |} =
    Normal (MOSQ_ERR_SUCCESS,
            {| sub_client := team_client;
               sub_topic_filter := "$share/g1/bar/a/b/c" |})
           (running 0).
Proof.
  repeat split; vm_compute; reflexivity.
Qed.

(** C5, as amended.  [mosquitto_plugin_init] drops the status of
    [regcomp]: for every pattern that does not compile, given as the
    [regex] option, it still registers the five callbacks and reports
    success whenever the registrations themselves succeed.
    [username_match] is left as an object that was never compiled, so a
    later callback for a client with a username runs [regexec] on it,
    which is undefined. *)
Theorem init_ignores_compile_status (pattern : string) (w : world) :
  fst (regcomp pattern) <> REG_NOERROR ->
  callbacks w = [] ->
  granted 5 (grants w) ->
  mosquitto_plugin_init [{| key := "regex"; value := pattern |}] w =
    Normal (MOSQ_ERR_SUCCESS,
            {| username_match := None; shared_sub_match := Some shared_regex |})
           {| grants := skipn 5 (grants w); callbacks := all_callbacks |}
  /\
  forall (ed : mosquitto_evt_message) (username : string) (w' : world),
    mosquitto_client_username (msg_client ed) = Some username ->
    callback_message_in
      {| username_match := None; shared_sub_match := Some shared_regex |} ed w' =
    Undefined.
Proof.
  intros Hbad Hcb Hgr. split.
  - rewrite (init_registers _ w Hcb Hgr). do 2 f_equal.
    unfold configured, find_regex. cbn [key value].
    change (strcasecmp "regex" "regex" =? 0)%Z with true. cbv iota.
    cbn [negb]. now rewrite (regcomp_failure pattern Hbad).
  - intros ed username w' Hu. unfold callback_message_in. rewrite Hu. reflexivity.
Qed.

Lemma init_ignores_compile_status_witness :
  mosquitto_plugin_init [{| key := "regex"; value := "[a-z" |}] (fresh 5) =
    Normal (MOSQ_ERR_SUCCESS,
            {| username_match := None; shared_sub_match := Some shared_regex |})
           {| grants := skipn 5 (grants (fresh 5)); callbacks := all_callbacks |}
  /\
  forall (ed : mosquitto_evt_message) (username : string) (w' : world),
    mosquitto_client_username (msg_client ed) = Some username ->
    callback_message_in
      {| username_match := None; shared_sub_match := Some shared_regex |} ed w' =
    Undefined.
Proof.
  apply (init_ignores_compile_status "[a-z" (fresh 5)).
  - vm_compute. discriminate.
  - reflexivity.
  - simpl. exact I.
Defined.

(** C5 fails on the pattern that is a lone opening parenthesis: [regcomp]
    rejects it, and [mosquitto_plugin_init] reports success with the five
    callbacks registered. *)
Lemma init_malformed_pattern_counterexample :
  regcomp "(" = (REG_EPAREN, None) /\
  mosquitto_plugin_init [{| key := "regex"; value := "(" |}] (fresh 5) =
    Normal (MOSQ_ERR_SUCCESS,
            {| username_match := None; shared_sub_match := Some shared_regex |})
           {| grants := []; callbacks := all_callbacks |}.
Proof.
  split; vm_compute; reflexivity.
Qed.

(** C7.  When no option names a pattern, [mosquitto_plugin_init] compiles
    the default one, and then [get_team] finds the team [bar] in the
    username [foo@bar], provided its block is granted, and no team in the
    username [no-at-sign]. *)
Theorem default_pattern_extraction (opts : list mosquitto_opt) (w w' : world)
        (rc : mosq_err_t) (g : plugin) :
  Forall (fun o => strcasecmp (key o) "regex" <> 0%Z) opts ->
  mosquitto_plugin_init opts w = Normal (rc, g) w' ->
  username_match g = snd (regcomp "^[a-z0-9]+@([a-z0-9]+)$") /\
  (forall w1, granted 1 (grants w1) ->
              get_team g "foo@bar" w1 = Normal (Some "bar") (after 1 w1)) /\
  (forall w1, get_team g "no-at-sign" w1 = Normal None w1).
Proof.
  intros Hopts Hinit.
  apply init_plugin in Hinit. rewrite (configured_default opts Hopts) in Hinit.
  subst g. split; [reflexivity|]. split.
  - intros w1 Hw1. rewrite get_team_default by reflexivity.
    change (default_form "foo@bar") with (Some 4).
    destruct (grants w1) as [|[b|] rest]; simpl in Hw1; try contradiction.
    reflexivity.
  - intros w1. now rewrite get_team_default by reflexivity.
Qed.

Lemma default_pattern_extraction_witness :
  username_match default_plugin = snd (regcomp "^[a-z0-9]+@([a-z0-9]+)$") /\
  (forall w1, granted 1 (grants w1) ->
              get_team default_plugin "foo@bar" w1 = Normal (Some "bar") (after 1 w1)) /\
  (forall w1, get_team default_plugin "no-at-sign" w1 = Normal None w1).
Proof.
  apply (default_pattern_extraction [] (fresh 5) (running 0) MOSQ_ERR_SUCCESS
           default_plugin).
  - constructor.
  - vm_compute. reflexivity.
Defined.

(** C9, as amended.  For every compiled tenant pattern and every username
    that matches it, the team [get_team] returns is the part of the
    username that sub-expression 1 matched; it is not empty exactly when
    that sub-expression matched one character or more, which is always so
    with the default pattern. *)
Theorem team_nonempty_iff_captured (g : plugin) (r : regex) (u T : string)
        (w w1 : world) :
  username_match g = Some r ->
  nonul u ->
  get_team g u w = Normal (Some T) w1 ->
  (exists pmatch,
      regexec r u 2 = (REG_NOERROR, pmatch) /\
      T = String.substring (Z.to_nat (rm_so (pmatch_at pmatch 1)))
                           (extent pmatch 1) u /\
      (T <> EmptyString <->
       (rm_so (pmatch_at pmatch 1) < rm_eo (pmatch_at pmatch 1))%Z))
  /\
  (Some r = snd (regcomp default_pattern) -> T <> EmptyString).
Proof.
  intros Hg Hu H. split.
  - destruct (get_team_captured g r u T w w1 Hg Hu H) as (pmatch & Hr & HT & Hlen).
    exists pmatch. split; [exact Hr|]. split; [exact HT|].
    unfold extent in Hlen. split.
    + intros Hne. destruct T; [contradiction|]. simpl in Hlen. lia.
    + intros Hlt He. rewrite He in Hlen. simpl in Hlen. lia.
  - intros Hd. rewrite regcomp_default in Hd. cbn [snd] in Hd.
    injection Hd as ->.
    rewrite (get_team_default g u w Hg) in H.
    destruct (default_form u) as [so|] eqn:Hf; [|discriminate].
    destruct (grants w) as [|[b|] rest]; try discriminate.
    injection H as HT _.
    destruct (default_form_some u so Hf) as (_ & Hlen & _).
    subst T. intros He. rewrite He in Hlen. simpl in Hlen. lia.
Qed.

Lemma team_nonempty_iff_captured_witness :
  (exists pmatch,
      regexec default_regex "foo@bar" 2 = (REG_NOERROR, pmatch) /\
      "bar" = String.substring (Z.to_nat (rm_so (pmatch_at pmatch 1)))
                               (extent pmatch 1) "foo@bar" /\
      ("bar" <> EmptyString <->
       (rm_so (pmatch_at pmatch 1) < rm_eo (pmatch_at pmatch 1))%Z))
  /\
  (Some default_regex = snd (regcomp default_pattern) -> "bar" <> EmptyString).
Proof.
  apply (team_nonempty_iff_captured default_plugin default_regex "foo@bar" "bar"
           (running 1) (after 1 (running 1))).
  - reflexivity.
  - simpl. repeat split; discriminate.
  - vm_compute. reflexivity.
Defined.

(** C9 fails for a pattern whose group can match the empty string: with
    the default pattern changed to let the group repeat its class zero
    times or more, the username [foo@] matches and the team is the empty
    string. *)
Lemma empty_team_counterexample :
  exists r,
    regcomp "^[a-z0-9]+@([a-z0-9]*)$" = (REG_NOERROR, Some r) /\
    fst (regexec r "foo@" 2) = REG_NOERROR /\
    get_team {| username_match := Some r; shared_sub_match := Some shared_regex |}
             "foo@" (running 1) =
      Normal (Some "") (after 1 (running 1)).
Proof.
  eexists. split; [vm_compute; reflexivity|].
  split; vm_compute; reflexivity.
Qed.

End InitialisationClaims.

(* ================================================================== *)
(** * Strings split at a separator *)
(* ================================================================== *)

Section Separators.

Variable p : ascii -> bool.

Lemma made_of_cons (c : ascii) (s : string) :
  made_of p (String c s) <-> p c = true /\ made_of p s.
Proof.
  unfold made_of. simpl. destruct (p c); split.
  - intros [= H]. now split.
  - intros [_ H]. now rewrite H.
  - discriminate.
  - intros [H _]. discriminate.
Qed.

Lemma made_of_sep (x y : string) (c : ascii) :
  made_of p (x ++ String c y)%string -> p c = true.
Proof.
  induction x as [|d x IH]; simpl; intros H; apply made_of_cons in H;
    [tauto | apply IH; tauto].
Qed.

Lemma span_sep (a r : string) (c : ascii) :
  made_of p a -> p c = false -> span p (a ++ String c r)%string = String.length a.
Proof.
  intros Ha Hc. induction a as [|d a IH]; simpl.
  - now rewrite Hc.
  - apply made_of_cons in Ha. destruct Ha as [Hd Ha]. rewrite Hd. now rewrite IH.
Qed.

(** A string over the class, the separator and a rest: the first two are
    determined by the whole. *)
Lemma split_first (t1 t2 r1 r2 : string) (c : ascii) :
  made_of p t1 -> made_of p t2 -> p c = false ->
  (t1 ++ String c r1 = t2 ++ String c r2)%string -> t1 = t2 /\ r1 = r2.
Proof.
  intros H1 H2 Hc. revert t2 H2.
  induction t1 as [|a t1 IH]; intros t2 H2 E; destruct t2 as [|b t2]; simpl in E.
  - injection E as <-. now split.
  - injection E as <- _. apply made_of_cons in H2. destruct H2 as [H2 _]. congruence.
  - injection E as -> _. apply made_of_cons in H1. destruct H1 as [H1 _]. congruence.
  - injection E as <- E. apply made_of_cons in H1, H2.
    destruct (IH (proj2 H1) t2 (proj2 H2) E) as [-> ->]. now split.
Qed.

(** A front, the separator and a string over the class: the last two are
    determined by the whole. *)
Lemma split_last (s1 s2 t1 t2 : string) (c : ascii) :
  made_of p t1 -> made_of p t2 -> p c = false ->
  (s1 ++ String c t1 = s2 ++ String c t2)%string -> s1 = s2 /\ t1 = t2.
Proof.
  intros H1 H2 Hc. revert s2.
  induction s1 as [|a s1 IH]; intros s2 E; destruct s2 as [|b s2]; simpl in E.
  - injection E as <-. now split.
  - injection E as _ E. subst t1. apply made_of_sep in H1. congruence.
  - injection E as _ E. subst t2. apply made_of_sep in H2. congruence.
  - injection E as <- E. destruct (IH s2 E) as [-> ->]. now split.
Qed.

Lemma made_of_substring_span (u : string) :
  made_of p (String.substring 0 (span p u) u) /\
  String.length (String.substring 0 (span p u) u) = span p u.
Proof.
  unfold made_of. induction u as [|c u [IH1 IH2]]; simpl; [now split|].
  destruct (p c) eqn:E; simpl; [|now split].
  rewrite E, IH1, IH2. now split.
Qed.

End Separators.

Section Splitting.

Lemma substring_advance_split (u : string) (n : nat) :
  u = (String.substring 0 n u ++ advance u n)%string.
Proof.
  revert u; induction n as [|n IH]; intros u; destruct u as [|c u]; simpl;
    try reflexivity.
  now rewrite <- IH.
Qed.

Lemma substring_append (a b : string) :
  String.substring 0 (String.length a) (a ++ b) = a.
Proof.
  induction a as [|c a IH]; simpl; [now destruct b | now rewrite IH].
Qed.

Lemma char_at_advance (u : string) (n : nat) (c : ascii) :
  c <> NUL -> char_at u n = c -> advance u n = String c (advance u (n + 1)).
Proof.
  intros Hc H. unfold char_at in H.
  destruct (String.get n u) as [a|] eqn:Ha; [|congruence].
  subst a. rewrite Nat.add_1_r. now apply get_some_advance.
Qed.

Lemma nonul_append (a b : string) : nonul a -> nonul b -> nonul (a ++ b)%string.
Proof.
  intros Ha Hb. induction a as [|c a IH]; simpl; [exact Hb|].
  destruct Ha as [Hc Ha]. split; [exact Hc | now apply IH].
Qed.

End Splitting.

(* ================================================================== *)
(** * The two forms, spelled out *)
(* ================================================================== *)

Section Forms.

Lemma default_form_intro (a b : string) :
  a <> EmptyString -> b <> EmptyString ->
  made_of tenant_char a -> made_of tenant_char b ->
  default_form (a ++ "@" ++ b) = Some (String.length a + 1).
Proof.
  intros Ha Hb Hma Hmb. unfold default_form.
  change (a ++ "@" ++ b)%string with (a ++ String "@" b)%string.
  rewrite (span_sep tenant_char a b "@" Hma eq_refl).
  assert (H0 : (0 <? String.length a) = true)
    by (apply Nat.ltb_lt; destruct a; [contradiction | simpl; lia]).
  rewrite H0, char_at_append. change (char_at (String "@" b) 0) with "@"%char.
  cbn [Ascii.eqb Bool.eqb andb].
  rewrite Nat.add_1_r, advance_S, advance_append. cbn [advance].
  rewrite Hmb.
  assert (H1 : (0 <? String.length b) = true)
    by (apply Nat.ltb_lt; destruct b; [contradiction | simpl; lia]).
  rewrite H1, length_append. cbn [String.length andb].
  assert (H2 : (S (String.length a) + String.length b
                =? String.length a + S (String.length b)) = true)
    by (apply Nat.eqb_eq; lia).
  now rewrite H2.
Qed.

Lemma default_form_elim (u : string) (so : nat) :
  default_form u = Some so ->
  exists a,
    u = (a ++ "@" ++ advance u so)%string /\ so = String.length a + 1 /\
    a <> EmptyString /\ advance u so <> EmptyString /\
    made_of tenant_char a /\ made_of tenant_char (advance u so).
Proof.
  intros Hf. destruct (default_form_some u so Hf) as (_ & Hlen & Hspan).
  unfold default_form in Hf.
  destruct (0 <? span tenant_char u) eqn:H0; [|discriminate].
  destruct (Ascii.eqb (char_at u (span tenant_char u)) "@") eqn:Hat; [|discriminate].
  cbn [andb] in Hf.
  destruct ((0 <? span tenant_char (advance u (span tenant_char u + 1)))
            && (span tenant_char u + 1
                + span tenant_char (advance u (span tenant_char u + 1))
                =? String.length u)); [|discriminate].
  assert (Hso : span tenant_char u + 1 = so) by congruence.
  apply Ascii.eqb_eq in Hat. apply Nat.ltb_lt in H0.
  destruct (made_of_substring_span tenant_char u) as [Hm Hl].
  exists (String.substring 0 (span tenant_char u) u).
  rewrite Hl. repeat split; auto.
  - rewrite (substring_advance_split u (span tenant_char u)) at 1. f_equal.
    rewrite <- Hso. apply char_at_advance; [discriminate | exact Hat].
  - intros He. rewrite He in Hl. simpl in Hl. lia.
  - intros He. rewrite He in Hlen. simpl in Hlen. lia.
Qed.

Lemma shared_form_intro (grp inner : string) :
  grp <> EmptyString -> inner <> EmptyString -> made_of group_char grp ->
  shared_form ("$share/" ++ grp ++ "/" ++ inner) = Some (7 + String.length grp).
Proof.
  intros Hg Hi Hm. unfold shared_form.
  change (begins "$share/" ("$share/" ++ grp ++ "/" ++ inner)) with true. cbv iota.
  change (advance ("$share/" ++ grp ++ "/" ++ inner)%string 7)
    with (grp ++ String "/" inner)%string.
  rewrite (span_sep group_char grp inner "/" Hm eq_refl).
  assert (H0 : (0 <? String.length grp) = true)
    by (apply Nat.ltb_lt; destruct grp; [contradiction | simpl; lia]).
  rewrite H0.
  assert (Hc : char_at ("$share/" ++ grp ++ "/" ++ inner)%string
                       (7 + String.length grp) = "/"%char).
  { change ("$share/" ++ grp ++ "/" ++ inner)%string
      with ("$share/" ++ (grp ++ String "/" inner))%string.
    unfold char_at. rewrite get_advance.
    replace (7 + String.length grp) with (String.length grp + 7) by lia.
    assert (Hadv : forall s n, advance ("$share/" ++ s)%string (n + 7) = advance s n).
    { intros s n. rewrite Nat.add_comm. reflexivity. }
    rewrite Hadv, advance_append. reflexivity. }
  rewrite Hc. cbn [Ascii.eqb Bool.eqb andb].
  assert (H1 : (7 + String.length grp + 1
                <? String.length ("$share/" ++ grp ++ "/" ++ inner)%string) = true).
  { apply Nat.ltb_lt. rewrite !length_append. simpl.
    destruct inner; [contradiction | simpl; lia]. }
  now rewrite H1.
Qed.

(** With the default expression a team is one or more characters of the
    class. *)
Lemma default_team_made_of (g : plugin) (u T : string) (w w1 : world) :
  username_match g = Some default_regex ->
  get_team g u w = Normal (Some T) w1 ->
  T <> EmptyString /\ made_of tenant_char T.
Proof.
  intros Hg H. rewrite (get_team_default g u w Hg) in H.
  destruct (default_form u) as [so|] eqn:Hf; [|discriminate].
  destruct (grants w) as [|[b|] rest]; try discriminate.
  injection H as HT _. subst T.
  destruct (default_form_elim u so Hf) as (a & _ & _ & _ & Hne & _ & Hm).
  now split.
Qed.

End Forms.

(* ================================================================== *)
(** * Further properties of the callbacks *)
(* ================================================================== *)

Section CallbackFacts.

Lemma not_granted (w : world) :
  ~ granted 1 (grants w) ->
  match grants w with Some _ :: _ => False | _ => True end.
Proof. destruct (grants w) as [|[b|] rest]; simpl; tauto. Qed.

(** [callback_unsubscribe] ends as [callback_subscribe] does, on every
    client, filter and world. *)
Lemma unsubscribe_observed (g : plugin) (client : mosquitto) (F : string) (w : world) :
  observe_unsubscribe
    (callback_unsubscribe g {| unsub_client := client; unsub_topic_filter := F |} w) =
  observe_subscribe
    (callback_subscribe g {| sub_client := client; sub_topic_filter := F |} w).
Proof.
  unfold callback_unsubscribe, callback_subscribe.
  cbn [unsub_client unsub_topic_filter sub_client sub_topic_filter].
  destruct (mosquitto_client_username client) as [username|]; [|reflexivity].
  unfold bind, defined, undefined, ret, mosquitto_free.
  destruct (get_team g username w) as [[T|] w1|]; try reflexivity.
  destruct (strncmp F "$share/" 7 =? 0)%Z.
  - destruct (mosquitto_calloc 1 _ w1) as [[b|] w2|]; try reflexivity.
    destruct (regexec_on (shared_sub_match g) F 3 w2) as [[rc pmatch] w3|];
      [|reflexivity].
    destruct (matched rc); [|reflexivity].
    destruct (mosquitto_malloc (extent pmatch 1 + 1) w3) as [share_group w4|];
      [|reflexivity].
    destruct (mosquitto_malloc (extent pmatch 2 + 1) w4) as [topic_block w5|];
      [|reflexivity].
    destruct share_group as [b1|]; [|reflexivity].
    destruct (strncpy b1 (from F pmatch 1) (extent pmatch 1)) as [b2|];
      [|reflexivity].
    destruct (store b2 (extent pmatch 1) NUL) as [b3|]; [|reflexivity].
    destruct topic_block as [t1|]; [|reflexivity].
    destruct (strncpy t1 (from F pmatch 2) (extent pmatch 2)) as [t2|];
      [|reflexivity].
    destruct (store t2 (extent pmatch 2 + 1) NUL) as [t3|]; [|reflexivity].
    destruct (cstr b3) as [sg|]; [|reflexivity].
    destruct (cstr t3) as [tp|]; reflexivity.
  - destruct (mosquitto_calloc 1 _ w1) as [[b|] w2|]; reflexivity.
Qed.

(** The buffer [connect_callback] allocates is large enough for the new
    id. *)
Lemma connect_resolved (g : plugin) (client : mosquitto) (username T : string)
      (w w1 : world) :
  mosquitto_client_username client = Some username ->
  get_team g username w = Normal (Some T) w1 ->
  granted 1 (grants w1) ->
  connect_callback g client w =
  Normal (MOSQ_ERR_SUCCESS,
          {| mosquitto_client_username := Some username;
             mosquitto_client_id := (mosquitto_client_id client ++ "@" ++ T)%string |})
         (after 1 w1).
Proof.
  intros Hu Hg Hw1. unfold connect_callback. rewrite Hu.
  unfold bind at 1. rewrite Hg. unfold bind at 1. cbv beta.
  destruct (calloc_granted 1
              (strlen T + sizeof_char_constant + strlen (mosquitto_client_id client) + 1)
              w1 Hw1) as [b ->].
  unfold bind, mosquitto_free, ret, snprintf, mosquitto_set_clientid.
  rewrite Hu, substring_all; [reflexivity|].
  unfold strlen, sizeof_char_constant. rewrite length_append. simpl. lia.
Qed.

End CallbackFacts.

Section CallbackOutcomes.

(** X1.  For a client with a team, [connect_callback] sets the client id to
    the id, an at sign and the team, keeps the username and reports
    success; if the buffer for the new id is refused it reports
    [MOSQ_ERR_NOMEM] and leaves the client as it was. *)
Theorem connect_rewrites_client_id (g : plugin) (client : mosquitto)
        (username T : string) (w w1 : world) :
  mosquitto_client_username client = Some username ->
  get_team g username w = Normal (Some T) w1 ->
  (granted 1 (grants w1) ->
   connect_callback g client w =
   Normal (MOSQ_ERR_SUCCESS,
           {| mosquitto_client_username := Some username;
              mosquitto_client_id := (mosquitto_client_id client ++ "@" ++ T)%string |})
          (after 1 w1)) /\
  (~ granted 1 (grants w1) ->
   connect_callback g client w = Normal (MOSQ_ERR_NOMEM, client) (after 1 w1)).
Proof.
  intros Hu Hg. split; intros Hw1.
  - exact (connect_resolved g client username T w w1 Hu Hg Hw1).
  - unfold connect_callback. rewrite Hu.
    unfold bind at 1. rewrite Hg. unfold bind at 1. cbv beta.
    now rewrite calloc_refused by exact Hw1.
Qed.

Lemma connect_rewrites_client_id_witness :
  (granted 1 (grants (after 1 (running 2))) ->
   connect_callback default_plugin team_client (running 2) =
   Normal (MOSQ_ERR_SUCCESS,
           {| mosquitto_client_username := Some "foo@bar";
              mosquitto_client_id := ("client1" ++ "@" ++ "bar")%string |})
          (after 1 (after 1 (running 2)))) /\
  (~ granted 1 (grants (after 1 (running 2))) ->
   connect_callback default_plugin team_client (running 2) =
   Normal (MOSQ_ERR_NOMEM, team_client) (after 1 (after 1 (running 2)))).
Proof.
  apply (connect_rewrites_client_id default_plugin team_client "foo@bar" "bar"
           (running 2) (after 1 (running 2))).
  - reflexivity.
  - vm_compute. reflexivity.
Defined.

(** X2.  For a client with a team, [callback_message_in] puts the team and
    a slash in front of every topic, the empty topic and a topic that
    carries the marker of shared subscriptions included, and reports
    success; if the buffer is refused it reports [MOSQ_ERR_NOMEM] and
    leaves the topic as it was. *)
Theorem message_in_prepends_team (g : plugin) (ed : mosquitto_evt_message)
        (username T : string) (w w1 : world) :
  mosquitto_client_username (msg_client ed) = Some username ->
  get_team g username w = Normal (Some T) w1 ->
  (granted 1 (grants w1) ->
   callback_message_in g ed w =
   Normal (MOSQ_ERR_SUCCESS,
           {| msg_client := msg_client ed; topic := (T ++ "/" ++ topic ed)%string |})
          (after 1 w1)) /\
  (~ granted 1 (grants w1) ->
   callback_message_in g ed w = Normal (MOSQ_ERR_NOMEM, ed) (after 1 w1)).
Proof.
  intros Hu Hg. split; intros Hw1.
  - exact (message_in_resolved g ed username T w w1 Hu Hg Hw1).
  - unfold callback_message_in. rewrite Hu. unfold bind at 1. rewrite Hg.
    unfold bind at 1. cbv beta. now rewrite calloc_refused by exact Hw1.
Qed.

Lemma message_in_prepends_team_witness :
  (granted 1 (grants (after 1 (running 2))) ->
   callback_message_in default_plugin
     {| msg_client := team_client; topic := "$share/g/x" |} (running 2) =
   Normal (MOSQ_ERR_SUCCESS,
           {| msg_client := team_client; topic := ("bar" ++ "/" ++ "$share/g/x")%string |})
          (after 1 (after 1 (running 2)))) /\
  (~ granted 1 (grants (after 1 (running 2))) ->
   callback_message_in default_plugin
     {| msg_client := team_client; topic := "$share/g/x" |} (running 2) =
   Normal (MOSQ_ERR_NOMEM, {| msg_client := team_client; topic := "$share/g/x" |})
          (after 1 (after 1 (running 2)))).
Proof.
  apply (message_in_prepends_team default_plugin
           {| msg_client := team_client; topic := "$share/g/x" |}
           "foo@bar" "bar" (running 2) (after 1 (running 2))).
  - reflexivity.
  - vm_compute. reflexivity.
Defined.

(** X3.  For a client with a team and a filter that does not begin with
    the marker of shared subscriptions, [callback_subscribe] and
    [callback_unsubscribe] both put the team and a slash in front of the
    filter; if the buffer is refused both report [MOSQ_ERR_NOMEM] and
    leave the filter as it was. *)
Theorem plain_filter_rewrite (g : plugin) (client : mosquitto)
        (username T F : string) (w w1 : world) :
  mosquitto_client_username client = Some username ->
  get_team g username w = Normal (Some T) w1 ->
  strncmp F "$share/" 7 <> 0%Z ->
  (granted 1 (grants w1) ->
   callback_subscribe g {| sub_client := client; sub_topic_filter := F |} w =
     Normal (MOSQ_ERR_SUCCESS,
             {| sub_client := client; sub_topic_filter := (T ++ "/" ++ F)%string |})
            (after 1 w1) /\
   callback_unsubscribe g {| unsub_client := client; unsub_topic_filter := F |} w =
     Normal (MOSQ_ERR_SUCCESS,
             {| unsub_client := client; unsub_topic_filter := (T ++ "/" ++ F)%string |})
            (after 1 w1)) /\
  (~ granted 1 (grants w1) ->
   callback_subscribe g {| sub_client := client; sub_topic_filter := F |} w =
     Normal (MOSQ_ERR_NOMEM, {| sub_client := client; sub_topic_filter := F |})
            (after 1 w1) /\
   callback_unsubscribe g {| unsub_client := client; unsub_topic_filter := F |} w =
     Normal (MOSQ_ERR_NOMEM, {| unsub_client := client; unsub_topic_filter := F |})
            (after 1 w1)).
Proof.
  intros Hu Hg Hs. split; intros Hw1.
  - split.
    + exact (subscribe_plain g {| sub_client := client; sub_topic_filter := F |}
               username T w w1 Hu Hg Hs Hw1).
    + exact (unsubscribe_plain g {| unsub_client := client; unsub_topic_filter := F |}
               username T w w1 Hu Hg Hs Hw1).
  - apply Z.eqb_neq in Hs.
    unfold callback_subscribe, callback_unsubscribe.
    cbn [sub_client sub_topic_filter unsub_client unsub_topic_filter].
    rewrite Hu.
    split; unfold bind at 1; rewrite Hg, Hs; unfold bind at 1; cbv beta;
      now rewrite calloc_refused by exact Hw1.
Qed.

Lemma plain_filter_rewrite_witness :
  (granted 1 (grants (after 1 (running 2))) ->
   callback_subscribe default_plugin
     {| sub_client := team_client; sub_topic_filter := "$share" |} (running 2) =
     Normal (MOSQ_ERR_SUCCESS,
             {| sub_client := team_client;
                sub_topic_filter := ("bar" ++ "/" ++ "$share")%string |})
            (after 1 (after 1 (running 2))) /\
   callback_unsubscribe default_plugin
     {| unsub_client := team_client; unsub_topic_filter := "$share" |} (running 2) =
     Normal (MOSQ_ERR_SUCCESS,
             {| unsub_client := team_client;
                unsub_topic_filter := ("bar" ++ "/" ++ "$share")%string |})
            (after 1 (after 1 (running 2)))) /\
  (~ granted 1 (grants (after 1 (running 2))) ->
   callback_subscribe default_plugin
     {| sub_client := team_client; sub_topic_filter := "$share" |} (running 2) =
     Normal (MOSQ_ERR_NOMEM,
             {| sub_client := team_client; sub_topic_filter := "$share" |})
            (after 1 (after 1 (running 2))) /\
   callback_unsubscribe default_plugin
     {| unsub_client := team_client; unsub_topic_filter := "$share" |} (running 2) =
     Normal (MOSQ_ERR_NOMEM,
             {| unsub_client := team_client; unsub_topic_filter := "$share" |})
            (after 1 (after 1 (running 2)))).
Proof.
  apply (plain_filter_rewrite default_plugin team_client "foo@bar" "bar" "$share"
           (running 2) (after 1 (running 2))).
  - reflexivity.
  - vm_compute. reflexivity.
  - vm_compute. discriminate.
Defined.

(** X4.  [get_team] does not check the block it asks for: when the
    username matches and the allocator refuses the block, the copy goes
    through a null pointer, in [get_team] and so in each of the five
    callbacks. *)
Theorem refused_team_block_is_undefined (g : plugin) (r : regex)
        (client : mosquitto) (username s : string) (w : world) :
  mosquitto_client_username client = Some username ->
  username_match g = Some r ->
  fst (regexec r username 2) = REG_NOERROR ->
  ~ granted 1 (grants w) ->
  get_team g username w = Undefined /\
  connect_callback g client w = Undefined /\
  callback_message_in g {| msg_client := client; topic := s |} w = Undefined /\
  callback_message_out g {| msg_client := client; topic := s |} w = Undefined /\
  callback_subscribe g {| sub_client := client; sub_topic_filter := s |} w = Undefined /\
  callback_unsubscribe g {| unsub_client := client; unsub_topic_filter := s |} w
    = Undefined.
Proof.
  intros Hu Hg Hm Hw.
  assert (H : get_team g username w = Undefined).
  { rewrite get_team_eq, Hg. destruct (regexec r username 2) as [rc pm].
    simpl in Hm. subst rc. cbn [matched]. apply not_granted in Hw.
    destruct (grants w) as [|[b|] rest]; try reflexivity. contradiction. }
  unfold connect_callback, callback_message_in, callback_message_out,
    callback_subscribe, callback_unsubscribe.
  cbn [msg_client sub_client unsub_client]. rewrite Hu. unfold bind. rewrite H.
  repeat split; reflexivity.
Qed.

Lemma refused_team_block_is_undefined_witness :
  get_team default_plugin "foo@bar" (running 0) = Undefined /\
  connect_callback default_plugin team_client (running 0) = Undefined /\
  callback_message_in default_plugin
    {| msg_client := team_client; topic := "a/b" |} (running 0) = Undefined /\
  callback_message_out default_plugin
    {| msg_client := team_client; topic := "a/b" |} (running 0) = Undefined /\
  callback_subscribe default_plugin
    {| sub_client := team_client; sub_topic_filter := "a/b" |} (running 0) = Undefined /\
  callback_unsubscribe default_plugin
    {| unsub_client := team_client; unsub_topic_filter := "a/b" |} (running 0)
    = Undefined.
Proof.
  apply (refused_team_block_is_undefined default_plugin default_regex team_client
           "foo@bar" "a/b" (running 0)).
  - reflexivity.
  - reflexivity.
  - vm_compute. reflexivity.
  - simpl. tauto.
Defined.

(** X5.  The team found in a username does not depend on the state of the
    broker or on what the block it is copied into held: whenever the block
    is granted the same team comes back, it holds no terminator, and one
    allocation is all the call uses. *)
Theorem team_is_the_same_on_every_call (g : plugin) (u T : string)
        (w w1 w' : world) :
  get_team g u w = Normal (Some T) w1 ->
  granted 1 (grants w') ->
  get_team g u w' = Normal (Some T) (after 1 w') /\ w1 = after 1 w /\ nonul T.
Proof.
  intros H Hw'.
  destruct (get_team_some g u w w1 T H) as (Hn & Hw1 & _ & Hagain).
  split; [now apply Hagain | now split].
Qed.

Lemma team_is_the_same_on_every_call_witness :
  get_team default_plugin "foo@bar"
    {| grants := [Some (list_ascii_of_string "garbage")]; callbacks := [] |} =
    Normal (Some "bar")
      (after 1 {| grants := [Some (list_ascii_of_string "garbage")]; callbacks := [] |})
  /\ after 1 (running 1) = after 1 (running 1) /\ nonul "bar".
Proof.
  apply (team_is_the_same_on_every_call default_plugin "foo@bar" "bar" (running 1)
           (after 1 (running 1))
           {| grants := [Some (list_ascii_of_string "garbage")]; callbacks := [] |}).
  - vm_compute. reflexivity.
  - simpl. exact I.
Defined.

End CallbackOutcomes.

Section DefaultPattern.

(** X6.  With the default pattern, a username made of one or more
    characters of [a-z0-9], an at sign and one or more characters of
    [a-z0-9] has a team: what follows the at sign. *)
Theorem default_pattern_resolves_team (g : plugin) (a b : string) (w : world) :
  username_match g = snd (regcomp default_pattern) ->
  a <> EmptyString -> b <> EmptyString ->
  made_of tenant_char a -> made_of tenant_char b ->
  granted 1 (grants w) ->
  get_team g (a ++ "@" ++ b) w = Normal (Some b) (after 1 w).
Proof.
  intros Hg Ha Hb Hma Hmb Hw.
  rewrite regcomp_default in Hg. cbn [snd] in Hg.
  rewrite (get_team_default g _ w Hg), (default_form_intro a b Ha Hb Hma Hmb).
  destruct (grants w) as [|[x|] rest]; simpl in Hw; try contradiction.
  rewrite Nat.add_1_r, advance_S, advance_append. reflexivity.
Qed.

Lemma default_pattern_resolves_team_witness :
  get_team default_plugin ("alice" ++ "@" ++ "acme") (running 1) =
  Normal (Some "acme") (after 1 (running 1)).
Proof.
  apply (default_pattern_resolves_team default_plugin "alice" "acme" (running 1)).
  - reflexivity.
  - discriminate.
  - discriminate.
  - reflexivity.
  - reflexivity.
  - simpl. exact I.
Defined.

(** X7.  With the default pattern, every username that is not of that
    form has no team, and nothing is allocated for it: an upper-case
    letter, a dot or a second at sign is enough. *)
Theorem default_pattern_rejects_other_usernames (g : plugin) (u : string) (w : world) :
  username_match g = snd (regcomp default_pattern) ->
  (forall a b, a <> EmptyString -> b <> EmptyString ->
               made_of tenant_char a -> made_of tenant_char b ->
               u <> (a ++ "@" ++ b)%string) ->
  get_team g u w = Normal None w.
Proof.
  intros Hg Hno.
  rewrite regcomp_default in Hg. cbn [snd] in Hg.
  rewrite (get_team_default g u w Hg).
  destruct (default_form u) as [so|] eqn:Hf; [|reflexivity].
  exfalso.
  destruct (default_form_elim u so Hf) as (a & Hu & _ & Ha & Hb & Hma & Hmb).
  exact (Hno a (advance u so) Ha Hb Hma Hmb Hu).
Qed.

Lemma default_pattern_rejects_other_usernames_witness :
  get_team default_plugin "Foo@bar" (running 1) = Normal None (running 1).
Proof.
  apply (default_pattern_rejects_other_usernames default_plugin "Foo@bar" (running 1)).
  - reflexivity.
  - intros a b Ha _ Hma _ E.
    destruct a as [|c a]; [contradiction|].
    simpl in E. injection E as <- _.
    apply made_of_cons in Hma. destruct Hma as [Hc _]. discriminate Hc.
Defined.

(** X8.  With the default pattern the name spaces of two teams do not
    meet: if two publications come out of [callback_message_in] with the
    same topic, they came from the same team with the same topic. *)
Theorem default_namespaces_do_not_meet (g : plugin) (c1 c2 : mosquitto)
        (u1 u2 T1 T2 P1 P2 : string) (wa wa1 wb wb1 : world) :
  username_match g = snd (regcomp default_pattern) ->
  mosquitto_client_username c1 = Some u1 ->
  mosquitto_client_username c2 = Some u2 ->
  get_team g u1 wa = Normal (Some T1) wa1 ->
  get_team g u2 wb = Normal (Some T2) wb1 ->
  granted 1 (grants wa1) ->
  granted 1 (grants wb1) ->
  exists t1 t2,
    callback_message_in g {| msg_client := c1; topic := P1 |} wa =
      Normal (MOSQ_ERR_SUCCESS, {| msg_client := c1; topic := t1 |}) (after 1 wa1) /\
    callback_message_in g {| msg_client := c2; topic := P2 |} wb =
      Normal (MOSQ_ERR_SUCCESS, {| msg_client := c2; topic := t2 |}) (after 1 wb1) /\
    (t1 = t2 -> T1 = T2 /\ P1 = P2).
Proof.
  intros Hg Hu1 Hu2 Ht1 Ht2 Hw1 Hw2.
  rewrite regcomp_default in Hg. cbn [snd] in Hg.
  exists (T1 ++ "/" ++ P1)%string, (T2 ++ "/" ++ P2)%string.
  split; [exact (message_in_resolved g {| msg_client := c1; topic := P1 |}
                   u1 T1 wa wa1 Hu1 Ht1 Hw1)|].
  split; [exact (message_in_resolved g {| msg_client := c2; topic := P2 |}
                   u2 T2 wb wb1 Hu2 Ht2 Hw2)|].
  destruct (default_team_made_of g u1 T1 wa wa1 Hg Ht1) as [_ Hm1].
  destruct (default_team_made_of g u2 T2 wb wb1 Hg Ht2) as [_ Hm2].
  apply (split_first tenant_char T1 T2 P1 P2 "/" Hm1 Hm2 eq_refl).
Qed.

Lemma default_namespaces_do_not_meet_witness :
  exists t1 t2,
    callback_message_in default_plugin
      {| msg_client := team_client; topic := "sensors/temp" |} (running 2) =
      Normal (MOSQ_ERR_SUCCESS, {| msg_client := team_client; topic := t1 |})
             (after 1 (after 1 (running 2))) /\
    callback_message_in default_plugin
      {| msg_client := acme_client; topic := "sensors/temp" |} (running 2) =
      Normal (MOSQ_ERR_SUCCESS, {| msg_client := acme_client; topic := t2 |})
             (after 1 (after 1 (running 2))) /\
    (t1 = t2 -> "bar" = "acme" /\ "sensors/temp" = "sensors/temp").
Proof.
  apply (default_namespaces_do_not_meet default_plugin team_client acme_client
           "foo@bar" "alice@acme" "bar" "acme" "sensors/temp" "sensors/temp"
           (running 2) (after 1 (running 2)) (running 2) (after 1 (running 2))).
  - reflexivity.
  - reflexivity.
  - reflexivity.
  - vm_compute. reflexivity.
  - vm_compute. reflexivity.
  - simpl. exact I.
  - simpl. exact I.
Defined.

(** X9.  With the default pattern [callback_message_out] does not strip
    the prefix of another team: a topic in the name space of team [T1] is
    handed to a client of a different team as it is. *)
Theorem foreign_prefix_is_not_stripped (g : plugin) (client : mosquitto)
        (u1 u2 T1 T2 P : string) (wa wa1 w w1 : world) :
  username_match g = snd (regcomp default_pattern) ->
  get_team g u1 wa = Normal (Some T1) wa1 ->
  mosquitto_client_username client = Some u2 ->
  get_team g u2 w = Normal (Some T2) w1 ->
  T1 <> T2 ->
  callback_message_out g {| msg_client := client; topic := (T1 ++ "/" ++ P)%string |} w =
  Normal (MOSQ_ERR_SUCCESS,
          {| msg_client := client; topic := (T1 ++ "/" ++ P)%string |}) w1.
Proof.
  intros Hg Ht1 Hu2 Ht2 Hne.
  rewrite regcomp_default in Hg. cbn [snd] in Hg.
  destruct (default_team_made_of g u1 T1 wa wa1 Hg Ht1) as [_ Hm1].
  destruct (default_team_made_of g u2 T2 w w1 Hg Ht2) as [_ Hm2].
  apply (message_out_other g
           {| msg_client := client; topic := (T1 ++ "/" ++ P)%string |}
           u2 T2 w w1 Hu2 Ht2).
  cbn [topic]. intros rest _ E.
  destruct (split_first tenant_char T1 T2 P rest "/" Hm1 Hm2 eq_refl E) as [H _].
  contradiction.
Qed.

Lemma foreign_prefix_is_not_stripped_witness :
  callback_message_out default_plugin
    {| msg_client := acme_client; topic := ("bar" ++ "/" ++ "sensors/temp")%string |}
    (running 1) =
  Normal (MOSQ_ERR_SUCCESS,
          {| msg_client := acme_client;
             topic := ("bar" ++ "/" ++ "sensors/temp")%string |})
         (after 1 (running 1)).
Proof.
  apply (foreign_prefix_is_not_stripped default_plugin acme_client
           "foo@bar" "alice@acme" "bar" "acme" "sensors/temp"
           (running 1) (after 1 (running 1)) (running 1) (after 1 (running 1))).
  - reflexivity.
  - vm_compute. reflexivity.
  - reflexivity.
  - vm_compute. reflexivity.
  - discriminate.
Defined.

(** X10.  With the default pattern the client ids [connect_callback]
    makes do not collide: if two clients end up with the same id, they had
    the same id and the same team before. *)
Theorem default_client_ids_do_not_collide (g : plugin) (c1 c2 : mosquitto)
        (u1 u2 T1 T2 : string) (wa wa1 wb wb1 : world) :
  username_match g = snd (regcomp default_pattern) ->
  mosquitto_client_username c1 = Some u1 ->
  mosquitto_client_username c2 = Some u2 ->
  get_team g u1 wa = Normal (Some T1) wa1 ->
  get_team g u2 wb = Normal (Some T2) wb1 ->
  granted 1 (grants wa1) ->
  granted 1 (grants wb1) ->
  exists c1' c2',
    connect_callback g c1 wa = Normal (MOSQ_ERR_SUCCESS, c1') (after 1 wa1) /\
    connect_callback g c2 wb = Normal (MOSQ_ERR_SUCCESS, c2') (after 1 wb1) /\
    (mosquitto_client_id c1' = mosquitto_client_id c2' ->
     mosquitto_client_id c1 = mosquitto_client_id c2 /\ T1 = T2).
Proof.
  intros Hg Hu1 Hu2 Ht1 Ht2 Hw1 Hw2.
  rewrite regcomp_default in Hg. cbn [snd] in Hg.
  destruct (default_team_made_of g u1 T1 wa wa1 Hg Ht1) as [_ Hm1].
  destruct (default_team_made_of g u2 T2 wb wb1 Hg Ht2) as [_ Hm2].
  eexists _, _. split; [exact (connect_resolved g c1 u1 T1 wa wa1 Hu1 Ht1 Hw1)|].
  split; [exact (connect_resolved g c2 u2 T2 wb wb1 Hu2 Ht2 Hw2)|].
  cbn [mosquitto_client_id].
  apply (split_last tenant_char _ _ T1 T2 "@" Hm1 Hm2 eq_refl).
Qed.

Lemma default_client_ids_do_not_collide_witness :
  exists c1' c2',
    connect_callback default_plugin team_client (running 2) =
      Normal (MOSQ_ERR_SUCCESS, c1') (after 1 (after 1 (running 2))) /\
    connect_callback default_plugin acme_client (running 2) =
      Normal (MOSQ_ERR_SUCCESS, c2') (after 1 (after 1 (running 2))) /\
    (mosquitto_client_id c1' = mosquitto_client_id c2' ->
     mosquitto_client_id team_client = mosquitto_client_id acme_client /\
     "bar" = "acme").
Proof.
  apply (default_client_ids_do_not_collide default_plugin team_client acme_client
           "foo@bar" "alice@acme" "bar" "acme"
           (running 2) (after 1 (running 2)) (running 2) (after 1 (running 2))).
  - reflexivity.
  - reflexivity.
  - reflexivity.
  - vm_compute. reflexivity.
  - vm_compute. reflexivity.
  - simpl. exact I.
  - simpl. exact I.
Defined.

End DefaultPattern.

Section OtherPatterns.

(** With a pattern whose group can hold a slash the name spaces of two
    teams can meet: team [a/b] publishing to [c] and team [a] publishing
    to [b/c] both end on [a/b/c]. *)
Example namespaces_can_meet_with_a_slash_in_the_team :
  exists r,
    regcomp "^[a-z]+@(.+)$" = (REG_NOERROR, Some r) /\
    callback_message_in
      {| username_match := Some r; shared_sub_match := Some shared_regex |}
      {| msg_client := {| mosquitto_client_username := Some "x@a/b";
                          mosquitto_client_id := "c1" |};
         topic := "c" |} (running 2) =
    Normal (MOSQ_ERR_SUCCESS,
            {| msg_client := {| mosquitto_client_username := Some "x@a/b";
                                mosquitto_client_id := "c1" |};
               topic := "a/b/c" |}) (running 0) /\
    callback_message_in
      {| username_match := Some r; shared_sub_match := Some shared_regex |}
      {| msg_client := {| mosquitto_client_username := Some "y@a";
                          mosquitto_client_id := "c2" |};
         topic := "b/c" |} (running 2) =
    Normal (MOSQ_ERR_SUCCESS,
            {| msg_client := {| mosquitto_client_username := Some "y@a";
                                mosquitto_client_id := "c2" |};
               topic := "a/b/c" |}) (running 0).
Proof.
  eexists. split; [vm_compute; reflexivity|].
  split; vm_compute; reflexivity.
Qed.

End OtherPatterns.

Section RegistrationOrder.

(** A registration never runs into undefined behaviour, and it adds the
    callback exactly when it succeeds. *)
Lemma register_outcome (event : mosquitto_plugin_event) (f : cb_func) (w : world) :
  exists rc w1,
    mosquitto_callback_register event f w = Normal rc w1 /\
    callbacks w1 = callbacks w ++ (if succeeded rc then [(event, f)] else []).
Proof.
  unfold mosquitto_callback_register, allocate.
  destruct (existsb _ (callbacks w)).
  - exists MOSQ_ERR_ALREADY_EXISTS, w. now rewrite app_nil_r.
  - destruct w as [[|[b|] h] cbs]; cbn [grants callbacks].
    + eexists MOSQ_ERR_NOMEM, _. split; [reflexivity|]. now rewrite app_nil_r.
    + eexists MOSQ_ERR_SUCCESS, _. split; reflexivity.
    + eexists MOSQ_ERR_NOMEM, _. split; [reflexivity|]. now rewrite app_nil_r.
Qed.

Lemma succeeded_true (rc : mosq_err_t) : succeeded rc = true -> rc = MOSQ_ERR_SUCCESS.
Proof. now destruct rc. Qed.

Lemma succeeded_false (rc : mosq_err_t) : succeeded rc = false -> rc <> MOSQ_ERR_SUCCESS.
Proof. now destruct rc. Qed.

(** The next registration of [mosquitto_plugin_init], in the world [w]:
    it succeeds, or it fails with the status [rc]. *)
Ltac next_registration w rc w' H C S :=
  match goal with
  | |- context [bind (mosquitto_callback_register ?e ?f) _ w] =>
      destruct (register_outcome e f w) as (rc & w' & H & C);
      unfold bind at 1; rewrite H;
      destruct (succeeded rc) eqn:S; cbn [negb app] in *;
      [apply succeeded_true in S; subst rc
      |apply succeeded_false in S; rewrite app_nil_r in C]
  end.

Ltac in_order :=
  cbn [firstn all_callbacks registers];
  repeat (eexists; split; [eassumption|]); reflexivity.

Ltac chain :=
  repeat match goal with
         | C : callbacks ?x = _ |- context [callbacks ?x] => rewrite C
         end;
  rewrite <- ?app_assoc, ?app_nil_r; reflexivity.

Ltac stopped :=
  split; [reflexivity|]; split; [lia|]; split; [in_order|];
  split; [cbn [nth_error all_callbacks]; split; assumption|];
  split; [cbn [firstn all_callbacks]; chain|];
  split; [intros ->; congruence | lia].

(** X11.  [mosquitto_plugin_init] never runs into undefined behaviour and
    sets the two expressions whatever becomes of the registrations.  It
    registers the five callbacks in the order of the source: the first
    [j] of them succeed one after the other, which takes the broker to
    the world [wj].  When [j] is less than five the next registration, run
    in [wj], fails, and [mosquitto_plugin_init] returns the very status
    and world of that registration: it registers nothing more and does
    not take back the callbacks registered before.  When [j] is five the
    status is that of the last registration, success. *)
Theorem init_registers_a_prefix (opts : list mosquitto_opt) (w : world) :
  exists rc j wj w',
    mosquitto_plugin_init opts w = Normal (rc, configured opts) w' /\
    j <= 5 /\
    registers (firstn j all_callbacks) w wj /\
    match nth_error all_callbacks j with
    | Some (event, f) =>
        mosquitto_callback_register event f wj = Normal rc w' /\
        rc <> MOSQ_ERR_SUCCESS
    | None => rc = MOSQ_ERR_SUCCESS /\ w' = wj
    end /\
    callbacks w' = callbacks w ++ firstn j all_callbacks /\
    (rc = MOSQ_ERR_SUCCESS <-> j = 5).
Proof.
  unfold mosquitto_plugin_init, configured.
  destruct (find_regex opts None false) as [um found].
  set (g := {| username_match := _; shared_sub_match := _ |}).
  next_registration w rc1 w1 H1 C1 S1; [|exists rc1, 0, w, w1; stopped].
  next_registration w1 rc2 w2 H2 C2 S2; [|exists rc2, 1, w1, w2; stopped].
  next_registration w2 rc3 w3 H3 C3 S3; [|exists rc3, 2, w2, w3; stopped].
  next_registration w3 rc4 w4 H4 C4 S4; [|exists rc4, 3, w3, w4; stopped].
  destruct (register_outcome MOSQ_EVT_UNSUBSCRIBE cb_callback_unsubscribe w4)
    as (rc5 & w5 & H5 & C5).
  unfold bind, ret. rewrite H5.
  destruct (succeeded rc5) eqn:S5; cbn [app] in *;
    [apply succeeded_true in S5; subst rc5
    |apply succeeded_false in S5; rewrite app_nil_r in C5].
  - exists MOSQ_ERR_SUCCESS, 5, w5, w5.
    split; [reflexivity|]. split; [lia|]. split; [in_order|].
    split; [cbn [nth_error all_callbacks]; split; reflexivity|].
    split; [|split; reflexivity].
    cbn [firstn all_callbacks]. chain.
  - exists rc5, 4, w4, w5. stopped.
Qed.

End RegistrationOrder.

Section OptionsAndMemory.

Lemma find_regex_app (l1 l2 : list mosquitto_opt) (um : regex_t) (found : bool) :
  find_regex (l1 ++ l2) um found =
  find_regex l2 (fst (find_regex l1 um found)) (snd (find_regex l1 um found)).
Proof.
  revert um found; induction l1 as [|o l1 IH]; intros um found; simpl;
    [reflexivity|].
  destruct (strcasecmp (key o) "regex" =? 0)%Z; apply IH.
Qed.

(** X12.  When the broker runs out of memory at one of the five
    registrations, [mosquitto_plugin_init] reports [MOSQ_ERR_NOMEM] and
    the callbacks registered before that one stay registered. *)
Theorem init_out_of_memory (opts : list mosquitto_opt) (w : world) (k : nat) :
  callbacks w = [] ->
  k < 5 ->
  granted k (grants w) ->
  ~ granted 1 (skipn k (grants w)) ->
  mosquitto_plugin_init opts w =
  Normal (MOSQ_ERR_NOMEM, configured opts)
         {| grants := skipn (S k) (grants w); callbacks := firstn k all_callbacks |}.
Proof.
  destruct w as [h cbs]. cbn [grants callbacks]. intros -> Hk Hg Hn.
  unfold mosquitto_plugin_init, configured.
  destruct (find_regex opts None false) as [um found].
  destruct k as [|[|[|[|[|k]]]]]; try lia; simpl in Hg, Hn;
    repeat
      match goal with
      | H : context [match ?l with [] => _ | _ :: _ => _ end] |- _ =>
          is_var l; destruct l as [|[?|] ?]; simpl in H; try contradiction
      end;
    try tauto; reflexivity.
Qed.

Lemma init_out_of_memory_witness :
  mosquitto_plugin_init [] (fresh 2) =
  Normal (MOSQ_ERR_NOMEM, configured [])
         {| grants := skipn 3 (grants (fresh 2)); callbacks := firstn 2 all_callbacks |}.
Proof.
  apply (init_out_of_memory [] (fresh 2) 2).
  - reflexivity.
  - lia.
  - simpl. exact I.
  - simpl. tauto.
Defined.

(** X13.  The option that sets the tenant pattern is found by its key
    whatever the case of the letters, and when several options carry that
    key the last one is the one [username_match] is compiled from. *)
Theorem last_regex_option_wins (front back : list mosquitto_opt) (k v : string)
        (w w' : world) (rc : mosq_err_t) (g : plugin) :
  strcasecmp k "regex" = 0%Z ->
  Forall (fun o => strcasecmp (key o) "regex" <> 0%Z) back ->
  mosquitto_plugin_init (front ++ {| key := k; value := v |} :: back) w
    = Normal (rc, g) w' ->
  username_match g = snd (regcomp v).
Proof.
  intros Hk Hback Hinit. apply init_plugin in Hinit. subst g.
  unfold configured. rewrite find_regex_app. cbn [find_regex key value].
  apply Z.eqb_eq in Hk. rewrite Hk.
  rewrite (find_regex_absent back _ true Hback). reflexivity.
Qed.

Lemma last_regex_option_wins_witness :
  username_match
    {| username_match := snd (regcomp "^([a-z]+)-.*$");
       shared_sub_match := Some shared_regex |} = snd (regcomp "^([a-z]+)-.*$").
Proof.
  apply (last_regex_option_wins
           [{| key := "regex"; value := "^x(.+)$" |}]
           [{| key := "other"; value := "1" |}]
           "ReGeX" "^([a-z]+)-.*$" (fresh 5)
           {| grants := []; callbacks := all_callbacks |} MOSQ_ERR_SUCCESS).
  - reflexivity.
  - repeat constructor. vm_compute. discriminate.
  - vm_compute. reflexivity.
Defined.

End OptionsAndMemory.

Section SharedFilters.

Lemma advance_add (s : string) (a b : nat) :
  advance s (a + b) = advance (advance s a) b.
Proof.
  revert s; induction a as [|a IH]; intros s; simpl; [reflexivity|].
  destruct s as [|c s]; [now destruct b | apply IH].
Qed.

Lemma shared_form_elim (F : string) (e1 : nat) :
  shared_form F = Some e1 ->
  exists grp inner,
    F = ("$share/" ++ grp ++ "/" ++ inner)%string /\
    grp <> EmptyString /\ inner <> EmptyString /\ made_of group_char grp.
Proof.
  intros Hf. destruct (shared_form_some F e1 Hf) as [Hb Hlen].
  unfold shared_form in Hf. rewrite Hb in Hf.
  set (R := advance F 7) in *.
  destruct (0 <? span group_char R) eqn:H0; [|discriminate].
  destruct (Ascii.eqb (char_at F (7 + span group_char R)) "/") eqn:Hc; [|discriminate].
  cbn [andb] in Hf.
  destruct (7 + span group_char R + 1 <? String.length F); [|discriminate].
  assert (He : 7 + span group_char R = e1) by congruence.
  apply Ascii.eqb_eq in Hc. apply Nat.ltb_lt in H0.
  apply begins_spec in Hb. change (String.length "$share/") with 7 in Hb. fold R in Hb.
  assert (HcR : char_at R (span group_char R) = "/"%char).
  { unfold char_at in *. rewrite get_advance in *. unfold R.
    now rewrite <- advance_add. }
  destruct (made_of_substring_span group_char R) as [Hm Hl].
  exists (String.substring 0 (span group_char R) R),
         (advance R (span group_char R + 1)).
  repeat split.
  - rewrite Hb at 1. f_equal.
    rewrite (substring_advance_split R (span group_char R)) at 1. f_equal.
    apply char_at_advance; [discriminate | exact HcR].
  - intros E. rewrite E in Hl. simpl in Hl. lia.
  - intros E. pose proof (length_advance R (span group_char R + 1)) as HL.
    assert (HR : String.length R = String.length F - 7)
      by (unfold R; apply length_advance).
    rewrite E in HL. simpl in HL. lia.
  - exact Hm.
Qed.

Lemma undefined_observed (o : outcome (mosq_err_t * mosquitto_evt_unsubscribe)) :
  observe_unsubscribe o = Undefined -> o = Undefined.
Proof. destruct o as [[rc ed] w|]; [discriminate | reflexivity]. Qed.

Lemma normal_observed (o : outcome (mosq_err_t * mosquitto_evt_unsubscribe))
      (rc : mosq_err_t) (client : mosquitto) (F : string) (w : world) :
  observe_unsubscribe o = Normal (rc, client, F) w ->
  o = Normal (rc, {| unsub_client := client; unsub_topic_filter := F |}) w.
Proof.
  destruct o as [[rc' [c' F']] w'|]; simpl; [|discriminate].
  now intros [= -> -> -> ->].
Qed.

Lemma shared_filter_length (grp inner : string) :
  String.length ("$share/" ++ grp ++ "/" ++ inner)%string
  = 7 + String.length grp + 1 + String.length inner.
Proof. rewrite !length_append. simpl. lia. Qed.

(** X14.  For every filter that is the marker, a share group, a slash and
    an inner filter: when the allocator hands out, for the inner filter,
    a block of just the size asked for, the terminator is stored behind
    the block, in [callback_subscribe] and in [callback_unsubscribe]. *)
Theorem shared_filter_overflows_exact_block (g : plugin) (client : mosquitto)
        (username T grp inner : string) (w : world)
        (b0 b1 b2 : block) (rest : list (option block))
        (cbs : list (mosquitto_plugin_event * cb_func)) :
  mosquitto_client_username client = Some username ->
  get_team g username w =
    Normal (Some T) {| grants := Some b0 :: Some b1 :: Some b2 :: rest;
                       callbacks := cbs |} ->
  shared_sub_match g = snd (regcomp shared_pattern) ->
  grp <> EmptyString -> inner <> EmptyString -> made_of group_char grp ->
  length b2 <= String.length inner + 1 ->
  callback_subscribe g
    {| sub_client := client;
       sub_topic_filter := ("$share/" ++ grp ++ "/" ++ inner)%string |} w = Undefined /\
  callback_unsubscribe g
    {| unsub_client := client;
       unsub_topic_filter := ("$share/" ++ grp ++ "/" ++ inner)%string |} w = Undefined.
Proof.
  intros Hu Hg Hs Hgrp Hin Hm Hb2.
  rewrite regcomp_shared in Hs. cbn [snd] in Hs.
  assert (Hsub : callback_subscribe g
            {| sub_client := client;
               sub_topic_filter := ("$share/" ++ grp ++ "/" ++ inner)%string |} w
            = Undefined).
  { apply (subscribe_shared_no_spare_room g client username T _
             (7 + String.length grp) w b0 b1 b2 rest cbs Hu Hg Hs
             (shared_form_intro grp inner Hgrp Hin Hm)).
    rewrite shared_filter_length. lia. }
  split; [exact Hsub|].
  apply undefined_observed. now rewrite unsubscribe_observed, Hsub.
Qed.

Lemma shared_filter_overflows_exact_block_witness :
  callback_subscribe default_plugin
    {| sub_client := team_client;
       sub_topic_filter := ("$share/" ++ "g1" ++ "/" ++ "a/b/c")%string |}
    (running 4) = Undefined /\
  callback_unsubscribe default_plugin
    {| unsub_client := team_client;
       unsub_topic_filter := ("$share/" ++ "g1" ++ "/" ++ "a/b/c")%string |}
    (running 4) = Undefined.
Proof.
  apply (shared_filter_overflows_exact_block default_plugin team_client "foo@bar"
           "bar" "g1" "a/b/c" (running 4) [] [] [] [] all_callbacks).
  - reflexivity.
  - vm_compute. reflexivity.
  - reflexivity.
  - discriminate.
  - discriminate.
  - reflexivity.
  - simpl. lia.
Defined.

(** X15.  For every such filter, when the block of the inner filter has
    room for the misplaced terminator: both callbacks report success and
    the filter they return is the marker, the share group, a slash, the
    team, a slash, the inner filter, and then the byte the allocator left
    behind the inner filter unless that byte is 0. *)
Theorem shared_filter_rewrite_with_spare_room (g : plugin) (client : mosquitto)
        (username T grp inner : string) (w : world)
        (b0 b1 b2 : block) (rest : list (option block))
        (cbs : list (mosquitto_plugin_event * cb_func)) :
  mosquitto_client_username client = Some username ->
  get_team g username w =
    Normal (Some T) {| grants := Some b0 :: Some b1 :: Some b2 :: rest;
                       callbacks := cbs |} ->
  shared_sub_match g = snd (regcomp shared_pattern) ->
  grp <> EmptyString -> inner <> EmptyString -> made_of group_char grp ->
  nonul grp -> nonul inner ->
  String.length inner + 2 <= length b2 ->
  callback_subscribe g
    {| sub_client := client;
       sub_topic_filter := ("$share/" ++ grp ++ "/" ++ inner)%string |} w =
    Normal (MOSQ_ERR_SUCCESS,
            {| sub_client := client;
               sub_topic_filter :=
                 ("$share/" ++ grp ++ "/" ++ T ++ "/" ++ inner
                  ++ stray (nth (String.length inner) b2 NUL))%string |})
           {| grants := rest; callbacks := cbs |} /\
  callback_unsubscribe g
    {| unsub_client := client;
       unsub_topic_filter := ("$share/" ++ grp ++ "/" ++ inner)%string |} w =
    Normal (MOSQ_ERR_SUCCESS,
            {| unsub_client := client;
               unsub_topic_filter :=
                 ("$share/" ++ grp ++ "/" ++ T ++ "/" ++ inner
                  ++ stray (nth (String.length inner) b2 NUL))%string |})
           {| grants := rest; callbacks := cbs |}.
Proof.
  intros Hu Hg Hs Hgrp Hin Hm Hng Hni Hb2.
  rewrite regcomp_shared in Hs. cbn [snd] in Hs.
  set (F := ("$share/" ++ grp ++ "/" ++ inner)%string).
  assert (HF : nonul F).
  { unfold F. apply nonul_append; [simpl; repeat split; discriminate|].
    apply nonul_append; [exact Hng|]. simpl. split; [discriminate | exact Hni]. }
  assert (Hlen : String.length F - (7 + String.length grp + 1) = String.length inner).
  { unfold F. rewrite shared_filter_length. lia. }
  assert (Hsub : callback_subscribe g {| sub_client := client; sub_topic_filter := F |} w =
    Normal (MOSQ_ERR_SUCCESS,
            {| sub_client := client;
               sub_topic_filter :=
                 ("$share/" ++ grp ++ "/" ++ T ++ "/" ++ inner
                  ++ stray (nth (String.length inner) b2 NUL))%string |})
           {| grants := rest; callbacks := cbs |}).
  { assert (H1 : String.substring 0 (7 + String.length grp) F = ("$share/" ++ grp)%string).
    { unfold F.
      change ("$share/" ++ grp ++ "/" ++ inner)%string
        with (("$share/" ++ grp) ++ String "/" inner)%string.
      change (7 + String.length grp) with (String.length ("$share/" ++ grp)%string).
      apply substring_append. }
    assert (H2 : advance F (7 + String.length grp + 1) = inner).
    { unfold F. rewrite <- Nat.add_assoc, advance_add.
      change (advance ("$share/" ++ grp ++ "/" ++ inner)%string 7)
        with (grp ++ String "/" inner)%string.
      now rewrite Nat.add_1_r, advance_S, advance_append. }
    rewrite (subscribe_shared_spare_room g client username T F
               (7 + String.length grp) w b0 b1 b2 rest cbs Hu Hg Hs
               (shared_form_intro grp inner Hgrp Hin Hm) HF)
      by (rewrite Hlen; lia).
    rewrite Hlen, H1, H2. reflexivity. }
  split; [exact Hsub|].
  apply normal_observed. now rewrite unsubscribe_observed, Hsub.
Qed.

Lemma shared_filter_rewrite_with_spare_room_witness :
  callback_subscribe default_plugin
    {| sub_client := team_client;
       sub_topic_filter := ("$share/" ++ "g1" ++ "/" ++ "a/b/c")%string |}
    (roomy_world (list_ascii_of_string "0123456")) =
    Normal (MOSQ_ERR_SUCCESS,
            {| sub_client := team_client;
               sub_topic_filter :=
                 ("$share/" ++ "g1" ++ "/" ++ "bar" ++ "/" ++ "a/b/c"
                  ++ stray (nth (String.length "a/b/c")
                                (list_ascii_of_string "0123456") NUL))%string |})
           {| grants := []; callbacks := all_callbacks |} /\
  callback_unsubscribe default_plugin
    {| unsub_client := team_client;
       unsub_topic_filter := ("$share/" ++ "g1" ++ "/" ++ "a/b/c")%string |}
    (roomy_world (list_ascii_of_string "0123456")) =
    Normal (MOSQ_ERR_SUCCESS,
            {| unsub_client := team_client;
               unsub_topic_filter :=
                 ("$share/" ++ "g1" ++ "/" ++ "bar" ++ "/" ++ "a/b/c"
                  ++ stray (nth (String.length "a/b/c")
                                (list_ascii_of_string "0123456") NUL))%string |})
           {| grants := []; callbacks := all_callbacks |}.
Proof.
  apply (shared_filter_rewrite_with_spare_room default_plugin team_client "foo@bar"
           "bar" "g1" "a/b/c"
           (roomy_world (list_ascii_of_string "0123456"))
           [] [] (list_ascii_of_string "0123456") [] all_callbacks).
  - reflexivity.
  - vm_compute. reflexivity.
  - reflexivity.
  - discriminate.
  - discriminate.
  - reflexivity.
  - simpl. repeat split; discriminate.
  - simpl. repeat split; discriminate.
  - simpl. lia.
Defined.

(** X16.  For every filter that begins with the marker of shared
    subscriptions and is not the marker, a share group of one or more
    characters other than a slash, a slash and an inner filter of one or
    more characters, both callbacks report [MOSQ_ERR_NOMEM] and leave the
    filter as it was: so for a filter without a slash after the share
    group, with an empty share group or with an empty inner filter. *)
Theorem shared_filter_of_another_form_fails (g : plugin) (client : mosquitto)
        (username T F : string) (w w1 : world) :
  mosquitto_client_username client = Some username ->
  get_team g username w = Normal (Some T) w1 ->
  shared_sub_match g = snd (regcomp shared_pattern) ->
  begins "$share/" F = true ->
  (forall grp inner,
      grp <> EmptyString -> inner <> EmptyString -> made_of group_char grp ->
      F <> ("$share/" ++ grp ++ "/" ++ inner)%string) ->
  callback_subscribe g {| sub_client := client; sub_topic_filter := F |} w =
    Normal (MOSQ_ERR_NOMEM, {| sub_client := client; sub_topic_filter := F |})
           (after 1 w1) /\
  callback_unsubscribe g {| unsub_client := client; unsub_topic_filter := F |} w =
    Normal (MOSQ_ERR_NOMEM, {| unsub_client := client; unsub_topic_filter := F |})
           (after 1 w1).
Proof.
  intros Hu Hg Hs Hb Hno.
  rewrite regcomp_shared in Hs. cbn [snd] in Hs.
  assert (Hf : shared_form F = None).
  { destruct (shared_form F) as [e1|] eqn:Hf; [|reflexivity].
    exfalso. destruct (shared_form_elim F e1 Hf) as (grp & inner & HF & H1 & H2 & H3).
    exact (Hno grp inner H1 H2 H3 HF). }
  assert (Hm : matched (fst (regexec shared_regex F 3)) = false)
    by (now rewrite regexec_shared, Hf).
  apply begins_strncmp in Hb. change (String.length "$share/") with 7 in Hb.
  split.
  - exact (subscribe_malformed g {| sub_client := client; sub_topic_filter := F |}
             username T shared_regex w w1 Hu Hg Hs Hb Hm).
  - exact (unsubscribe_malformed g
             {| unsub_client := client; unsub_topic_filter := F |}
             username T shared_regex w w1 Hu Hg Hs Hb Hm).
Qed.

Lemma shared_filter_of_another_form_fails_witness :
  callback_subscribe default_plugin
    {| sub_client := team_client; sub_topic_filter := "$share/group/" |} (running 2) =
    Normal (MOSQ_ERR_NOMEM,
            {| sub_client := team_client; sub_topic_filter := "$share/group/" |})
           (after 1 (after 1 (running 2))) /\
  callback_unsubscribe default_plugin
    {| unsub_client := team_client; unsub_topic_filter := "$share/group/" |}
    (running 2) =
    Normal (MOSQ_ERR_NOMEM,
            {| unsub_client := team_client; unsub_topic_filter := "$share/group/" |})
           (after 1 (after 1 (running 2))).
Proof.
  apply (shared_filter_of_another_form_fails default_plugin team_client "foo@bar"
           "bar" "$share/group/" (running 2) (after 1 (running 2))).
  - reflexivity.
  - vm_compute. reflexivity.
  - reflexivity.
  - reflexivity.
  - intros grp inner Hgrp Hin Hm E.
    injection E as E.
    assert (H : ("group" ++ String "/" "")%string = (grp ++ String "/" inner)%string)
      by exact E.
    destruct (split_first group_char "group" grp "" inner "/" eq_refl Hm eq_refl H)
      as [_ Hi].
    now subst inner.
Defined.

End SharedFilters.
